(** * Tutor-Phone: the streaming media session engine

    A shallow embedding of the session code of the two application
    components of the repository:

    - [Tablet] follows [src/App.tsx] (screen sharing, two audio contexts,
      transcript history);
    - [Phone] follows [src/unnamed/part_000] (camera, one audio context,
      session recording).

    The React state cells and the [useRef] cells of a component are the
    fields of one record; the browser objects they point to (audio
    contexts, media-stream tracks, timers) live in a [Browser] store inside
    the same record, so that two references to one object see the same
    object.  Browser calls are recorded in a trace of [Effect]s.

    Seconds are exact rationals ([Q]): the doubles of the source are
    idealised, their rounding is not modelled. *)

From Stdlib Require Import List Bool Arith ZArith NArith QArith Qminmax Lia Lqa.
From Stdlib.Strings Require Import String Ascii Byte.
From Stdlib Require Import DecimalString.
Import ListNotations.

Local Open Scope Z_scope.

(* ================================================================== *)
(** * 1. PCM codec *)
(* ================================================================== *)

Module Codec.

(** ** 1.1 Transport text *)

(** Modelled from the spec: the helpers [encode] and [decode] of
    [./utils/audioHelpers] are imported by both components but are not
    among the sources.  The spec names them [toTransportText] and
    [fromTransportText], "a reversible binary-to-text transport encoding";
    the call sites name its values [base64Audio] and [base64Data], so the
    encoding is taken to be RFC 4648 base64 with padding. *)
Definition alphabet : list ascii :=
  list_ascii_of_string
    "ABCDEFGHIJKLMNOPQRSTUVWXYZabcdefghijklmnopqrstuvwxyz0123456789+/".

Definition pad : ascii := "="%char.

Definition sextet_char (n : N) : ascii :=
  nth (N.to_nat n) alphabet pad.

Fixpoint index_of (c : ascii) (l : list ascii) (i : N) : option N :=
  match l with
  | [] => None
  | d :: l' => if Ascii.eqb c d then Some i else index_of c l' (N.succ i)
  end.

Definition char_sextet (c : ascii) : option N := index_of c alphabet 0%N.

Definition byte_of_N (n : N) : byte :=
  match Byte.of_N (n mod 256) with
  | Some b => b
  | None => x00
  end.

(** Three bytes make one 24-bit group, written as four sextets. *)
Definition group24 (a b c : byte) : N :=
  (Byte.to_N a * 65536 + Byte.to_N b * 256 + Byte.to_N c)%N.

Definition sextet (g : N) (k : N) : N := ((g / 2 ^ (6 * k)) mod 64)%N.

(** Modelled from the spec: [toTransportText] ([encode]). *)
Fixpoint encode (bs : list byte) : string :=
  match bs with
  | [] => EmptyString
  | [a] =>
      let g := group24 a x00 x00 in
      String (sextet_char (sextet g 3)) (String (sextet_char (sextet g 2))
        (String pad (String pad EmptyString)))
  | [a; b] =>
      let g := group24 a b x00 in
      String (sextet_char (sextet g 3)) (String (sextet_char (sextet g 2))
        (String (sextet_char (sextet g 1)) (String pad EmptyString)))
  | a :: b :: c :: rest =>
      let g := group24 a b c in
      String (sextet_char (sextet g 3)) (String (sextet_char (sextet g 2))
        (String (sextet_char (sextet g 1)) (String (sextet_char (sextet g 0))
          (encode rest))))
  end.

Definition ungroup (s3 s2 s1 s0 : N) : N :=
  (s3 * 262144 + s2 * 4096 + s1 * 64 + s0)%N.

(** Modelled from the spec: [fromTransportText] ([decode]); [None] is the
    exception the helper raises on text that is not a valid encoding. *)
Fixpoint decode (t : string) : option (list byte) :=
  match t with
  | EmptyString => Some []
  | String c3 (String c2 (String c1 (String c0 rest))) =>
      match char_sextet c3, char_sextet c2 with
      | Some s3, Some s2 =>
          if Ascii.eqb c0 pad then
            match rest with
            | EmptyString =>
                if Ascii.eqb c1 pad then
                  let g := ungroup s3 s2 0 0 in
                  Some [byte_of_N (g / 65536)]
                else
                  match char_sextet c1 with
                  | Some s1 =>
                      let g := ungroup s3 s2 s1 0 in
                      Some [byte_of_N (g / 65536); byte_of_N (g / 256)]
                  | None => None
                  end
            | _ => None
            end
          else
            match char_sextet c1, char_sextet c0, decode rest with
            | Some s1, Some s0, Some bs =>
                let g := ungroup s3 s2 s1 s0 in
                Some (byte_of_N (g / 65536) :: byte_of_N (g / 256)
                        :: byte_of_N g :: bs)
            | _, _, _ => None
            end
      | _, _ => None
      end
  | _ => None
  end.

(** ** 1.2 PCM16 *)

(** A sample of a [Float32Array].  Every finite binary32 value is a
    rational, and its product with 32768 (a power of two, computed in
    binary64) is exact, so [Finite] carries the exact value. *)
Inductive Float : Type :=
  | Finite (q : Q)
  | NaN
  | Infinity (negative : bool).

(** [x * 32768] *)
Definition scale (x : Float) : Float :=
  match x with
  | Finite q => Finite (q * 32768)%Q
  | NaN => NaN
  | Infinity s => Infinity s
  end.

(** Rounding toward zero (ECMAScript [truncate]). *)
Definition truncate (q : Q) : Z := Z.quot (Qnum q) (Z.pos (Qden q)).

(** ECMAScript [ToInt16], the conversion of a store into an [Int16Array]:
    not finite gives 0; otherwise truncate, reduce modulo 2^16 and read the
    result as a signed 16-bit integer. *)
Definition ToInt16 (x : Float) : Z :=
  match x with
  | Finite q =>
      let int := truncate q in
      let int16bit := int mod 65536 in
      if 32768 <=? int16bit then int16bit - 65536 else int16bit
  | NaN | Infinity _ => 0
  end.

(** The loop of [onaudioprocess]: [int16[i] = inputData[i] * 32768]. *)
Definition toPCM16 (inputData : list Float) : list Z :=
  map (fun x => ToInt16 (scale x)) inputData.

Definition byte_of_Z (z : Z) : byte := byte_of_N (Z.to_N (z mod 256)).

(** [new Uint8Array(int16.buffer)]: two bytes per sample, low byte first. *)
Definition int16_bytes (v : Z) : list byte :=
  [byte_of_Z v; byte_of_Z (v / 256)].

Definition pcm_bytes (int16 : list Z) : list byte :=
  flat_map int16_bytes int16.

(** What clamping would give instead (used only to state that the code
    does not clamp). *)
Definition clamp16 (z : Z) : Z := Z.max (-32768) (Z.min 32767 z).

End Codec.

(* ================================================================== *)
(** * 2. Browser objects and the callback monad *)
(* ================================================================== *)

Module Web.

(** [src/types.ts] *)
Inductive ConnectionStatus : Type :=
  | disconnected
  | connecting
  | connected
  | error.

Inductive Role : Type := user | model.

Record TranscriptionEntry : Type := {
  role : Role;
  text : string;
  timestamp : Z
}.

(** A JavaScript exception value: [e.name] and [e.message]. *)
Record JsError : Type := { name : string; message : string }.

Definition Error (msg : string) : JsError :=
  {| name := "Error"; message := msg |}.

(** Identity of a browser object (an audio context, a track, a timer, a
    source node, a recorder, a channel handle). *)
Definition Handle : Type := positive.

Definition MediaStream : Type := list Handle.   (* its tracks *)

(** [AudioBuffer]: the decoded channels and the rate the buffer is tagged
    with. *)
Record AudioBuffer : Type := {
  numberOfChannels : nat;
  channels : list (list Q);
  frames : nat;
  sampleRate : positive
}.

(** [audioBuffer.duration], in seconds. *)
Definition duration (b : AudioBuffer) : Q := Z.of_nat (frames b) # sampleRate b.

(** An [AudioBufferSourceNode] that has been started: a playback voice. *)
Record Voice : Type := {
  source : Handle;
  buffer : AudioBuffer;
  scheduledStart : Q
}.

(** The outbound media chunk of [sendRealtimeInput]. *)
Record Blob : Type := { data : string; mimeType : string }.

(** Browser and channel calls, in the order they are made.  [DropSession]
    marks the assignment that drops the channel handle. *)
Inductive Effect : Type :=
  | NewAudioContext (c : Handle) (rate : positive)
  | ContextResume (c : Handle)
  | ContextClose (c : Handle)
  | GetUserMedia
  | GetDisplayMedia
  | TrackStop (t : Handle)
  | SetInterval (h : Handle)
  | ClearInterval (h : Handle)
  | LiveConnect
  | DropSession (s : Handle)
  | CreateMediaStreamSource (c : Handle)
  | CreateScriptProcessor (c : Handle)
  | CreateGain (c : Handle)
  | NewMediaRecorder (r : Handle)
  | RecorderStart (r : Handle)
  | RecorderStop (r : Handle)
  | CreateBufferSource (c n : Handle)
  | ConnectDestination (n c : Handle)
  | ConnectMixer (n g : Handle)
  | SourceStart (n : Handle) (when : Q)
  | SourceStop (n : Handle)
  | SendRealtimeInput (b : Blob)
  | ConsoleError (msg : string).

(** The browser objects the component holds references to. *)
Record Browser : Type := {
  nextHandle : Handle;            (* next fresh object identity *)
  openContexts : list Handle;     (* audio contexts not closed *)
  liveTracks : list Handle;       (* tracks whose readyState is live *)
  activeTimers : list Handle;     (* intervals not cleared *)
  recording : list Handle;        (* recorders whose state is not inactive *)
  endedSources : list Handle      (* source nodes already stopped or ended *)
}.

Definition without (h : Handle) (l : list Handle) : list Handle :=
  filter (fun x => negb (Pos.eqb x h)) l.

Definition member (h : Handle) (l : list Handle) : bool :=
  existsb (Pos.eqb h) l.

Section Monad.

Context {Cells : Type}.

(** The whole state: the browser objects and the component's own cells
    ([useState] and [useRef]). *)
Record Machine : Type := { browser : Browser; cells : Cells }.

Inductive Completion (A : Type) : Type :=
  | Normal (a : A)
  | Abrupt (e : JsError).

Record Outcome (A : Type) : Type := {
  completion : Completion A;
  final : Machine;
  trace : list Effect
}.

Definition Js (A : Type) : Type := Machine -> Outcome A.

Definition ret {A} (a : A) : Js A :=
  fun m => {| completion := Normal A a; final := m; trace := [] |}.

(** The calls already made come before the calls of what follows. *)
Definition prepend {A} (t : list Effect) (o : Outcome A) : Outcome A :=
  match o with
  | {| completion := c; final := m; trace := t' |} =>
      {| completion := c; final := m; trace := t ++ t' |}
  end.

Definition andThen {A B} (o : Outcome A) (f : A -> Js B) : Outcome B :=
  match o with
  | {| completion := Normal _ a; final := m; trace := t |} =>
      prepend t (f a m)
  | {| completion := Abrupt _ e; final := m; trace := t |} =>
      {| completion := Abrupt B e; final := m; trace := t |}
  end.

(** [x; f] : an exception of [x] skips [f]; the state changes made before
    the exception stay. *)
Definition bind {A B} (x : Js A) (f : A -> Js B) : Js B :=
  fun m => andThen (x m) f.

Definition throw {A} (e : JsError) : Js A :=
  fun m => {| completion := Abrupt A e; final := m; trace := [] |}.

Definition orElse {A} (o : Outcome A) (handler : JsError -> Js A) : Outcome A :=
  match o with
  | {| completion := Normal _ a; final := m; trace := t |} => o
  | {| completion := Abrupt _ e; final := m; trace := t |} =>
      prepend t (handler e m)
  end.

(** [try { body } catch (e) { handler e }] *)
Definition tryCatch {A} (body : Js A) (handler : JsError -> Js A) : Js A :=
  fun m => orElse (body m) handler.

Definition emit (e : Effect) : Js unit :=
  fun m => {| completion := Normal unit tt; final := m; trace := [e] |}.

Definition read {A} (f : Cells -> A) : Js A :=
  fun m => {| completion := Normal A (f (cells m)); final := m; trace := [] |}.

Definition write (f : Cells -> Cells) : Js unit :=
  fun m => {| completion := Normal unit tt;
              final := {| browser := browser m; cells := f (cells m) |};
              trace := [] |}.

Definition inspect {A} (f : Browser -> A) : Js A :=
  fun m => {| completion := Normal A (f (browser m)); final := m; trace := [] |}.

Definition update (f : Browser -> Browser) : Js unit :=
  fun m => {| completion := Normal unit tt;
              final := {| browser := f (browser m); cells := cells m |};
              trace := [] |}.

End Monad.

Arguments Machine : clear implicits.
Arguments Js : clear implicits.
Arguments Outcome : clear implicits.
Arguments Normal {A} a.
Arguments Abrupt {A} e.
Arguments completion {Cells A} o.
Arguments final {Cells A} o.
Arguments trace {Cells A} o.
Arguments prepend {Cells A} t o.
Arguments andThen {Cells A B} o f.
Arguments orElse {Cells A} o handler.

Declare Scope js_scope.
Delimit Scope js_scope with js.
Notation "x <- c ;; k" := (bind c (fun x => k))
  (at level 61, c at next level, right associativity) : js_scope.
Notation "c ;; k" := (bind c (fun _ => k))
  (at level 61, right associativity) : js_scope.

Local Open Scope js_scope.

Section Primitives.

Context {Cells : Type}.

(** [list.forEach(f)] / [set.forEach(f)], in insertion order; an exception
    of [f] ends the loop. *)
Fixpoint forEach {A} (l : list A) (f : A -> Js Cells unit) : Js Cells unit :=
  match l with
  | [] => ret tt
  | a :: l' => f a ;; forEach l' f
  end.

(** [if (x) { ... }] on a reference that is an object or null. *)
Definition whenSome {A} (x : option A) (f : A -> Js Cells unit) : Js Cells unit :=
  match x with
  | Some a => f a
  | None => ret tt
  end.

Definition when (b : bool) (c : Js Cells unit) : Js Cells unit :=
  if b then c else ret tt.

Definition fresh : Js Cells Handle :=
  h <- inspect nextHandle ;;
  update (fun b => {| nextHandle := Pos.succ h;
                      openContexts := openContexts b;
                      liveTracks := liveTracks b;
                      activeTimers := activeTimers b;
                      recording := recording b;
                      endedSources := endedSources b |}) ;;
  ret h.

(** [new AudioContext({ sampleRate })] *)
Definition newAudioContext (rate : positive) : Js Cells Handle :=
  c <- fresh ;;
  update (fun b => {| nextHandle := nextHandle b;
                      openContexts := openContexts b ++ [c];
                      liveTracks := liveTracks b;
                      activeTimers := activeTimers b;
                      recording := recording b;
                      endedSources := endedSources b |}) ;;
  emit (NewAudioContext c rate) ;;
  ret c.

(** [ctx.close()]: the context becomes closed; closing a closed context
    only rejects the promise it returns, which nobody awaits. *)
Definition contextClose (c : Handle) : Js Cells unit :=
  update (fun b => {| nextHandle := nextHandle b;
                      openContexts := without c (openContexts b);
                      liveTracks := liveTracks b;
                      activeTimers := activeTimers b;
                      recording := recording b;
                      endedSources := endedSources b |}) ;;
  emit (ContextClose c).

(** A stream the browser hands out: [n] fresh live tracks. *)
Fixpoint newTracks (n : nat) : Js Cells MediaStream :=
  match n with
  | O => ret []
  | S n' =>
      t <- fresh ;;
      update (fun b => {| nextHandle := nextHandle b;
                          openContexts := openContexts b;
                          liveTracks := liveTracks b ++ [t];
                          activeTimers := activeTimers b;
                          recording := recording b;
                          endedSources := endedSources b |}) ;;
      ts <- newTracks n' ;;
      ret (t :: ts)
  end.

(** [track.stop()] *)
Definition trackStop (t : Handle) : Js Cells unit :=
  update (fun b => {| nextHandle := nextHandle b;
                      openContexts := openContexts b;
                      liveTracks := without t (liveTracks b);
                      activeTimers := activeTimers b;
                      recording := recording b;
                      endedSources := endedSources b |}) ;;
  emit (TrackStop t).

(** [window.setInterval(...)] *)
Definition setInterval : Js Cells Handle :=
  h <- fresh ;;
  update (fun b => {| nextHandle := nextHandle b;
                      openContexts := openContexts b;
                      liveTracks := liveTracks b;
                      activeTimers := activeTimers b ++ [h];
                      recording := recording b;
                      endedSources := endedSources b |}) ;;
  emit (SetInterval h) ;;
  ret h.

(** [window.clearInterval(h)] *)
Definition clearInterval (h : Handle) : Js Cells unit :=
  update (fun b => {| nextHandle := nextHandle b;
                      openContexts := openContexts b;
                      liveTracks := liveTracks b;
                      activeTimers := without h (activeTimers b);
                      recording := recording b;
                      endedSources := endedSources b |}) ;;
  emit (ClearInterval h).

(** [new MediaRecorder(...)] followed by [recorder.start(...)] puts the
    recorder in state [recording]; [recorder.stop()] makes it inactive. *)
Definition recorderStart (r : Handle) : Js Cells unit :=
  update (fun b => {| nextHandle := nextHandle b;
                      openContexts := openContexts b;
                      liveTracks := liveTracks b;
                      activeTimers := activeTimers b;
                      recording := recording b ++ [r];
                      endedSources := endedSources b |}) ;;
  emit (RecorderStart r).

Definition recorderStop (r : Handle) : Js Cells unit :=
  update (fun b => {| nextHandle := nextHandle b;
                      openContexts := openContexts b;
                      liveTracks := liveTracks b;
                      activeTimers := activeTimers b;
                      recording := without r (recording b);
                      endedSources := endedSources b |}) ;;
  emit (RecorderStop r).

Definition InvalidStateError : JsError :=
  {| name := "InvalidStateError";
     message := "cannot call stop more than once" |}.

(** [source.stop()].  On WebKit a node that has already been stopped, or
    has played to its end, raises [InvalidStateError]; other engines accept
    the call.  The model takes the raising behaviour. *)
Definition sourceStop (v : Voice) : Js Cells unit :=
  emit (SourceStop (source v)) ;;
  ended <- inspect endedSources ;;
  if member (source v) ended then throw InvalidStateError
  else
    update (fun b => {| nextHandle := nextHandle b;
                        openContexts := openContexts b;
                        liveTracks := liveTracks b;
                        activeTimers := activeTimers b;
                        recording := recording b;
                        endedSources := endedSources b ++ [source v] |}).

(** The loop both components use on the in-flight set:
    [forEach(s => { try { s.stop(); } catch(e) {} })]. *)
Definition stopAll (vs : list Voice) : Js Cells unit :=
  forEach vs (fun s => tryCatch (sourceStop s) (fun _ => ret tt)).

End Primitives.

(** Closed forms of what the loops and the guarded calls do to the browser
    objects. *)
Fixpoint endTracks (ts : list Handle) (b : Browser) : Browser :=
  match ts with
  | [] => b
  | t :: ts' =>
      endTracks ts'
        {| nextHandle := nextHandle b;
           openContexts := openContexts b;
           liveTracks := without t (liveTracks b);
           activeTimers := activeTimers b;
           recording := recording b;
           endedSources := endedSources b |}
  end.

Fixpoint endVoices (vs : list Voice) (b : Browser) : Browser :=
  match vs with
  | [] => b
  | v :: vs' =>
      endVoices vs'
        (if member (source v) (endedSources b) then b
         else {| nextHandle := nextHandle b;
                 openContexts := openContexts b;
                 liveTracks := liveTracks b;
                 activeTimers := activeTimers b;
                 recording := recording b;
                 endedSources := endedSources b ++ [source v] |})
  end.

Definition closed (c : Handle) (b : Browser) : Browser :=
  {| nextHandle := nextHandle b;
     openContexts := without c (openContexts b);
     liveTracks := liveTracks b;
     activeTimers := activeTimers b;
     recording := recording b;
     endedSources := endedSources b |}.

Definition cleared (h : Handle) (b : Browser) : Browser :=
  {| nextHandle := nextHandle b;
     openContexts := openContexts b;
     liveTracks := liveTracks b;
     activeTimers := without h (activeTimers b);
     recording := recording b;
     endedSources := endedSources b |}.

Definition unrecorded (r : Handle) (b : Browser) : Browser :=
  {| nextHandle := nextHandle b;
     openContexts := openContexts b;
     liveTracks := liveTracks b;
     activeTimers := activeTimers b;
     recording := without r (recording b);
     endedSources := endedSources b |}.

(** One object identity has been handed out. *)
Definition bumped (b : Browser) : Browser :=
  {| nextHandle := Pos.succ (nextHandle b);
     openContexts := openContexts b;
     liveTracks := liveTracks b;
     activeTimers := activeTimers b;
     recording := recording b;
     endedSources := endedSources b |}.

(** [if (recorder.state !== 'inactive') recorder.stop()] *)
Definition finalized (r : Handle) (b : Browser) : Browser :=
  if member r (recording b) then unrecorded r b else b.

(** The browser after handing out a stream of [n] tracks, and the
    stream. *)
Fixpoint grantTracks (n : nat) (b : Browser) : MediaStream * Browser :=
  match n with
  | O => ([], b)
  | S n' =>
      let t := nextHandle b in
      let r := grantTracks n'
                 {| nextHandle := Pos.succ t;
                    openContexts := openContexts b;
                    liveTracks := liveTracks b ++ [t];
                    activeTimers := activeTimers b;
                    recording := recording b;
                    endedSources := endedSources b |} in
      (t :: fst r, snd r)
  end.

(** Apply a change for a reference that is set, none for [null]. *)
Definition ifSet {A} (x : option A) (f : A -> Browser -> Browser)
    (b : Browser) : Browser :=
  match x with
  | Some a => f a b
  | None => b
  end.

Definition effectsIfSet {A} (x : option A) (f : A -> list Effect)
  : list Effect :=
  match x with
  | Some a => f a
  | None => []
  end.

(** JavaScript truthiness of a string. *)
Definition truthy (s : string) : bool :=
  match s with
  | EmptyString => false
  | _ => true
  end.

(** [s + t] where [t] may be [undefined]. *)
Definition concatText (s : string) (t : option string) : string :=
  match t with
  | Some t' => String.append s t'
  | None => String.append s "undefined"
  end.

(** [list.slice(-n)] *)
Definition sliceLast {A} (n : nat) (l : list A) : list A :=
  skipn (List.length l - n) l.

(** [LiveServerMessage] of the channel library, as far as the components
    read it.  An absent optional field is [None]. *)
Record Transcription : Type := { transcriptionText : option string }.

Record Part : Type := { inlineData : option (option string) }.

Record ServerContent : Type := {
  outputTranscription : option Transcription;
  inputTranscription : option Transcription;
  turnComplete : bool;
  modelTurn : option (option (list Part));   (* [modelTurn?.parts] *)
  interrupted : bool
}.

Record LiveServerMessage : Type := { serverContent : option ServerContent }.

(** What the callback reads from its surroundings when it runs:
    [ctx.currentTime] of the output context and [Date.now()]. *)
Record Clock : Type := { currentTime : Q; dateNow : Z }.

Definition TypeError (msg : string) : JsError :=
  {| name := "TypeError"; message := msg |}.

(** [message.serverContent?.modelTurn?.parts[0]?.inlineData?.data]:
    [None] is [undefined]; reading index 0 of absent [parts] raises. *)
Definition inlineAudio (message : LiveServerMessage)
  : JsError + option string :=
  match serverContent message with
  | None => inr None
  | Some sc =>
      match modelTurn sc with
      | None => inr None
      | Some None =>
          inl (TypeError "Cannot read properties of undefined (reading '0')")
      | Some (Some parts) =>
          match parts with
          | [] => inr None
          | p :: _ =>
              match inlineData p with
              | None => inr None
              | Some d => inr d
              end
          end
      end
  end.

Definition flag (f : ServerContent -> bool) (message : LiveServerMessage) : bool :=
  match serverContent message with
  | Some sc => f sc
  | None => false
  end.

(** ** Audio buffer builder *)

(** Signed value of two little-endian bytes. *)
Definition int16_of_bytes (lo hi : byte) : Z :=
  let u := Z.of_N (Byte.to_N lo) + 256 * Z.of_N (Byte.to_N hi) in
  if 32768 <=? u then u - 65536 else u.

Fixpoint samples16 (bs : list byte) : list Z :=
  match bs with
  | lo :: hi :: rest => int16_of_bytes lo hi :: samples16 rest
  | _ => []
  end.

(** Every [n]-th element, starting at index [k]. *)
Fixpoint stride {A} (n k : nat) (l : list A) : list A :=
  match l with
  | [] => []
  | x :: l' =>
      match k with
      | O => x :: stride n (n - 1) l'
      | S k' => stride n k' l'
      end
  end.

Definition DecodeError : JsError :=
  {| name := "RangeError";
     message := "byte length of Int16Array should be a multiple of 2" |}.

(** Modelled from the spec: [decodeAudioData] of [./utils/audioHelpers],
    which is not among the sources; the spec's Audio Buffer Builder
    [build(bytes, sampleRate, channelCount)].  It reads the bytes as signed
    16-bit little-endian samples, divides each by 32768, lays out
    [channelCount] interleaved channels in a buffer tagged with
    [sampleRate], and fails with [DecodeError] when the byte length is not
    a multiple of [channelCount * 2]. *)
Definition decodeAudioData (bytes : list byte) (rate : positive)
    (numChannels : nat) : JsError + AudioBuffer :=
  if Nat.eqb (List.length bytes mod (numChannels * 2)) 0 then
    let samples := map (fun v => inject_Z v / 32768)%Q (samples16 bytes) in
    inr {| numberOfChannels := numChannels;
           channels := map (fun k => stride numChannels k samples)
                           (seq 0 numChannels);
           frames := List.length samples / numChannels;
           sampleRate := rate |}
  else inl DecodeError.

Definition InvalidCharacterError : JsError :=
  {| name := "InvalidCharacterError";
     message := "The string to be decoded is not correctly encoded." |}.

(** [decodeAudioData(decode(base64Audio), ctx, rate, n)]: the argument is
    evaluated first, so a payload that is not valid transport text raises
    before the builder runs. *)
Definition decodePayload (base64Audio : string) (rate : positive)
    (numChannels : nat) : JsError + AudioBuffer :=
  match Codec.decode base64Audio with
  | None => inl InvalidCharacterError
  | Some bytes => decodeAudioData bytes rate numChannels
  end.

(** The result of an awaited browser promise. *)
Inductive Settled (A : Type) : Type :=
  | Fulfilled (a : A)
  | Rejected (e : JsError).
Arguments Fulfilled {A} a.
Arguments Rejected {A} e.

Definition succeeds {A} (p : Settled A) : bool :=
  match p with
  | Fulfilled _ => true
  | Rejected _ => false
  end.

(** ** Vocabulary for the scheduler's properties *)

(** The message carries an inbound audio chunk that decodes to [buf], and
    no interruption. *)
Definition carries (message : LiveServerMessage) (buf : AudioBuffer) : Prop :=
  exists base64Audio,
    inlineAudio message = inr (Some base64Audio) /\
    truthy base64Audio = true /\
    decodePayload base64Audio 24000 1 = inr buf /\
    flag interrupted message = false.

(** The message carries an inbound audio payload that does not decode:
    text that is not transport text, or a byte length that is not a
    multiple of 2. *)
Definition malformed (message : LiveServerMessage) (e : JsError) : Prop :=
  exists base64Audio,
    inlineAudio message = inr (Some base64Audio) /\
    truthy base64Audio = true /\
    decodePayload base64Audio 24000 1 = inl e.

(** An inbound chunk as the scheduler meets it: the device clock when the
    callback runs, the message, and the buffer it decodes to. *)
Record Arrival : Type := {
  clock : Clock;
  chunk : LiveServerMessage;
  decoded : AudioBuffer
}.

(** Start times [t, t+d1, t+d1+d2, ...] of buffers played back to back
    from [t]. *)
Fixpoint backToBack (t : Q) (ds : list Q) : list Q :=
  match ds with
  | [] => []
  | d :: ds' => t :: backToBack (t + d) ds'
  end.

(** No underrun: when each chunk arrives the device clock has not passed
    the end of the audio scheduled so far, [w]. *)
Fixpoint onTime (w : Q) (arrivals : list Arrival) : Prop :=
  match arrivals with
  | [] => True
  | a :: rest =>
      (currentTime (clock a) <= w)%Q /\ onTime (w + duration (decoded a)) rest
  end.

(** No underrun over a whole run of arrivals whose first one finds the
    watermark at [w]: the first chunk re-anchors the watermark, every
    later one arrives on time. *)
Definition noUnderrun (w : Q) (arrivals : list Arrival) : Prop :=
  match arrivals with
  | [] => True
  | a :: rest =>
      onTime (Qmax w (currentTime (clock a)) + duration (decoded a)) rest
  end.

(** The watermark [w] re-anchored to the device clock at the first
    chunk. *)
Definition anchor (w : Q) (arrivals : list Arrival) : Q :=
  match arrivals with
  | [] => w
  | a :: _ => Qmax w (currentTime (clock a))
  end.

(** No voice starts before the one scheduled before it has ended. *)
Fixpoint noOverlap (vs : list Voice) : Prop :=
  match vs with
  | v :: ((v' :: _) as rest) =>
      (scheduledStart v + duration (buffer v) <= scheduledStart v')%Q /\
      noOverlap rest
  | _ => True
  end.

(** What the code computes: each voice starts at the later of the
    watermark [w] and the device clock, and the watermark moves to its
    end. *)
Fixpoint scheduledFrom (w : Q) (arrivals : list Arrival) (vs : list Voice)
  : Prop :=
  match arrivals, vs with
  | [], [] => True
  | a :: rest, v :: vs' =>
      buffer v = decoded a /\
      scheduledStart v = Qmax w (currentTime (clock a)) /\
      scheduledFrom (scheduledStart v + duration (buffer v)) rest vs'
  | _, _ => False
  end.

(** ** The steps of teardown *)

Inductive StopStep : Type :=
  | FinalizeRecording
  | HaltFrameSampler
  | HaltCaptureEncoder
  | DropChannel
  | StopVoices
  | ReleaseCapture
  | CloseContexts.

Definition stepOf (e : Effect) : option StopStep :=
  match e with
  | RecorderStop _ => Some FinalizeRecording
  | ClearInterval _ => Some HaltFrameSampler
  | DropSession _ => Some DropChannel
  | SourceStop _ => Some StopVoices
  | TrackStop _ => Some ReleaseCapture
  | ContextClose _ => Some CloseContexts
  | _ => None
  end.

Fixpoint steps (t : list Effect) : list StopStep :=
  match t with
  | [] => []
  | e :: t' =>
      match stepOf e with
      | Some s => s :: steps t'
      | None => steps t'
      end
  end.

(** The order the specification gives: timer, capture encoder, channel,
    voices, capture devices, contexts. *)
Definition specRank (s : StopStep) : nat :=
  match s with
  | FinalizeRecording => 0
  | HaltFrameSampler => 0
  | HaltCaptureEncoder => 1
  | DropChannel => 2
  | StopVoices => 3
  | ReleaseCapture => 4
  | CloseContexts => 5
  end.

(** The order of the code: (recorder,) timer, channel, capture devices,
    voices, contexts. *)
Definition codeRank (s : StopStep) : nat :=
  match s with
  | FinalizeRecording => 0
  | HaltFrameSampler => 1
  | HaltCaptureEncoder => 2
  | DropChannel => 2
  | ReleaseCapture => 3
  | StopVoices => 4
  | CloseContexts => 5
  end.

Fixpoint nondecreasing (l : list nat) : bool :=
  match l with
  | a :: ((b :: _) as rest) => Nat.leb a b && nondecreasing rest
  | _ => true
  end.

(** The steps of [t] are in the order [rank], and none ranks below [k]. *)
Definition orderedFrom (rank : StopStep -> nat) (k : nat) (t : list Effect)
  : Prop :=
  nondecreasing (map rank (steps t)) = true /\
  Forall (le k) (map rank (steps t)).

(** The steps of a trace follow one another in the order [rank]. *)
Definition inOrder (rank : StopStep -> nat) (t : list Effect) : bool :=
  nondecreasing (map rank (steps t)).

End Web.

(* ================================================================== *)
(** * 3. The tablet component ([src/App.tsx]) *)
(* ================================================================== *)

Module Tablet.
Import Web.
Local Open Scope string_scope.
Local Open Scope list_scope.
Local Open Scope js_scope.

(** The [useState] cells ([status], [transcriptions], [isScreenSharing],
    [error], here [errorMessage]) and the [useRef] cells of [App].
    [canvasRef] only feeds the frame sampler and is left out. *)
Record Cells : Type := {
  status : ConnectionStatus;
  transcriptions : list TranscriptionEntry;
  isScreenSharing : bool;
  errorMessage : option string;
  audioContextInRef : option Handle;
  audioContextOutRef : option Handle;
  sessionRef : option Handle;
  streamRef : option MediaStream;
  screenStreamRef : option MediaStream;
  frameIntervalRef : option Handle;
  nextStartTimeRef : Q;
  audioSourcesRef : list Voice;
  currentInputTranscriptionRef : string;
  currentOutputTranscriptionRef : string
}.

Definition set_status (v : ConnectionStatus) (c : Cells) : Cells :=
  {| status := v; transcriptions := transcriptions c;
     isScreenSharing := isScreenSharing c; errorMessage := errorMessage c;
     audioContextInRef := audioContextInRef c;
     audioContextOutRef := audioContextOutRef c;
     sessionRef := sessionRef c; streamRef := streamRef c;
     screenStreamRef := screenStreamRef c;
     frameIntervalRef := frameIntervalRef c;
     nextStartTimeRef := nextStartTimeRef c;
     audioSourcesRef := audioSourcesRef c;
     currentInputTranscriptionRef := currentInputTranscriptionRef c;
     currentOutputTranscriptionRef := currentOutputTranscriptionRef c |}.

Definition set_transcriptions (v : list TranscriptionEntry) (c : Cells) : Cells :=
  {| status := status c; transcriptions := v;
     isScreenSharing := isScreenSharing c; errorMessage := errorMessage c;
     audioContextInRef := audioContextInRef c;
     audioContextOutRef := audioContextOutRef c;
     sessionRef := sessionRef c; streamRef := streamRef c;
     screenStreamRef := screenStreamRef c;
     frameIntervalRef := frameIntervalRef c;
     nextStartTimeRef := nextStartTimeRef c;
     audioSourcesRef := audioSourcesRef c;
     currentInputTranscriptionRef := currentInputTranscriptionRef c;
     currentOutputTranscriptionRef := currentOutputTranscriptionRef c |}.

Definition set_isScreenSharing (v : bool) (c : Cells) : Cells :=
  {| status := status c; transcriptions := transcriptions c;
     isScreenSharing := v; errorMessage := errorMessage c;
     audioContextInRef := audioContextInRef c;
     audioContextOutRef := audioContextOutRef c;
     sessionRef := sessionRef c; streamRef := streamRef c;
     screenStreamRef := screenStreamRef c;
     frameIntervalRef := frameIntervalRef c;
     nextStartTimeRef := nextStartTimeRef c;
     audioSourcesRef := audioSourcesRef c;
     currentInputTranscriptionRef := currentInputTranscriptionRef c;
     currentOutputTranscriptionRef := currentOutputTranscriptionRef c |}.

Definition set_errorMessage (v : option string) (c : Cells) : Cells :=
  {| status := status c; transcriptions := transcriptions c;
     isScreenSharing := isScreenSharing c; errorMessage := v;
     audioContextInRef := audioContextInRef c;
     audioContextOutRef := audioContextOutRef c;
     sessionRef := sessionRef c; streamRef := streamRef c;
     screenStreamRef := screenStreamRef c;
     frameIntervalRef := frameIntervalRef c;
     nextStartTimeRef := nextStartTimeRef c;
     audioSourcesRef := audioSourcesRef c;
     currentInputTranscriptionRef := currentInputTranscriptionRef c;
     currentOutputTranscriptionRef := currentOutputTranscriptionRef c |}.

Definition set_audioContextInRef (v : option Handle) (c : Cells) : Cells :=
  {| status := status c; transcriptions := transcriptions c;
     isScreenSharing := isScreenSharing c; errorMessage := errorMessage c;
     audioContextInRef := v; audioContextOutRef := audioContextOutRef c;
     sessionRef := sessionRef c; streamRef := streamRef c;
     screenStreamRef := screenStreamRef c;
     frameIntervalRef := frameIntervalRef c;
     nextStartTimeRef := nextStartTimeRef c;
     audioSourcesRef := audioSourcesRef c;
     currentInputTranscriptionRef := currentInputTranscriptionRef c;
     currentOutputTranscriptionRef := currentOutputTranscriptionRef c |}.

Definition set_audioContextOutRef (v : option Handle) (c : Cells) : Cells :=
  {| status := status c; transcriptions := transcriptions c;
     isScreenSharing := isScreenSharing c; errorMessage := errorMessage c;
     audioContextInRef := audioContextInRef c; audioContextOutRef := v;
     sessionRef := sessionRef c; streamRef := streamRef c;
     screenStreamRef := screenStreamRef c;
     frameIntervalRef := frameIntervalRef c;
     nextStartTimeRef := nextStartTimeRef c;
     audioSourcesRef := audioSourcesRef c;
     currentInputTranscriptionRef := currentInputTranscriptionRef c;
     currentOutputTranscriptionRef := currentOutputTranscriptionRef c |}.

Definition set_sessionRef (v : option Handle) (c : Cells) : Cells :=
  {| status := status c; transcriptions := transcriptions c;
     isScreenSharing := isScreenSharing c; errorMessage := errorMessage c;
     audioContextInRef := audioContextInRef c;
     audioContextOutRef := audioContextOutRef c; sessionRef := v;
     streamRef := streamRef c; screenStreamRef := screenStreamRef c;
     frameIntervalRef := frameIntervalRef c;
     nextStartTimeRef := nextStartTimeRef c;
     audioSourcesRef := audioSourcesRef c;
     currentInputTranscriptionRef := currentInputTranscriptionRef c;
     currentOutputTranscriptionRef := currentOutputTranscriptionRef c |}.

Definition set_streamRef (v : option MediaStream) (c : Cells) : Cells :=
  {| status := status c; transcriptions := transcriptions c;
     isScreenSharing := isScreenSharing c; errorMessage := errorMessage c;
     audioContextInRef := audioContextInRef c;
     audioContextOutRef := audioContextOutRef c;
     sessionRef := sessionRef c; streamRef := v;
     screenStreamRef := screenStreamRef c;
     frameIntervalRef := frameIntervalRef c;
     nextStartTimeRef := nextStartTimeRef c;
     audioSourcesRef := audioSourcesRef c;
     currentInputTranscriptionRef := currentInputTranscriptionRef c;
     currentOutputTranscriptionRef := currentOutputTranscriptionRef c |}.

Definition set_screenStreamRef (v : option MediaStream) (c : Cells) : Cells :=
  {| status := status c; transcriptions := transcriptions c;
     isScreenSharing := isScreenSharing c; errorMessage := errorMessage c;
     audioContextInRef := audioContextInRef c;
     audioContextOutRef := audioContextOutRef c;
     sessionRef := sessionRef c; streamRef := streamRef c;
     screenStreamRef := v; frameIntervalRef := frameIntervalRef c;
     nextStartTimeRef := nextStartTimeRef c;
     audioSourcesRef := audioSourcesRef c;
     currentInputTranscriptionRef := currentInputTranscriptionRef c;
     currentOutputTranscriptionRef := currentOutputTranscriptionRef c |}.

Definition set_frameIntervalRef (v : option Handle) (c : Cells) : Cells :=
  {| status := status c; transcriptions := transcriptions c;
     isScreenSharing := isScreenSharing c; errorMessage := errorMessage c;
     audioContextInRef := audioContextInRef c;
     audioContextOutRef := audioContextOutRef c;
     sessionRef := sessionRef c; streamRef := streamRef c;
     screenStreamRef := screenStreamRef c; frameIntervalRef := v;
     nextStartTimeRef := nextStartTimeRef c;
     audioSourcesRef := audioSourcesRef c;
     currentInputTranscriptionRef := currentInputTranscriptionRef c;
     currentOutputTranscriptionRef := currentOutputTranscriptionRef c |}.

Definition set_nextStartTimeRef (v : Q) (c : Cells) : Cells :=
  {| status := status c; transcriptions := transcriptions c;
     isScreenSharing := isScreenSharing c; errorMessage := errorMessage c;
     audioContextInRef := audioContextInRef c;
     audioContextOutRef := audioContextOutRef c;
     sessionRef := sessionRef c; streamRef := streamRef c;
     screenStreamRef := screenStreamRef c;
     frameIntervalRef := frameIntervalRef c; nextStartTimeRef := v;
     audioSourcesRef := audioSourcesRef c;
     currentInputTranscriptionRef := currentInputTranscriptionRef c;
     currentOutputTranscriptionRef := currentOutputTranscriptionRef c |}.

Definition set_audioSourcesRef (v : list Voice) (c : Cells) : Cells :=
  {| status := status c; transcriptions := transcriptions c;
     isScreenSharing := isScreenSharing c; errorMessage := errorMessage c;
     audioContextInRef := audioContextInRef c;
     audioContextOutRef := audioContextOutRef c;
     sessionRef := sessionRef c; streamRef := streamRef c;
     screenStreamRef := screenStreamRef c;
     frameIntervalRef := frameIntervalRef c;
     nextStartTimeRef := nextStartTimeRef c; audioSourcesRef := v;
     currentInputTranscriptionRef := currentInputTranscriptionRef c;
     currentOutputTranscriptionRef := currentOutputTranscriptionRef c |}.

Definition set_currentInputTranscriptionRef (v : string) (c : Cells) : Cells :=
  {| status := status c; transcriptions := transcriptions c;
     isScreenSharing := isScreenSharing c; errorMessage := errorMessage c;
     audioContextInRef := audioContextInRef c;
     audioContextOutRef := audioContextOutRef c;
     sessionRef := sessionRef c; streamRef := streamRef c;
     screenStreamRef := screenStreamRef c;
     frameIntervalRef := frameIntervalRef c;
     nextStartTimeRef := nextStartTimeRef c;
     audioSourcesRef := audioSourcesRef c;
     currentInputTranscriptionRef := v;
     currentOutputTranscriptionRef := currentOutputTranscriptionRef c |}.

Definition set_currentOutputTranscriptionRef (v : string) (c : Cells) : Cells :=
  {| status := status c; transcriptions := transcriptions c;
     isScreenSharing := isScreenSharing c; errorMessage := errorMessage c;
     audioContextInRef := audioContextInRef c;
     audioContextOutRef := audioContextOutRef c;
     sessionRef := sessionRef c; streamRef := streamRef c;
     screenStreamRef := screenStreamRef c;
     frameIntervalRef := frameIntervalRef c;
     nextStartTimeRef := nextStartTimeRef c;
     audioSourcesRef := audioSourcesRef c;
     currentInputTranscriptionRef := currentInputTranscriptionRef c;
     currentOutputTranscriptionRef := v |}.

Definition State : Type := Machine Cells.

Definition setStatus (v : ConnectionStatus) : Js Cells unit :=
  write (set_status v).
Definition setError (v : option string) : Js Cells unit :=
  write (set_errorMessage v).
Definition setIsScreenSharing (v : bool) : Js Cells unit :=
  write (set_isScreenSharing v).
Definition setTranscriptions
    (f : list TranscriptionEntry -> list TranscriptionEntry) : Js Cells unit :=
  write (fun c => set_transcriptions (f (transcriptions c)) c).

(** The component as mounted: every cell at its initial value, no browser
    object yet. *)
Definition initial : State :=
  {| browser := {| nextHandle := 1%positive; openContexts := [];
                   liveTracks := []; activeTimers := []; recording := [];
                   endedSources := [] |};
     cells := {| status := disconnected; transcriptions := [];
                 isScreenSharing := false; errorMessage := None;
                 audioContextInRef := None; audioContextOutRef := None;
                 sessionRef := None; streamRef := None;
                 screenStreamRef := None; frameIntervalRef := None;
                 nextStartTimeRef := 0; audioSourcesRef := [];
                 currentInputTranscriptionRef := "";
                 currentOutputTranscriptionRef := "" |} |}.

(** ** [stopSession] (lines 44-74) *)

Definition stopSession : Js Cells unit :=
  (h <- read frameIntervalRef ;;
   whenSome h (fun h =>
     clearInterval h ;;
     write (set_frameIntervalRef None))) ;;
  (s <- read sessionRef ;;
   whenSome s (fun s =>
     emit (DropSession s) ;;
     write (set_sessionRef None))) ;;
  (st <- read streamRef ;;
   whenSome st (fun st =>
     forEach st trackStop ;;
     write (set_streamRef None))) ;;
  (st <- read screenStreamRef ;;
   whenSome st (fun st =>
     forEach st trackStop ;;
     write (set_screenStreamRef None))) ;;
  (vs <- read audioSourcesRef ;; stopAll vs) ;;
  write (set_audioSourcesRef []) ;;
  (c <- read audioContextInRef ;; whenSome c contextClose) ;;
  (c <- read audioContextOutRef ;; whenSome c contextClose) ;;
  setStatus disconnected ;;
  setIsScreenSharing false.

(** ** [startSession] (lines 76-256) *)

(** What the surroundings answer while [startSession] runs: whether
    [navigator.mediaDevices.getDisplayMedia] exists, and how each awaited
    promise settles (a stream is given by its number of tracks). *)
Record StartEnv : Type := {
  displayMediaSupported : bool;
  userMedia : Settled nat;
  displayMedia : Settled nat;
  liveSession : Settled unit
}.

Definition await {A} (p : Settled A) : Js Cells A :=
  match p with
  | Fulfilled a => ret a
  | Rejected e => throw e
  end.

Definition startSession (env : StartEnv) : Js Cells unit :=
  tryCatch
    (setStatus connecting ;;
     setError None ;;
     when (negb (displayMediaSupported env))
       (throw (Error
          "Screen sharing is not supported in this browser environment.")) ;;
     cin <- newAudioContext 16000 ;;
     write (set_audioContextInRef (Some cin)) ;;
     cout <- newAudioContext 24000 ;;
     write (set_audioContextOutRef (Some cout)) ;;
     emit GetUserMedia ;;
     n <- await (userMedia env) ;;
     micStream <- newTracks n ;;
     write (set_streamRef (Some micStream)) ;;
     displayStream <-
       tryCatch
         (emit GetDisplayMedia ;;
          k <- await (displayMedia env) ;;
          newTracks k)
         (fun e =>
            if String.eqb (name e) "NotAllowedError" then
              throw (Error
                "Permission denied. Ensure your browser allows screen capture for this site.")
            else
              throw (Error
                (String.append "Screen capture error: " (message e)))) ;;
     write (set_screenStreamRef (Some displayStream)) ;;
     setIsScreenSharing true ;;
     emit LiveConnect ;;
     await (liveSession env) ;;
     session <- fresh ;;
     write (set_sessionRef (Some session)))
    (fun err =>
       emit (ConsoleError (message err)) ;;
       setError (Some (if truthy (message err) then message err
                       else "Failed to start tutor session")) ;;
       setStatus disconnected ;;
       setIsScreenSharing false).

(** ** The channel callbacks *)

(** [onopen] (lines 120-177): the capture encoder is wired to the input
    context and the frame sampler's timer is started. *)
Definition onopen : Js Cells unit :=
  setStatus connected ;;
  c <- read audioContextInRef ;;
  match c with
  | None =>
      throw (TypeError
        "Cannot read properties of null (reading 'createMediaStreamSource')")
  | Some ctx =>
      emit (CreateMediaStreamSource ctx) ;;
      emit (CreateScriptProcessor ctx) ;;
      h <- setInterval ;;
      write (set_frameIntervalRef (Some h))
  end.

(** [scriptProcessor.onaudioprocess] (lines 127-142): the capture
    encoder. *)
Definition onaudioprocess (inputData : list Codec.Float) : Js Cells unit :=
  let int16 := Codec.toPCM16 inputData in
  let pcmBlob := {| data := Codec.encode (Codec.pcm_bytes int16);
                    mimeType := "audio/pcm;rate=16000" |} in
  emit (SendRealtimeInput pcmBlob).

(** Lines 179-199 of [onmessage]: transcript fragments are accumulated and
    flushed into the visible list at [turnComplete]. *)
Definition noteTranscription (now : Clock) (message : LiveServerMessage)
  : Js Cells unit :=
  match serverContent message with
  | None => ret tt
  | Some sc =>
      match outputTranscription sc, inputTranscription sc with
      | Some t, _ =>
          write (fun c => set_currentOutputTranscriptionRef
            (concatText (currentOutputTranscriptionRef c)
                        (transcriptionText t)) c)
      | None, Some t =>
          write (fun c => set_currentInputTranscriptionRef
            (concatText (currentInputTranscriptionRef c)
                        (transcriptionText t)) c)
      | None, None => ret tt
      end ;;
      when (turnComplete sc)
        (uTrans <- read currentInputTranscriptionRef ;;
         mTrans <- read currentOutputTranscriptionRef ;;
         when (truthy uTrans || truthy mTrans)
           (setTranscriptions (fun prev =>
              sliceLast 50
                (prev
                 ++ (if truthy uTrans
                     then [{| role := user; text := uTrans;
                              timestamp := dateNow now |}]
                     else [])
                 ++ (if truthy mTrans
                     then [{| role := model; text := mTrans;
                              timestamp := dateNow now |}]
                     else [])))) ;;
         write (set_currentInputTranscriptionRef "") ;;
         write (set_currentOutputTranscriptionRef ""))
  end.

Definition liftError {A} (r : JsError + A) : Js Cells A :=
  match r with
  | inl e => throw e
  | inr a => ret a
  end.

(** Lines 201-218 of [onmessage]: the playback scheduler.  The source node
    is a new object, so [Set.add] always inserts it, at the end of the
    iteration order. *)
Definition playInboundAudio (now : Clock) (message : LiveServerMessage)
  : Js Cells unit :=
  base64Audio <- liftError (inlineAudio message) ;;
  out <- read audioContextOutRef ;;
  match base64Audio, out with
  | Some base64Audio, Some ctx =>
      when (truthy base64Audio)
        (next <- read nextStartTimeRef ;;
         write (set_nextStartTimeRef (Qmax next (currentTime now))) ;;
         audioBuffer <- liftError (decodePayload base64Audio 24000 1) ;;
         source <- fresh ;;
         emit (CreateBufferSource ctx source) ;;
         emit (ConnectDestination source ctx) ;;
         next <- read nextStartTimeRef ;;
         emit (SourceStart source next) ;;
         write (set_nextStartTimeRef (next + duration audioBuffer)%Q) ;;
         write (fun c => set_audioSourcesRef
           (audioSourcesRef c
            ++ [{| source := source; buffer := audioBuffer;
                   scheduledStart := next |}]) c))
  | _, _ => ret tt
  end.

(** Lines 220-226 of [onmessage]: the interrupt handler. *)
Definition onInterrupt : Js Cells unit :=
  (vs <- read audioSourcesRef ;; stopAll vs) ;;
  write (set_audioSourcesRef []) ;;
  write (set_nextStartTimeRef 0).

(** [onmessage] (lines 178-227) *)
Definition onmessage (now : Clock) (message : LiveServerMessage)
  : Js Cells unit :=
  noteTranscription now message ;;
  playInboundAudio now message ;;
  when (flag interrupted message) onInterrupt.

(** The listener registered at line 211: the node has played to its end
    (or was stopped) and leaves the in-flight set. *)
Definition onended (n : Handle) : Js Cells unit :=
  update (fun b => {| nextHandle := nextHandle b;
                      openContexts := openContexts b;
                      liveTracks := liveTracks b;
                      activeTimers := activeTimers b;
                      recording := recording b;
                      endedSources :=
                        if member n (endedSources b) then endedSources b
                        else endedSources b ++ [n] |}) ;;
  write (fun c => set_audioSourcesRef
    (filter (fun v => negb (Pos.eqb (source v) n)) (audioSourcesRef c)) c).

(** [onerror] and [onclose] (lines 228-235) *)
Definition onerror (e : JsError) : Js Cells unit :=
  emit (ConsoleError "Gemini Live Error:") ;;
  setError (Some "The connection was lost. Re-enabling sharing might help.") ;;
  stopSession.

Definition onclose : Js Cells unit := stopSession.

(** Browser objects that are still held open. *)
Definition unreleased (m : State) : list Handle :=
  openContexts (browser m) ++ liveTracks (browser m).

(** ** Closed form of [noteTranscription] *)

Definition fragments (sc : ServerContent) (c : Cells) : Cells :=
  match outputTranscription sc, inputTranscription sc with
  | Some t, _ =>
      set_currentOutputTranscriptionRef
        (concatText (currentOutputTranscriptionRef c) (transcriptionText t)) c
  | None, Some t =>
      set_currentInputTranscriptionRef
        (concatText (currentInputTranscriptionRef c) (transcriptionText t)) c
  | None, None => c
  end.

(** The entries a flush appends: the user fragment, then the model
    fragment, each only if not empty. *)
Definition flushedEntries (now : Clock) (uTrans mTrans : string)
  : list TranscriptionEntry :=
  (if truthy uTrans
   then [{| role := user; text := uTrans; timestamp := dateNow now |}]
   else [])
  ++ (if truthy mTrans
      then [{| role := model; text := mTrans; timestamp := dateNow now |}]
      else []).

Definition flush (now : Clock) (c : Cells) : Cells :=
  let uTrans := currentInputTranscriptionRef c in
  let mTrans := currentOutputTranscriptionRef c in
  set_currentOutputTranscriptionRef ""
    (set_currentInputTranscriptionRef ""
       (if truthy uTrans || truthy mTrans
        then set_transcriptions
               (sliceLast 50 (transcriptions c ++ flushedEntries now uTrans mTrans))
               c
        else c)).

Definition noted (now : Clock) (message : LiveServerMessage) (c : Cells)
  : Cells :=
  match serverContent message with
  | None => c
  | Some sc =>
      if turnComplete sc then flush now (fragments sc c) else fragments sc c
  end.

(** ** Everything that can happen to the component *)

Inductive Event : Type :=
  | Start (env : StartEnv)
  | Stop
  | Open
  | Message (now : Clock) (message : LiveServerMessage)
  | Failure (e : JsError)
  | Close
  | AudioProcess (inputData : list Codec.Float)
  | Ended (n : Handle).

Definition handle (ev : Event) : Js Cells unit :=
  match ev with
  | Start env => startSession env
  | Stop => stopSession
  | Open => onopen
  | Message now message => onmessage now message
  | Failure e => onerror e
  | Close => onclose
  | AudioProcess inputData => onaudioprocess inputData
  | Ended n => onended n
  end.

Definition step (m : State) (ev : Event) : State := final (handle ev m).

Definition run (evs : list Event) (m : State) : State := fold_left step evs m.

Definition arrive (a : Arrival) : Event := Message (clock a) (chunk a).

(** Every acquisition of [startSession] succeeds. *)
Definition acquires (env : StartEnv) : bool :=
  displayMediaSupported env && succeeds (userMedia env)
  && succeeds (displayMedia env) && succeeds (liveSession env).

End Tablet.

(* ================================================================== *)
(** * 4. The phone component ([src/unnamed/part_000]) *)
(* ================================================================== *)

Module Phone.
Import Web.
Local Open Scope string_scope.
Local Open Scope list_scope.
Local Open Scope js_scope.

(** A [GainNode] and the audio context it was created in. *)
Record GainNode : Type := { gain : Handle; owner : Handle }.

(** The [useState] cells ([status], [error], here [errorMessage],
    [showHistory], [isFullRecordingSupported]) and the [useRef] cells of
    [App].  [history] and [chunksRef] are written only by the recorder's
    own callbacks, [canvasRef] and [videoRef] only feed the frame sampler;
    they are left out. *)
Record Cells : Type := {
  status : ConnectionStatus;
  errorMessage : option string;
  showHistory : bool;
  isFullRecordingSupported : bool;
  audioContextRef : option Handle;
  sessionRef : option Handle;
  mediaStreamRef : option MediaStream;
  frameIntervalRef : option Handle;
  nextStartTimeRef : Q;
  audioSourcesRef : list Voice;
  mediaRecorderRef : option Handle;
  recordingMixerRef : option GainNode
}.

Definition set_status (v : ConnectionStatus) (c : Cells) : Cells :=
  {| status := v; errorMessage := errorMessage c;
     showHistory := showHistory c;
     isFullRecordingSupported := isFullRecordingSupported c;
     audioContextRef := audioContextRef c; sessionRef := sessionRef c;
     mediaStreamRef := mediaStreamRef c;
     frameIntervalRef := frameIntervalRef c;
     nextStartTimeRef := nextStartTimeRef c;
     audioSourcesRef := audioSourcesRef c;
     mediaRecorderRef := mediaRecorderRef c;
     recordingMixerRef := recordingMixerRef c |}.

Definition set_errorMessage (v : option string) (c : Cells) : Cells :=
  {| status := status c; errorMessage := v; showHistory := showHistory c;
     isFullRecordingSupported := isFullRecordingSupported c;
     audioContextRef := audioContextRef c; sessionRef := sessionRef c;
     mediaStreamRef := mediaStreamRef c;
     frameIntervalRef := frameIntervalRef c;
     nextStartTimeRef := nextStartTimeRef c;
     audioSourcesRef := audioSourcesRef c;
     mediaRecorderRef := mediaRecorderRef c;
     recordingMixerRef := recordingMixerRef c |}.

Definition set_showHistory (v : bool) (c : Cells) : Cells :=
  {| status := status c; errorMessage := errorMessage c; showHistory := v;
     isFullRecordingSupported := isFullRecordingSupported c;
     audioContextRef := audioContextRef c; sessionRef := sessionRef c;
     mediaStreamRef := mediaStreamRef c;
     frameIntervalRef := frameIntervalRef c;
     nextStartTimeRef := nextStartTimeRef c;
     audioSourcesRef := audioSourcesRef c;
     mediaRecorderRef := mediaRecorderRef c;
     recordingMixerRef := recordingMixerRef c |}.

Definition set_isFullRecordingSupported (v : bool) (c : Cells) : Cells :=
  {| status := status c; errorMessage := errorMessage c;
     showHistory := showHistory c; isFullRecordingSupported := v;
     audioContextRef := audioContextRef c; sessionRef := sessionRef c;
     mediaStreamRef := mediaStreamRef c;
     frameIntervalRef := frameIntervalRef c;
     nextStartTimeRef := nextStartTimeRef c;
     audioSourcesRef := audioSourcesRef c;
     mediaRecorderRef := mediaRecorderRef c;
     recordingMixerRef := recordingMixerRef c |}.

Definition set_audioContextRef (v : option Handle) (c : Cells) : Cells :=
  {| status := status c; errorMessage := errorMessage c;
     showHistory := showHistory c;
     isFullRecordingSupported := isFullRecordingSupported c;
     audioContextRef := v; sessionRef := sessionRef c;
     mediaStreamRef := mediaStreamRef c;
     frameIntervalRef := frameIntervalRef c;
     nextStartTimeRef := nextStartTimeRef c;
     audioSourcesRef := audioSourcesRef c;
     mediaRecorderRef := mediaRecorderRef c;
     recordingMixerRef := recordingMixerRef c |}.

Definition set_sessionRef (v : option Handle) (c : Cells) : Cells :=
  {| status := status c; errorMessage := errorMessage c;
     showHistory := showHistory c;
     isFullRecordingSupported := isFullRecordingSupported c;
     audioContextRef := audioContextRef c; sessionRef := v;
     mediaStreamRef := mediaStreamRef c;
     frameIntervalRef := frameIntervalRef c;
     nextStartTimeRef := nextStartTimeRef c;
     audioSourcesRef := audioSourcesRef c;
     mediaRecorderRef := mediaRecorderRef c;
     recordingMixerRef := recordingMixerRef c |}.

Definition set_mediaStreamRef (v : option MediaStream) (c : Cells) : Cells :=
  {| status := status c; errorMessage := errorMessage c;
     showHistory := showHistory c;
     isFullRecordingSupported := isFullRecordingSupported c;
     audioContextRef := audioContextRef c; sessionRef := sessionRef c;
     mediaStreamRef := v; frameIntervalRef := frameIntervalRef c;
     nextStartTimeRef := nextStartTimeRef c;
     audioSourcesRef := audioSourcesRef c;
     mediaRecorderRef := mediaRecorderRef c;
     recordingMixerRef := recordingMixerRef c |}.

Definition set_frameIntervalRef (v : option Handle) (c : Cells) : Cells :=
  {| status := status c; errorMessage := errorMessage c;
     showHistory := showHistory c;
     isFullRecordingSupported := isFullRecordingSupported c;
     audioContextRef := audioContextRef c; sessionRef := sessionRef c;
     mediaStreamRef := mediaStreamRef c; frameIntervalRef := v;
     nextStartTimeRef := nextStartTimeRef c;
     audioSourcesRef := audioSourcesRef c;
     mediaRecorderRef := mediaRecorderRef c;
     recordingMixerRef := recordingMixerRef c |}.

Definition set_nextStartTimeRef (v : Q) (c : Cells) : Cells :=
  {| status := status c; errorMessage := errorMessage c;
     showHistory := showHistory c;
     isFullRecordingSupported := isFullRecordingSupported c;
     audioContextRef := audioContextRef c; sessionRef := sessionRef c;
     mediaStreamRef := mediaStreamRef c;
     frameIntervalRef := frameIntervalRef c; nextStartTimeRef := v;
     audioSourcesRef := audioSourcesRef c;
     mediaRecorderRef := mediaRecorderRef c;
     recordingMixerRef := recordingMixerRef c |}.

Definition set_audioSourcesRef (v : list Voice) (c : Cells) : Cells :=
  {| status := status c; errorMessage := errorMessage c;
     showHistory := showHistory c;
     isFullRecordingSupported := isFullRecordingSupported c;
     audioContextRef := audioContextRef c; sessionRef := sessionRef c;
     mediaStreamRef := mediaStreamRef c;
     frameIntervalRef := frameIntervalRef c;
     nextStartTimeRef := nextStartTimeRef c; audioSourcesRef := v;
     mediaRecorderRef := mediaRecorderRef c;
     recordingMixerRef := recordingMixerRef c |}.

Definition set_mediaRecorderRef (v : option Handle) (c : Cells) : Cells :=
  {| status := status c; errorMessage := errorMessage c;
     showHistory := showHistory c;
     isFullRecordingSupported := isFullRecordingSupported c;
     audioContextRef := audioContextRef c; sessionRef := sessionRef c;
     mediaStreamRef := mediaStreamRef c;
     frameIntervalRef := frameIntervalRef c;
     nextStartTimeRef := nextStartTimeRef c;
     audioSourcesRef := audioSourcesRef c; mediaRecorderRef := v;
     recordingMixerRef := recordingMixerRef c |}.

Definition set_recordingMixerRef (v : option GainNode) (c : Cells) : Cells :=
  {| status := status c; errorMessage := errorMessage c;
     showHistory := showHistory c;
     isFullRecordingSupported := isFullRecordingSupported c;
     audioContextRef := audioContextRef c; sessionRef := sessionRef c;
     mediaStreamRef := mediaStreamRef c;
     frameIntervalRef := frameIntervalRef c;
     nextStartTimeRef := nextStartTimeRef c;
     audioSourcesRef := audioSourcesRef c;
     mediaRecorderRef := mediaRecorderRef c; recordingMixerRef := v |}.

Definition State : Type := Machine Cells.

Definition setStatus (v : ConnectionStatus) : Js Cells unit :=
  write (set_status v).
Definition setError (v : option string) : Js Cells unit :=
  write (set_errorMessage v).
Definition setShowHistory (v : bool) : Js Cells unit :=
  write (set_showHistory v).
Definition setIsFullRecordingSupported (v : bool) : Js Cells unit :=
  write (set_isFullRecordingSupported v).

Definition initial : State :=
  {| browser := {| nextHandle := 1%positive; openContexts := [];
                   liveTracks := []; activeTimers := []; recording := [];
                   endedSources := [] |};
     cells := {| status := disconnected; errorMessage := None;
                 showHistory := false; isFullRecordingSupported := true;
                 audioContextRef := None; sessionRef := None;
                 mediaStreamRef := None; frameIntervalRef := None;
                 nextStartTimeRef := 0; audioSourcesRef := [];
                 mediaRecorderRef := None; recordingMixerRef := None |} |}.

(** ** [stopSession] (lines 50-80) *)

Definition stopSession : Js Cells unit :=
  (r <- read mediaRecorderRef ;;
   whenSome r (fun r =>
     active <- inspect recording ;;
     when (member r active) (recorderStop r))) ;;
  (h <- read frameIntervalRef ;;
   whenSome h (fun h =>
     clearInterval h ;;
     write (set_frameIntervalRef None))) ;;
  (s <- read sessionRef ;;
   whenSome s (fun s =>
     emit (DropSession s) ;;
     write (set_sessionRef None))) ;;
  (st <- read mediaStreamRef ;;
   whenSome st (fun st =>
     forEach st trackStop ;;
     write (set_mediaStreamRef None))) ;;
  (vs <- read audioSourcesRef ;; stopAll vs) ;;
  write (set_audioSourcesRef []) ;;
  (c <- read audioContextRef ;;
   whenSome c (fun c =>
     contextClose c ;;
     write (set_audioContextRef None))) ;;
  setStatus disconnected.

(** ** [startSession] (lines 82-272) *)

(** How the recording graph of step 3 comes out: built; or raising before
    the mixer exists (no destination node); or raising after the mixer was
    stored (no combined stream). *)
Inductive Mixing : Type :=
  | Mixed
  | NoDestination (e : JsError)
  | NoCombinedStream (e : JsError).

Record StartEnv : Type := {
  contextSuspended : bool;
  contextResume : Settled unit;
  userMedia : Settled nat;
  mixing : Mixing;
  mediaRecorder : Settled unit;
  liveSession : Settled unit
}.

Definition await {A} (p : Settled A) : Js Cells A :=
  match p with
  | Fulfilled a => ret a
  | Rejected e => throw e
  end.

Definition startSession (env : StartEnv) : Js Cells unit :=
  tryCatch
    (setStatus connecting ;;
     setError None ;;
     setShowHistory false ;;
     ctx <- newAudioContext 44100 ;;
     when (contextSuspended env)
       (emit (ContextResume ctx) ;; await (contextResume env)) ;;
     write (set_audioContextRef (Some ctx)) ;;
     emit GetUserMedia ;;
     n <- await (userMedia env) ;;
     stream <- newTracks n ;;
     write (set_mediaStreamRef (Some stream)) ;;
     tryCatch
       (match mixing env with
        | NoDestination e => throw e
        | Mixed | NoCombinedStream _ =>
            g <- fresh ;;
            emit (CreateGain ctx) ;;
            write (set_recordingMixerRef (Some {| gain := g; owner := ctx |})) ;;
            emit (CreateMediaStreamSource ctx) ;;
            match mixing env with
            | NoCombinedStream e => throw e
            | _ => setIsFullRecordingSupported true
            end
        end)
       (fun e =>
          emit (ConsoleError "Advanced audio mixing failed, using basic capture:") ;;
          setIsFullRecordingSupported false) ;;
     await (mediaRecorder env) ;;
     recorder <- fresh ;;
     emit (NewMediaRecorder recorder) ;;
     write (set_mediaRecorderRef (Some recorder)) ;;
     recorderStart recorder ;;
     emit LiveConnect ;;
     await (liveSession env) ;;
     session <- fresh ;;
     write (set_sessionRef (Some session)))
    (fun err =>
       emit (ConsoleError (message err)) ;;
       setError (Some (if truthy (message err) then message err
                       else "Access error")) ;;
       setStatus disconnected).

(** ** The channel callbacks *)

(** [onopen] (lines 172-218); [ctx] is the context captured by the
    closure. *)
Definition onopen (ctx : Handle) : Js Cells unit :=
  setStatus connected ;;
  emit (CreateMediaStreamSource ctx) ;;
  emit (CreateScriptProcessor ctx) ;;
  emit (CreateGain ctx) ;;
  h <- setInterval ;;
  write (set_frameIntervalRef (Some h)).

(** [scriptProcessor.onaudioprocess] (lines 185-197) *)
Definition onaudioprocess (inputData : list Codec.Float) : Js Cells unit :=
  let int16 := Codec.toPCM16 inputData in
  let pcmBlob := {| data := Codec.encode (Codec.pcm_bytes int16);
                    mimeType := "audio/pcm;rate=44100" |} in
  emit (SendRealtimeInput pcmBlob).

Definition liftError {A} (r : JsError + A) : Js Cells A :=
  match r with
  | inl e => throw e
  | inr a => ret a
  end.

Definition InvalidAccessError : JsError :=
  {| name := "InvalidAccessError";
     message := "cannot connect to an AudioNode belonging to a different audio context" |}.

(** Lines 220-242 of [onmessage]: the playback scheduler.  The source node
    is a new object, so [Set.add] always inserts it, at the end of the
    iteration order.  Connecting to a node of another context raises. *)
Definition playInboundAudio (now : Clock) (message : LiveServerMessage)
  : Js Cells unit :=
  base64Audio <- liftError (inlineAudio message) ;;
  out <- read audioContextRef ;;
  match base64Audio, out with
  | Some base64Audio, Some c =>
      when (truthy base64Audio)
        (next <- read nextStartTimeRef ;;
         write (set_nextStartTimeRef (Qmax next (currentTime now))) ;;
         audioBuffer <- liftError (decodePayload base64Audio 24000 1) ;;
         source <- fresh ;;
         emit (CreateBufferSource c source) ;;
         emit (ConnectDestination source c) ;;
         (mixer <- read recordingMixerRef ;;
          whenSome mixer (fun g =>
            emit (ConnectMixer source (gain g)) ;;
            when (negb (Pos.eqb (owner g) c)) (throw InvalidAccessError))) ;;
         next <- read nextStartTimeRef ;;
         emit (SourceStart source next) ;;
         write (set_nextStartTimeRef (next + duration audioBuffer)%Q) ;;
         write (fun c => set_audioSourcesRef
           (audioSourcesRef c
            ++ [{| source := source; buffer := audioBuffer;
                   scheduledStart := next |}]) c))
  | _, _ => ret tt
  end.

(** Lines 244-248 of [onmessage]: the interrupt handler. *)
Definition onInterrupt : Js Cells unit :=
  (vs <- read audioSourcesRef ;; stopAll vs) ;;
  write (set_audioSourcesRef []) ;;
  write (set_nextStartTimeRef 0).

(** [onmessage] (lines 219-249) *)
Definition onmessage (now : Clock) (message : LiveServerMessage)
  : Js Cells unit :=
  playInboundAudio now message ;;
  when (flag interrupted message) onInterrupt.

(** The listener registered at line 238. *)
Definition onended (n : Handle) : Js Cells unit :=
  update (fun b => {| nextHandle := nextHandle b;
                      openContexts := openContexts b;
                      liveTracks := liveTracks b;
                      activeTimers := activeTimers b;
                      recording := recording b;
                      endedSources :=
                        if member n (endedSources b) then endedSources b
                        else endedSources b ++ [n] |}) ;;
  write (fun c => set_audioSourcesRef
    (filter (fun v => negb (Pos.eqb (source v) n)) (audioSourcesRef c)) c).

(** [onerror] and [onclose] (lines 250-255) *)
Definition onerror (e : JsError) : Js Cells unit :=
  emit (ConsoleError "Session error:") ;;
  setError (Some "Connection lost.") ;;
  stopSession.

Definition onclose : Js Cells unit := stopSession.

(** Browser objects that are still held open. *)
Definition unreleased (m : State) : list Handle :=
  openContexts (browser m) ++ liveTracks (browser m) ++ recording (browser m).

(** ** Everything that can happen to the component *)

Inductive Event : Type :=
  | Start (env : StartEnv)
  | Stop
  | Open (ctx : Handle)
  | Message (now : Clock) (message : LiveServerMessage)
  | Failure (e : JsError)
  | Close
  | AudioProcess (inputData : list Codec.Float)
  | Ended (n : Handle).

Definition handle (ev : Event) : Js Cells unit :=
  match ev with
  | Start env => startSession env
  | Stop => stopSession
  | Open ctx => onopen ctx
  | Message now message => onmessage now message
  | Failure e => onerror e
  | Close => onclose
  | AudioProcess inputData => onaudioprocess inputData
  | Ended n => onended n
  end.

Definition step (m : State) (ev : Event) : State := final (handle ev m).

Definition run (evs : list Event) (m : State) : State := fold_left step evs m.

Definition arrive (a : Arrival) : Event := Message (clock a) (chunk a).

(** Every acquisition of [startSession] succeeds.  A recording graph that
    cannot be built is not a failure: the component falls back to basic
    capture. *)
Definition acquires (env : StartEnv) : bool :=
  (negb (contextSuspended env) || succeeds (contextResume env))
  && succeeds (userMedia env) && succeeds (mediaRecorder env)
  && succeeds (liveSession env).

(** The recording mixer, if there is one, lives in the current context. *)
Definition mixerFits (c : Cells) : bool :=
  match recordingMixerRef c, audioContextRef c with
  | Some g, Some ctx => Pos.eqb (owner g) ctx
  | _, _ => true
  end.

End Phone.

(* ================================================================== *)
(** * 5. Scenarios *)
(* ================================================================== *)

(** Concrete surroundings and sessions, used to run the components. *)
Module Scenario.
Import Web.
Local Open Scope string_scope.
Local Open Scope list_scope.

(** Every request is granted: a microphone stream and a screen stream of
    one track each. *)
Definition granted : Tablet.StartEnv :=
  {| Tablet.displayMediaSupported := true;
     Tablet.userMedia := Fulfilled 1%nat;
     Tablet.displayMedia := Fulfilled 1%nat;
     Tablet.liveSession := Fulfilled tt |}.

Definition NotAllowedError : JsError :=
  {| name := "NotAllowedError"; message := "Permission denied" |}.

(** The microphone is granted, the screen capture is refused. *)
Definition screenDenied : Tablet.StartEnv :=
  {| Tablet.displayMediaSupported := true;
     Tablet.userMedia := Fulfilled 1%nat;
     Tablet.displayMedia := Rejected NotAllowedError;
     Tablet.liveSession := Fulfilled tt |}.

(** A tablet session that has been opened. *)
Definition tabletLive : Tablet.State :=
  Tablet.run [Tablet.Start granted; Tablet.Open] Tablet.initial.

(** A tablet session whose start failed at the screen capture. *)
Definition tabletFailed : Tablet.State :=
  Tablet.run [Tablet.Start screenDenied] Tablet.initial.

(** Camera and microphone granted (two tracks), recording graph built. *)
Definition camera : Phone.StartEnv :=
  {| Phone.contextSuspended := false;
     Phone.contextResume := Fulfilled tt;
     Phone.userMedia := Fulfilled 2%nat;
     Phone.mixing := Phone.Mixed;
     Phone.mediaRecorder := Fulfilled tt;
     Phone.liveSession := Fulfilled tt |}.

(** The camera is refused. *)
Definition cameraDenied : Phone.StartEnv :=
  {| Phone.contextSuspended := false;
     Phone.contextResume := Fulfilled tt;
     Phone.userMedia := Rejected NotAllowedError;
     Phone.mixing := Phone.Mixed;
     Phone.mediaRecorder := Fulfilled tt;
     Phone.liveSession := Fulfilled tt |}.

(** A phone session that has been opened (its context is object 1). *)
Definition phoneLive : Phone.State :=
  Phone.run [Phone.Start camera; Phone.Open 1%positive] Phone.initial.

(** A message that carries only an inbound audio payload. *)
Definition audioMessage (base64Audio : string) : LiveServerMessage :=
  {| serverContent :=
       Some {| outputTranscription := None;
               inputTranscription := None;
               turnComplete := false;
               modelTurn :=
                 Some (Some [{| inlineData := Some (Some base64Audio) |}]);
               interrupted := false |} |}.

Definition at_ (t : Q) : Clock := {| currentTime := t; dateNow := 0 |}.

(** One frame of silence: the two bytes 00 00. *)
Definition silence : string := "AAA=".

Definition silentBuffer : AudioBuffer :=
  {| numberOfChannels := 1; channels := [[0 / 32768]%Q]; frames := 1;
     sampleRate := 24000 |}.

(** A payload of a single byte. *)
Definition oddPayload : string := "AA==".

(** Three chunks that arrive at once. *)
Definition burst : list Arrival :=
  [ {| clock := at_ 0; chunk := audioMessage silence; decoded := silentBuffer |};
    {| clock := at_ 0; chunk := audioMessage silence; decoded := silentBuffer |};
    {| clock := at_ 0; chunk := audioMessage silence; decoded := silentBuffer |} ].

(** Two chunks, the second one a second late. *)
Definition late : list Arrival :=
  [ {| clock := at_ 0; chunk := audioMessage silence; decoded := silentBuffer |};
    {| clock := at_ 1; chunk := audioMessage silence; decoded := silentBuffer |} ].

(** A transcript fragment of the user that ends the turn. *)
Definition userTurn (t : string) : LiveServerMessage :=
  {| serverContent :=
       Some {| outputTranscription := None;
               inputTranscription := Some {| transcriptionText := Some t |};
               turnComplete := true;
               modelTurn := None;
               interrupted := false |} |}.

End Scenario.

(* ================================================================== *)
(** * 6. The session engine at large *)
(* ================================================================== *)

(** ** The life of a session *)

Module Lifetime.
Import Web.

(** Callbacks that deliver media or its end: they are the events of a live
    session between its opening and its teardown. *)
Definition tabletQuiet (ev : Tablet.Event) : bool :=
  match ev with
  | Tablet.Message _ _ | Tablet.AudioProcess _ | Tablet.Ended _ => true
  | _ => false
  end.

(** The events that end a session: the user's stop, a transport error,
    the channel closing. *)
Definition tabletEnds (ev : Tablet.Event) : bool :=
  match ev with
  | Tablet.Stop | Tablet.Failure _ | Tablet.Close => true
  | _ => false
  end.

(** The two states hold the same capture devices, contexts and timer, and
    the same references to them. *)
Definition tabletSameResources (m m' : Tablet.State) : Prop :=
  openContexts (browser m') = openContexts (browser m) /\
  liveTracks (browser m') = liveTracks (browser m) /\
  activeTimers (browser m') = activeTimers (browser m) /\
  Tablet.audioContextInRef (cells m') = Tablet.audioContextInRef (cells m) /\
  Tablet.audioContextOutRef (cells m') = Tablet.audioContextOutRef (cells m) /\
  Tablet.streamRef (cells m') = Tablet.streamRef (cells m) /\
  Tablet.screenStreamRef (cells m') = Tablet.screenStreamRef (cells m) /\
  Tablet.frameIntervalRef (cells m') = Tablet.frameIntervalRef (cells m) /\
  Tablet.sessionRef (cells m') = Tablet.sessionRef (cells m) /\
  Tablet.status (cells m') = Tablet.status (cells m).
End Lifetime.

(** ** The phone component's button *)

Module PhoneControls.
Import Web.
Local Open Scope js_scope.

(** [handleToggle] ([src/unnamed/part_000], lines 274-280): the one button
    of the phone component.  [env] is what the surroundings will answer if
    the press starts a session. *)
Definition handleToggle (env : Phone.StartEnv) : Js Phone.Cells unit :=
  status <- read Phone.status ;;
  match status with
  | disconnected | error => Phone.startSession env
  | connecting | connected => Phone.stopSession
  end.

(** The callbacks of a live session between its opening and its teardown. *)
Definition phoneQuiet (ev : Phone.Event) : bool :=
  match ev with
  | Phone.Message _ _ | Phone.AudioProcess _ | Phone.Ended _ => true
  | _ => false
  end.

(** The two states hold the same camera and microphone tracks, context,
    timer and recorder, and the same references to them. *)
Definition phoneSameResources (m m' : Phone.State) : Prop :=
  openContexts (browser m') = openContexts (browser m) /\
  liveTracks (browser m') = liveTracks (browser m) /\
  activeTimers (browser m') = activeTimers (browser m) /\
  recording (browser m') = recording (browser m) /\
  Phone.audioContextRef (cells m') = Phone.audioContextRef (cells m) /\
  Phone.mediaStreamRef (cells m') = Phone.mediaStreamRef (cells m) /\
  Phone.frameIntervalRef (cells m') = Phone.frameIntervalRef (cells m) /\
  Phone.sessionRef (cells m') = Phone.sessionRef (cells m) /\
  Phone.mediaRecorderRef (cells m') = Phone.mediaRecorderRef (cells m) /\
  Phone.status (cells m') = Phone.status (cells m).

(** Whether the recording graph was built. *)
Definition mixed (x : Phone.Mixing) : bool :=
  match x with
  | Phone.Mixed => true
  | _ => false
  end.

End PhoneControls.

(** ** Playback *)

Module Playback.
Import Web.

(** The message carries an inbound audio chunk that decodes to [buf];
    whether it also carries the [interrupted] flag is left open. *)
Definition bears (message : LiveServerMessage) (buf : AudioBuffer) : Prop :=
  exists base64Audio,
    inlineAudio message = inr (Some base64Audio) /\
    truthy base64Audio = true /\
    decodePayload base64Audio 24000 1 = inr buf.

(** The voices whose source node is not among [hs]. *)
Definition stillPlaying (hs : list Handle) (vs : list Voice) : list Voice :=
  filter (fun v => negb (member (source v) hs)) vs.

End Playback.

(** ** Transcript turns ([src/App.tsx], lines 179-199) *)

Module Transcript.
Import Web.
Local Open Scope string_scope.
Local Open Scope list_scope.

(** A message that carries one transcript fragment and nothing else:
    [outputTranscription] for the model, [inputTranscription] for the
    user. *)
Definition fragmentMessage (r : Role) (t : string) : LiveServerMessage :=
  {| serverContent :=
       Some {| outputTranscription :=
                 match r with
                 | model => Some {| transcriptionText := Some t |}
                 | user => None
                 end;
               inputTranscription :=
                 match r with
                 | user => Some {| transcriptionText := Some t |}
                 | model => None
                 end;
               turnComplete := false;
               modelTurn := None;
               interrupted := false |} |}.

(** A message that only ends the turn. *)
Definition turnEnd : LiveServerMessage :=
  {| serverContent :=
       Some {| outputTranscription := None;
               inputTranscription := None;
               turnComplete := true;
               modelTurn := None;
               interrupted := false |} |}.

(** A fragment as the channel delivers it. *)
Record Fragment : Type := {
  heardAt : Clock;
  speaker : Role;
  words : string
}.

(** Its delivery to the tablet component. *)
Definition deliver (f : Fragment) : Tablet.Event :=
  Tablet.Message (heardAt f) (fragmentMessage (speaker f) (words f)).

Definition sameRole (r r' : Role) : bool :=
  match r, r' with
  | user, user | model, model => true
  | _, _ => false
  end.

(** The fragments of one speaker, joined in arrival order. *)
Fixpoint said (r : Role) (fs : list Fragment) : string :=
  match fs with
  | [] => EmptyString
  | f :: fs' =>
      if sameRole r (speaker f) then String.append (words f) (said r fs')
      else said r fs'
  end.

End Transcript.

(** ** The frame sampler *)

Module FrameSampler.
Import Web.
Local Open Scope string_scope.
Local Open Scope list_scope.

(** [s.split(sep)] for a one-character separator: the pieces between the
    separators, at least one. *)
Fixpoint split (sep : ascii) (s : string) : list string :=
  match s with
  | EmptyString => [EmptyString]
  | String c s' =>
      if Ascii.eqb c sep then EmptyString :: split sep s'
      else
        match split sep s' with
        | piece :: pieces => String c piece :: pieces
        | [] => [String c EmptyString]
        end
  end.

(** What a tick of the frame timer finds: whether the canvas gives a 2d
    context, the state of the video element, and the data URL that the
    reader produces for the blob of [canvas.toBlob] ([None] when the
    canvas gives no blob). *)
Record Tick : Type := {
  context2d : bool;
  video : bool;              (* [videoRef.current] is set (phone) *)
  videoWidth : N;
  readyState : N;
  dataURL : option string
}.

(** The argument of [sendRealtimeInput] for an image; [data] is
    [undefined] when the data URL has no comma. *)
Record ImageChunk : Type := {
  imageData : option string;
  imageType : string
}.

Definition comma : ascii := ","%char.

(** [(reader.result as string).split(',')[1]] and the chunk built from
    it. *)
Definition imageChunk (result : string) : ImageChunk :=
  {| imageData := nth_error (split comma result) 1;
     imageType := "image/jpeg" |}.

(** The timer callback of the tablet component ([src/App.tsx], lines
    152-176): the chunk it sends, if any.  Drawing on the canvas is not
    modelled. *)
Definition tabletTick (t : Tick) : option ImageChunk :=
  if negb (context2d t) || N.eqb (videoWidth t) 0 then None
  else
    match dataURL t with
    | Some result => Some (imageChunk result)
    | None => None
    end.

(** The timer callback of the phone component ([src/unnamed/part_000],
    lines 199-217). *)
Definition phoneTick (t : Tick) : option ImageChunk :=
  if negb (context2d t) || negb (video t) || negb (N.eqb (readyState t) 4)
  then None
  else
    match dataURL t with
    | Some result => Some (imageChunk result)
    | None => None
    end.

(** No character of [s] is a comma. *)
Fixpoint commaFree (s : string) : bool :=
  match s with
  | EmptyString => true
  | String c s' => negb (Ascii.eqb c comma) && commaFree s'
  end.

End FrameSampler.

(** ** The session recorder ([src/unnamed/part_000]) *)

Module Recording.
Import Web.
Local Open Scope string_scope.
Local Open Scope list_scope.

(** [s.includes(sub)] *)
Fixpoint includes (s sub : string) : bool :=
  String.prefix sub s
  || match s with
     | EmptyString => false
     | String _ s' => includes s' sub
     end.

(** Lines 146-147 of [startSession]: the container the recorder is asked
    for, given the platform's [MediaRecorder.isTypeSupported]. *)
Definition types : list string :=
  ["video/mp4"; "video/webm;codecs=vp9,opus"; "video/webm"].

Definition supportedType (isTypeSupported : string -> bool) : string :=
  match find isTypeSupported types with
  | Some t => t
  | None => ""
  end.

(** Line 148: the options of [new MediaRecorder]; [None] is
    [undefined]. *)
Definition recorderOptions (supportedType : string) : option string :=
  if truthy supportedType then Some supportedType else None.

(** A [Blob] of recorded media: its parts and its type. *)
Record FileBlob : Type := {
  parts : list (list byte);
  type : string
}.

Definition size (b : FileBlob) : nat := List.length (List.concat (parts b)).

(** The interface [RecordedSession] (lines 21-26). *)
Record RecordedSession : Type := {
  id : string;
  blob : FileBlob;
  timestamp : Z;
  url : string
}.

(** The cells the recorder's callbacks use: [chunksRef] and the [history]
    state. *)
Record Store : Type := {
  chunksRef : list (list byte);
  history : list RecordedSession
}.

(** Line 151 of [startSession]: [chunksRef.current = []]. *)
Definition reset (s : Store) : Store :=
  {| chunksRef := []; history := history s |}.

(** [recorder.ondataavailable] (lines 152-154) *)
Definition ondataavailable (data : list byte) (s : Store) : Store :=
  if Nat.ltb 0 (List.length data)
  then {| chunksRef := chunksRef s ++ [data]; history := history s |}
  else s.

(** [Date.now().toString()] *)
Definition toString (n : Z) : string := NilZero.string_of_int (Z.to_int n).

(** [recorder.onstop] (lines 155-165); [idNow] and [now] are the two
    readings of [Date.now()], [objectURL] what [URL.createObjectURL]
    returns. *)
Definition onstop (supportedType : string) (idNow now : Z)
    (objectURL : string) (s : Store) : Store :=
  let blobType :=
    if includes supportedType "mp4" then "video/mp4" else "video/webm" in
  let fullBlob := {| parts := chunksRef s; type := blobType |} in
  {| chunksRef := chunksRef s;
     history := {| id := toString idNow; blob := fullBlob;
                   timestamp := now; url := objectURL |} :: history s |}.

(** [downloadSession] (lines 282-290): the file name given to the
    download; [toISOString] is [new Date(t).toISOString()]. *)
Definition downloadName (toISOString : Z -> string) (session : RecordedSession)
  : string :=
  let ext := if includes (type (blob session)) "mp4" then "mp4" else "webm" in
  String.append "socratic-session-"
    (String.append (toISOString (timestamp session))
       (String.append "." ext)).

End Recording.

(** ** The visualizer ([src/components/Visualizer.tsx]) *)

(** The bars of one frame.  The numbers of the source are doubles; they are
    idealised as rationals, and the sine is a parameter. *)

Module Visualizer.
Local Open Scope Q_scope.

(** The canvas the bars are drawn on. *)
Record Canvas : Type := {
  width : Q;
  height : Q
}.

(** One [ctx.roundRect(x, y, barWidth, height, 4)]. *)
Record Bar : Type := {
  x : Q;
  y : Q;
  w : Q;
  h : Q
}.

Definition barCount : nat := 12.

Definition spacing : Q := 4.

Definition ofNat (n : nat) : Q := inject_Z (Z.of_nat n).

Definition barWidth (canvas : Canvas) : Q :=
  (width canvas - (ofNat barCount - 1) * spacing) / ofNat barCount.

(** The body of the loop of [render]; [wave i] stands for
    [Math.abs(Math.sin(time * 5 + i * 0.5))]. *)
Definition bar (canvas : Canvas) (wave : nat -> Q) (i : nat) : Bar :=
  let height_ := wave i * height canvas * (8 # 10) + 5 in
  {| x := ofNat i * (barWidth canvas + spacing);
     y := (height canvas - height_) / 2;
     w := barWidth canvas;
     h := height_ |}.

(** The bars of one frame, in drawing order. *)
Definition render (canvas : Canvas) (wave : nat -> Q) : list Bar :=
  map (bar canvas wave) (seq 0 barCount).

(** The canvas of the component: [<canvas width={100} height={40}>]. *)
Definition canvas : Canvas := {| width := 100; height := 40 |}.

End Visualizer.

(** *** The animation loop *)

Module Animation.
Import Web.

(** The animation loop of the component: the requests of
    [requestAnimationFrame] that are neither run nor cancelled, the
    [animationRef] cell, whether the effect in force returned its cleanup
    function, and the number of frames drawn so far.  Request ids are
    never zero, so a stored id is always truthy. *)
Record Loop : Type := {
  nextRequest : Handle;
  requested : list Handle;
  animationRef : option Handle;
  cleanup : bool;
  frames : nat
}.

Definition mounted : Loop :=
  {| nextRequest := 1%positive; requested := []; animationRef := None;
     cleanup := false; frames := 0%nat |}.

Definition set_cleanup (v : bool) (s : Loop) : Loop :=
  {| nextRequest := nextRequest s; requested := requested s;
     animationRef := animationRef s; cleanup := v; frames := frames s |}.

Definition cancelAnimationFrame (id : Handle) (s : Loop) : Loop :=
  {| nextRequest := nextRequest s; requested := without id (requested s);
     animationRef := animationRef s; cleanup := cleanup s;
     frames := frames s |}.

(** [if (animationRef.current) cancelAnimationFrame(animationRef.current)] *)
Definition cancelPending (s : Loop) : Loop :=
  match animationRef s with
  | Some id => cancelAnimationFrame id s
  | None => s
  end.

(** [render]: one frame is drawn and the next one requested. *)
Definition render (s : Loop) : Loop :=
  {| nextRequest := Pos.succ (nextRequest s);
     requested := requested s ++ [nextRequest s];
     animationRef := Some (nextRequest s);
     cleanup := cleanup s;
     frames := S (frames s) |}.

(** The body of [useEffect]; [drawable] says that the canvas is mounted
    and gives a 2d context. *)
Definition effect (isActive drawable : bool) (s : Loop) : Loop :=
  if negb isActive then set_cleanup false (cancelPending s)
  else if negb drawable then set_cleanup false s
  else set_cleanup true (render s).

(** The cleanup function the effect returned, if it returned one. *)
Definition runCleanup (s : Loop) : Loop :=
  if cleanup s then set_cleanup false (cancelPending s) else s.

Inductive LoopEvent : Type :=
  | Commit (isActive drawable : bool)
  | Frame (id : Handle)
  | Unmount.

(** A commit with changed dependencies runs the previous cleanup and then
    the effect; the browser runs the callback of a request that is still
    pending; unmounting runs the cleanup. *)
Definition loopStep (s : Loop) (ev : LoopEvent) : Loop :=
  match ev with
  | Commit isActive drawable => effect isActive drawable (runCleanup s)
  | Frame id =>
      if member id (requested s) then render (cancelAnimationFrame id s)
      else s
  | Unmount => runCleanup s
  end.

Definition loopRun (evs : list LoopEvent) (s : Loop) : Loop :=
  fold_left loopStep evs s.

(** The events after which the bars are not to move. *)
Definition stops (ev : LoopEvent) : bool :=
  match ev with
  | Commit false _ | Unmount => true
  | _ => false
  end.

(** At most one request is pending, and it is the one the cell names,
    under an effect that will cancel it. *)
Definition tracked (s : Loop) : Prop :=
  requested s = [] \/
  exists id, requested s = [id] /\ animationRef s = Some id /\ cleanup s = true.

End Animation.

(** ** Walk-throughs *)

Module Walkthrough.
Import Web Scenario.
Local Open Scope string_scope.
Local Open Scope list_scope.

(** One chunk of silence that arrives when the device clock reads 0. *)
Definition firstChunk : Arrival :=
  {| clock := at_ 0; chunk := audioMessage silence; decoded := silentBuffer |}.

(** An audio chunk in a message that also reports an interruption. *)
Definition interruptedAudio : LiveServerMessage :=
  {| serverContent :=
       Some {| outputTranscription := None;
               inputTranscription := None;
               turnComplete := false;
               modelTurn :=
                 Some (Some [{| inlineData := Some (Some silence) |}]);
               interrupted := true |} |}.

(** A model turn without [parts], in a message that also reports an
    interruption. *)
Definition partlessTurn : LiveServerMessage :=
  {| serverContent :=
       Some {| outputTranscription := None;
               inputTranscription := None;
               turnComplete := false;
               modelTurn := Some None;
               interrupted := true |} |}.

(** One message with a fragment of each speaker. *)
Definition crossTalk : ServerContent :=
  {| outputTranscription := Some {| transcriptionText := Some "Why?" |};
     inputTranscription := Some {| transcriptionText := Some "x = 2" |};
     turnComplete := false;
     modelTurn := None;
     interrupted := false |}.

(** A tick that finds a frame to send. *)
Definition jpegTick : FrameSampler.Tick :=
  {| FrameSampler.context2d := true;
     FrameSampler.video := true;
     FrameSampler.videoWidth := 1280;
     FrameSampler.readyState := 4;
     FrameSampler.dataURL := Some "data:image/jpeg;base64,/9j/4AAQ" |}.

(** The channel cannot be reached. *)
Definition channelDown : JsError :=
  {| name := "Error"; message := "WebSocket connection failed" |}.

(** Camera, microphone and recorder granted; the channel fails. *)
Definition cameraUnconnected : Phone.StartEnv :=
  {| Phone.contextSuspended := false;
     Phone.contextResume := Fulfilled tt;
     Phone.userMedia := Fulfilled 2%nat;
     Phone.mixing := Phone.Mixed;
     Phone.mediaRecorder := Fulfilled tt;
     Phone.liveSession := Rejected channelDown |}.

(** The platform has no destination node for the recording graph. *)
Definition NotSupportedError : JsError :=
  {| name := "NotSupportedError";
     message := "createMediaStreamDestination is not supported" |}.

(** Everything granted, but the recording graph cannot be built. *)
Definition cameraUnmixed : Phone.StartEnv :=
  {| Phone.contextSuspended := false;
     Phone.contextResume := Fulfilled tt;
     Phone.userMedia := Fulfilled 2%nat;
     Phone.mixing := Phone.NoDestination NotSupportedError;
     Phone.mediaRecorder := Fulfilled tt;
     Phone.liveSession := Fulfilled tt |}.

(** A phone session that has been opened and stopped. *)
Definition phoneStopped : Phone.State :=
  Phone.run [Phone.Start camera; Phone.Open 1%positive; Phone.Stop]
    Phone.initial.

End Walkthrough.

(* ================================================================== *)
(** * Part II: properties *)
(* ================================================================== *)

(** ** Transport text round trip *)

Section TransportText.
Import Codec.

Local Open Scope N_scope.

Lemma sextet_table :
  forallb (fun n =>
             match char_sextet (sextet_char n) with
             | Some m => N.eqb m n
             | None => false
             end && negb (Ascii.eqb (sextet_char n) pad))
          (map N.of_nat (seq 0 64)) = true.
Proof. vm_compute. reflexivity. Qed.

Lemma sextet_in_table n : n < 64 -> In n (map N.of_nat (seq 0 64)).
Proof.
  intros H. rewrite <- (N2Nat.id n). apply in_map, in_seq. lia.
Qed.

Lemma char_sextet_char n : n < 64 -> char_sextet (sextet_char n) = Some n.
Proof.
  intros H. pose proof sextet_table as T.
  rewrite forallb_forall in T. specialize (T n (sextet_in_table n H)).
  apply andb_true_iff in T. destruct T as [T _].
  destruct (char_sextet (sextet_char n)); [|discriminate].
  apply N.eqb_eq in T. now subst.
Qed.

Lemma sextet_char_not_pad n : n < 64 -> Ascii.eqb (sextet_char n) pad = false.
Proof.
  intros H. pose proof sextet_table as T.
  rewrite forallb_forall in T. specialize (T n (sextet_in_table n H)).
  apply andb_true_iff in T. destruct T as [_ T].
  now apply negb_true_iff in T.
Qed.

Lemma sextet_lt g k : sextet g k < 64.
Proof. unfold sextet. apply N.mod_lt. discriminate. Qed.

Lemma byte_of_to_N b : byte_of_N (Byte.to_N b) = b.
Proof.
  unfold byte_of_N. pose proof (Byte.to_N_bounded b).
  rewrite N.mod_small by lia. now rewrite Byte.of_to_N.
Qed.

Lemma byte_of_N_mod n b : n mod 256 = Byte.to_N b -> byte_of_N n = b.
Proof.
  intros H. unfold byte_of_N. rewrite H. now rewrite Byte.of_to_N.
Qed.

Ltac n_arith := zify; Z.to_euclidean_division_equations; lia.

Ltac byte_bounds :=
  repeat match goal with
         | |- context [Byte.to_N ?b] =>
             let H := fresh "B" in
             pose proof (Byte.to_N_bounded b) as H;
             generalize dependent (Byte.to_N b); intros
         end.

Lemma sextets_full a b c :
  let g := group24 a b c in
  let g' := ungroup (sextet g 3) (sextet g 2) (sextet g 1) (sextet g 0) in
  byte_of_N (g' / 65536) = a /\ byte_of_N (g' / 256) = b /\ byte_of_N g' = c.
Proof.
  cbv zeta. repeat split; apply byte_of_N_mod;
    unfold sextet, ungroup, group24;
    change (2 ^ (6 * 3)) with 262144; change (2 ^ (6 * 2)) with 4096;
    change (2 ^ (6 * 1)) with 64; change (2 ^ (6 * 0)) with 1;
    byte_bounds; n_arith.
Qed.

Lemma sextets_two a b :
  let g := group24 a b x00 in
  let g' := ungroup (sextet g 3) (sextet g 2) (sextet g 1) 0 in
  byte_of_N (g' / 65536) = a /\ byte_of_N (g' / 256) = b.
Proof.
  cbv zeta. repeat split; apply byte_of_N_mod;
    unfold sextet, ungroup, group24;
    change (Byte.to_N x00) with 0;
    change (2 ^ (6 * 3)) with 262144; change (2 ^ (6 * 2)) with 4096;
    change (2 ^ (6 * 1)) with 64;
    byte_bounds; n_arith.
Qed.

Lemma sextets_one a :
  let g := group24 a x00 x00 in
  let g' := ungroup (sextet g 3) (sextet g 2) 0 0 in
  byte_of_N (g' / 65536) = a.
Proof.
  cbv zeta. apply byte_of_N_mod.
  unfold sextet, ungroup, group24.
  change (Byte.to_N x00) with 0.
  change (2 ^ (6 * 3)) with 262144; change (2 ^ (6 * 2)) with 4096.
  byte_bounds; n_arith.
Qed.

Lemma list_ind3 {A} (P : list A -> Prop) :
  P [] -> (forall a, P [a]) -> (forall a b, P [a; b]) ->
  (forall a b c l, P l -> P (a :: b :: c :: l)) ->
  forall l, P l.
Proof.
  intros H0 H1 H2 H3 l.
  cut (P l /\ (forall a, P (a :: l)) /\ (forall a b, P (a :: b :: l))).
  { tauto. }
  induction l as [|x l (IH0 & IH1 & IH2)]; auto.
Qed.

Lemma decode_encode bs : decode (encode bs) = Some bs.
Proof.
  induction bs as [|a|a b|a b c rest IH] using list_ind3.
  - reflexivity.
  - cbn [encode decode].
    rewrite !char_sextet_char by apply sextet_lt.
    rewrite !Ascii.eqb_refl. now rewrite sextets_one.
  - cbn [encode decode].
    rewrite !char_sextet_char by apply sextet_lt.
    rewrite Ascii.eqb_refl, sextet_char_not_pad by apply sextet_lt.
    destruct (sextets_two a b) as [-> ->]. reflexivity.
  - cbn [encode decode].
    rewrite !char_sextet_char by apply sextet_lt.
    rewrite sextet_char_not_pad by apply sextet_lt.
    rewrite IH.
    destruct (sextets_full a b c) as (-> & -> & ->). reflexivity.
Qed.

End TransportText.

(** ** PCM16 encoding *)

Section PCM16.
Import Codec.

Local Open Scope Z_scope.

Lemma quot_pos_bounds n d :
  0 < d -> (0 <= n -> d * (n ÷ d) <= n < d * (n ÷ d + 1)) /\
           (n <= 0 -> d * (n ÷ d - 1) < n <= d * (n ÷ d)).
Proof.
  intros Hd. pose proof (Z.quot_rem' n d) as E.
  split; intros Hn.
  - pose proof (Z.rem_bound_pos n d ltac:(lia) ltac:(lia)). nia.
  - pose proof (Z.rem_bound_pos_pos (- n) d ltac:(lia) ltac:(lia)) as B.
    rewrite Z.rem_opp_l' in B. nia.
Qed.

(** [truncate] rounds toward zero: it never moves a value away from zero
    and moves it by less than one. *)
Lemma truncate_toward_zero q :
  (0 <= q -> inject_Z (truncate q) <= q /\ q < inject_Z (truncate q + 1))%Q /\
  (q <= 0 -> q <= inject_Z (truncate q) /\ inject_Z (truncate q - 1) < q)%Q.
Proof.
  destruct q as [n d]. unfold truncate, Qle, Qlt, inject_Z. cbn [Qnum Qden].
  rewrite !Z.mul_1_r.
  destruct (quot_pos_bounds n (Z.pos d) ltac:(lia)) as [P N].
  split; intros Hn; [specialize (P ltac:(lia)) | specialize (N ltac:(lia))]; lia.
Qed.

Lemma truncate_scale_in_range q :
  (-1 <= q)%Q -> (q < 1)%Q -> -32768 <= truncate (q * 32768) <= 32767.
Proof.
  destruct q as [n d]. unfold truncate, Qle, Qlt, Qmult. cbn [Qnum Qden].
  intros Hlo Hhi.
  rewrite Pos.mul_1_r.
  assert (Hn : - Z.pos d <= n < Z.pos d) by lia. clear Hlo Hhi.
  destruct (quot_pos_bounds (n * 32768) (Z.pos d) ltac:(lia)) as [P N].
  destruct (Z.le_gt_cases 0 n);
    [specialize (P ltac:(lia)) | specialize (N ltac:(lia))]; nia.
Qed.

Lemma ToInt16_range x : -32768 <= ToInt16 x <= 32767.
Proof.
  destruct x as [q| |s]; cbn [ToInt16]; try lia.
  cbv zeta. pose proof (Z.mod_pos_bound (truncate q) 65536 ltac:(lia)).
  destruct (Z.leb_spec 32768 (truncate q mod 65536)); lia.
Qed.

Lemma ToInt16_congruent q : (ToInt16 (Finite q) - truncate q) mod 65536 = 0.
Proof.
  cbn [ToInt16]. cbv zeta.
  destruct (Z.leb_spec 32768 (truncate q mod 65536));
    Z.to_euclidean_division_equations; lia.
Qed.

Lemma ToInt16_exact q :
  -32768 <= truncate q <= 32767 -> ToInt16 (Finite q) = truncate q.
Proof.
  intros H. cbn [ToInt16]. cbv zeta.
  destruct (Z.leb_spec 32768 (truncate q mod 65536));
    Z.to_euclidean_division_equations; lia.
Qed.

Lemma ToInt16_wraps q :
  32768 <= truncate q <= 65535 -> ToInt16 (Finite q) = truncate q - 65536.
Proof.
  intros H. cbn [ToInt16]. cbv zeta.
  destruct (Z.leb_spec 32768 (truncate q mod 65536));
    Z.to_euclidean_division_equations; lia.
Qed.

End PCM16.

(** ** Running the callback monad *)

Section Runs.
Import Web.
Context {Cells : Type}.
Implicit Types (b : Browser) (c : Cells).

Lemma bind_run {A B} (x : Js Cells A) (f : A -> Js Cells B) m :
  bind x f m = andThen (x m) f.
Proof. reflexivity. Qed.

Lemma tryCatch_run {A} (x : Js Cells A) (h : JsError -> Js Cells A) m :
  tryCatch x h m = orElse (x m) h.
Proof. reflexivity. Qed.

Lemma clearInterval_run h b c :
  clearInterval h {| browser := b; cells := c |} =
  {| completion := Normal tt;
     final := {| browser := cleared h b; cells := c |};
     trace := [ClearInterval h] |}.
Proof. reflexivity. Qed.

Lemma contextClose_run h b c :
  contextClose h {| browser := b; cells := c |} =
  {| completion := Normal tt;
     final := {| browser := closed h b; cells := c |};
     trace := [ContextClose h] |}.
Proof. reflexivity. Qed.

Lemma recorderStop_run h b c :
  recorderStop h {| browser := b; cells := c |} =
  {| completion := Normal tt;
     final := {| browser := unrecorded h b; cells := c |};
     trace := [RecorderStop h] |}.
Proof. reflexivity. Qed.

Lemma forEach_trackStop (ts : list Handle) b c :
  forEach ts trackStop {| browser := b; cells := c |} =
  {| completion := Normal tt;
     final := {| browser := endTracks ts b; cells := c |};
     trace := map TrackStop ts |}.
Proof.
  revert b. induction ts as [|t ts IH]; intros b.
  - reflexivity.
  - cbn [forEach]. rewrite bind_run. cbn -[forEach]. rewrite IH. reflexivity.
Qed.

(** The stop loop never raises, whatever the nodes' progress: a node that
    refuses to stop is skipped and the loop goes on. *)
Lemma stopAll_run (vs : list Voice) b c :
  stopAll vs {| browser := b; cells := c |} =
  {| completion := Normal tt;
     final := {| browser := endVoices vs b; cells := c |};
     trace := map (fun v => SourceStop (source v)) vs |}.
Proof.
  revert b. induction vs as [|v vs IH]; intros b.
  - reflexivity.
  - unfold stopAll in *. cbn [forEach]. rewrite bind_run, tryCatch_run.
    unfold sourceStop. rewrite !bind_run. cbn -[forEach member].
    destruct (member (source v) (endedSources b)); cbn -[forEach];
      rewrite IH; reflexivity.
Qed.

Lemma newTracks_run n b c :
  newTracks n {| browser := b; cells := c |} =
  {| completion := Normal (fst (grantTracks n b));
     final := {| browser := snd (grantTracks n b); cells := c |};
     trace := [] |}.
Proof.
  revert b. induction n as [|n IH]; intros b.
  - reflexivity.
  - cbn [newTracks]. unfold fresh. rewrite !bind_run.
    cbn -[newTracks grantTracks]. rewrite bind_run, IH. reflexivity.
Qed.

End Runs.

(** Symbolic execution of a callback: binds are opened one at a time, the
    loops are replaced by their closed forms. *)
Ltac js_run :=
  repeat (rewrite ?bind_run, ?tryCatch_run, ?clearInterval_run,
            ?contextClose_run, ?recorderStop_run, ?forEach_trackStop,
            ?stopAll_run, ?newTracks_run;
          cbn -[Web.bind Web.tryCatch Web.forEach Web.stopAll Web.newTracks
                Web.clearInterval Web.contextClose Web.recorderStop
                Web.without Web.member Web.endTracks Web.endVoices
                Web.grantTracks Web.sliceLast Web.concatText Web.truthy
                Qmax Qplus Codec.decode Web.decodeAudioData
                Web.decodePayload Web.inlineAudio String.eqb String.append]).

(** ** Browser bookkeeping *)

Section Bookkeeping.
Import Web.

Lemma without_idem h l : without h (without h l) = without h l.
Proof.
  unfold without. induction l as [|x l IH]; cbn; [reflexivity|].
  destruct (Pos.eqb x h) eqn:E; cbn; rewrite ?E; cbn; now rewrite IH.
Qed.

Lemma without_comm h k l : without h (without k l) = without k (without h l).
Proof.
  unfold without. induction l as [|x l IH]; cbn; [reflexivity|].
  destruct (Pos.eqb x k) eqn:E, (Pos.eqb x h) eqn:F; cbn;
    rewrite ?E, ?F; cbn; now rewrite IH.
Qed.

Lemma member_without h l : member h (without h l) = false.
Proof.
  unfold member, without. induction l as [|x l IH]; cbn; [reflexivity|].
  destruct (Pos.eqb x h) eqn:E; cbn; [exact IH|].
  rewrite Pos.eqb_sym, E. exact IH.
Qed.

Lemma endTracks_fields ts b :
  nextHandle (endTracks ts b) = nextHandle b /\
  openContexts (endTracks ts b) = openContexts b /\
  activeTimers (endTracks ts b) = activeTimers b /\
  recording (endTracks ts b) = recording b /\
  endedSources (endTracks ts b) = endedSources b.
Proof.
  revert b. induction ts as [|t ts IH]; intros b; cbn [endTracks]; [tauto|].
  destruct (IH {| nextHandle := nextHandle b; openContexts := openContexts b;
                  liveTracks := without t (liveTracks b);
                  activeTimers := activeTimers b; recording := recording b;
                  endedSources := endedSources b |}) as (-> & -> & -> & -> & ->).
  cbn. tauto.
Qed.

Lemma endVoices_fields vs b :
  nextHandle (endVoices vs b) = nextHandle b /\
  openContexts (endVoices vs b) = openContexts b /\
  liveTracks (endVoices vs b) = liveTracks b /\
  activeTimers (endVoices vs b) = activeTimers b /\
  recording (endVoices vs b) = recording b.
Proof.
  revert b. induction vs as [|v vs IH]; intros b; cbn [endVoices]; [tauto|].
  destruct (member (source v) (endedSources b)).
  - apply IH.
  - destruct (IH {| nextHandle := nextHandle b; openContexts := openContexts b;
                    liveTracks := liveTracks b; activeTimers := activeTimers b;
                    recording := recording b;
                    endedSources := endedSources b ++ [source v] |})
      as (-> & -> & -> & -> & ->).
    cbn. tauto.
Qed.

End Bookkeeping.

Section MoreBookkeeping.
Import Web.

Lemma closed_idem h b : closed h (closed h b) = closed h b.
Proof. unfold closed. cbn -[without]. now rewrite without_idem. Qed.

Lemma closed_comm h k b : closed h (closed k b) = closed k (closed h b).
Proof. unfold closed. cbn -[without]. now rewrite (without_comm h k). Qed.

Lemma recording_endTracks ts b : recording (endTracks ts b) = recording b.
Proof. apply endTracks_fields. Qed.

Lemma recording_endVoices vs b : recording (endVoices vs b) = recording b.
Proof. apply endVoices_fields. Qed.

Lemma finalized_again r b : member r (recording (finalized r b)) = false.
Proof.
  unfold finalized. destruct (member r (recording b)) eqn:R; [|exact R].
  cbn -[member without]. apply member_without.
Qed.

End MoreBookkeeping.

(** ** Teardown *)

Section TabletStop.
Import Web Tablet.

(** What [stopSession] does, for every state: it never raises, and each
    guarded step acts exactly when its reference is set. *)
Lemma Tablet_stopSession_run b c :
  stopSession {| browser := b; cells := c |} =
  {| completion := Normal tt;
     final :=
       {| browser :=
            ifSet (audioContextOutRef c) closed
              (ifSet (audioContextInRef c) closed
                 (endVoices (audioSourcesRef c)
                    (ifSet (screenStreamRef c) endTracks
                       (ifSet (streamRef c) endTracks
                          (ifSet (frameIntervalRef c) cleared b)))));
          cells :=
            set_isScreenSharing false
              (set_status disconnected
                 (set_audioSourcesRef []
                    (set_screenStreamRef None
                       (set_streamRef None
                          (set_sessionRef None
                             (set_frameIntervalRef None c)))))) |};
     trace :=
       effectsIfSet (frameIntervalRef c) (fun h => [ClearInterval h])
       ++ effectsIfSet (sessionRef c) (fun s => [DropSession s])
       ++ effectsIfSet (streamRef c) (map TrackStop)
       ++ effectsIfSet (screenStreamRef c) (map TrackStop)
       ++ map (fun v => SourceStop (source v)) (audioSourcesRef c)
       ++ effectsIfSet (audioContextInRef c) (fun h => [ContextClose h])
       ++ effectsIfSet (audioContextOutRef c) (fun h => [ContextClose h]) |}.
Proof.
  destruct c as [st tr sh er cin cout se ms ss fi nx vs ci co].
  unfold stopSession.
  destruct fi, se, ms, ss, cin, cout; js_run;
    rewrite ?app_nil_r, <- ?app_assoc; reflexivity.
Qed.

Lemma Tablet_stop_twice (m : State) :
  final (stopSession (final (stopSession m))) = final (stopSession m).
Proof.
  destruct m as [b c]. rewrite Tablet_stopSession_run. cbn [final].
  rewrite Tablet_stopSession_run. cbn [final].
  destruct c as [st tr sh er cin cout se ms ss fi nx vs ci co].
  cbn -[closed endTracks endVoices cleared].
  f_equal.
  destruct cin as [i|], cout as [o|]; cbn [ifSet endVoices];
    rewrite ?(closed_comm i o), ?closed_idem; reflexivity.
Qed.

End TabletStop.

Section PhoneStop.
Import Web Phone.

Lemma Phone_stopSession_run b c :
  stopSession {| browser := b; cells := c |} =
  {| completion := Normal tt;
     final :=
       {| browser :=
            ifSet (audioContextRef c) closed
              (endVoices (audioSourcesRef c)
                 (ifSet (mediaStreamRef c) endTracks
                    (ifSet (frameIntervalRef c) cleared
                       (ifSet (mediaRecorderRef c) finalized b))));
          cells :=
            set_status disconnected
              (set_audioContextRef None
                 (set_audioSourcesRef []
                    (set_mediaStreamRef None
                       (set_sessionRef None
                          (set_frameIntervalRef None c))))) |};
     trace :=
       effectsIfSet (mediaRecorderRef c)
         (fun r => if member r (recording b) then [RecorderStop r] else [])
       ++ effectsIfSet (frameIntervalRef c) (fun h => [ClearInterval h])
       ++ effectsIfSet (sessionRef c) (fun s => [DropSession s])
       ++ effectsIfSet (mediaStreamRef c) (map TrackStop)
       ++ map (fun v => SourceStop (source v)) (audioSourcesRef c)
       ++ effectsIfSet (audioContextRef c) (fun h => [ContextClose h]) |}.
Proof.
  destruct c as [st er sh fu ctx se ms fi nx vs mr mx].
  unfold stopSession.
  destruct mr as [r|]; [destruct (member r (recording b)) eqn:R|];
    destruct fi, se, ms, ctx; js_run; unfold finalized; rewrite ?R; js_run;
    rewrite ?app_nil_r, <- ?app_assoc; reflexivity.
Qed.

Lemma Phone_stop_twice (m : State) :
  final (stopSession (final (stopSession m))) = final (stopSession m).
Proof.
  destruct m as [b c]. rewrite Phone_stopSession_run. cbn [final].
  rewrite Phone_stopSession_run. cbn [final].
  destruct c as [st er sh fu ctx se ms fi nx vs mr mx].
  cbn -[closed endTracks endVoices cleared finalized].
  f_equal.
  destruct mr as [r|]; cbn [ifSet]; [|reflexivity].
  set (B := ifSet ctx closed _).
  assert (R : recording B = recording (finalized r b)).
  { subst B. destruct ctx, ms, fi; cbn [ifSet closed cleared recording];
      rewrite ?recording_endVoices, ?recording_endTracks; reflexivity. }
  unfold finalized at 1. rewrite R, finalized_again. reflexivity.
Qed.

End PhoneStop.

(** ** Inbound messages *)

Section TabletMessages.
Import Web Tablet.

Lemma Tablet_note_run now message b c :
  noteTranscription now message {| browser := b; cells := c |} =
  {| completion := Normal tt;
     final := {| browser := b; cells := noted now message c |};
     trace := [] |}.
Proof.
  unfold noteTranscription, noted.
  destruct (serverContent message) as [sc|]; [|reflexivity].
  unfold fragments, flush, flushedEntries.
  destruct (outputTranscription sc), (inputTranscription sc),
    (turnComplete sc); js_run;
    repeat match goal with
           | |- context [truthy ?s] => destruct (truthy s)
           end; reflexivity.
Qed.

Lemma Tablet_onInterrupt_run b c :
  onInterrupt {| browser := b; cells := c |} =
  {| completion := Normal tt;
     final := {| browser := endVoices (audioSourcesRef c) b;
                 cells := set_nextStartTimeRef 0
                            (set_audioSourcesRef [] c) |};
     trace := map (fun v => SourceStop (source v)) (audioSourcesRef c) |}.
Proof.
  unfold onInterrupt. js_run. now rewrite app_nil_r.
Qed.

Lemma Tablet_play_good now message buf ctx b c :
  carries message buf ->
  audioContextOutRef c = Some ctx ->
  let w := Qmax (nextStartTimeRef c) (currentTime now) in
  playInboundAudio now message {| browser := b; cells := c |} =
  {| completion := Normal tt;
     final :=
       {| browser := bumped b;
          cells :=
            set_audioSourcesRef
              (audioSourcesRef c
               ++ [{| source := nextHandle b; buffer := buf;
                      scheduledStart := w |}])
              (set_nextStartTimeRef (w + duration buf)%Q
                 (set_nextStartTimeRef w c)) |};
     trace := [CreateBufferSource ctx (nextHandle b);
               ConnectDestination (nextHandle b) ctx;
               SourceStart (nextHandle b) w] |}.
Proof.
  intros (b64 & Hin & Ht & Hd & _) Hctx w. subst w.
  unfold playInboundAudio. rewrite bind_run, Hin. js_run. rewrite Hctx.
  cbn [when]. rewrite Ht. js_run. rewrite Hd. unfold fresh. js_run. reflexivity.
Qed.

Lemma Tablet_play_malformed now message e ctx b c :
  malformed message e ->
  audioContextOutRef c = Some ctx ->
  playInboundAudio now message {| browser := b; cells := c |} =
  {| completion := Abrupt e;
     final :=
       {| browser := b;
          cells := set_nextStartTimeRef
                     (Qmax (nextStartTimeRef c) (currentTime now)) c |};
     trace := [] |}.
Proof.
  intros (b64 & Hin & Ht & Hd) Hctx.
  unfold playInboundAudio. rewrite bind_run, Hin. js_run. rewrite Hctx.
  cbn [when]. rewrite Ht. js_run. rewrite Hd. js_run. reflexivity.
Qed.

(** With no output context referenced, the scheduler does nothing at all,
    whatever the message carries. *)
Lemma Tablet_play_no_context now message b c :
  audioContextOutRef c = None ->
  playInboundAudio now message {| browser := b; cells := c |} =
  match inlineAudio message with
  | inl e => {| completion := Abrupt e;
                final := {| browser := b; cells := c |}; trace := [] |}
  | inr _ => {| completion := Normal tt;
                final := {| browser := b; cells := c |}; trace := [] |}
  end.
Proof.
  intros Hctx. unfold playInboundAudio. rewrite bind_run.
  destruct (inlineAudio message) as [e|[s|]]; js_run; rewrite ?Hctx;
    reflexivity.
Qed.

Lemma Tablet_noted_frame now message c :
  status (noted now message c) = status c /\
  audioContextOutRef (noted now message c) = audioContextOutRef c /\
  nextStartTimeRef (noted now message c) = nextStartTimeRef c /\
  audioSourcesRef (noted now message c) = audioSourcesRef c.
Proof.
  unfold noted, flush, fragments.
  destruct (serverContent message) as [sc|]; [|tauto].
  destruct (outputTranscription sc), (inputTranscription sc),
    (turnComplete sc); cbn -[truthy sliceLast];
    repeat match goal with
           | |- context [truthy ?s] => destruct (truthy s)
           end; cbn; tauto.
Qed.

Lemma Tablet_onmessage_good now message buf ctx b c :
  carries message buf ->
  audioContextOutRef c = Some ctx ->
  let w := Qmax (nextStartTimeRef c) (currentTime now) in
  onmessage now message {| browser := b; cells := c |} =
  {| completion := Normal tt;
     final :=
       {| browser := bumped b;
          cells :=
            set_audioSourcesRef
              (audioSourcesRef c
               ++ [{| source := nextHandle b; buffer := buf;
                      scheduledStart := w |}])
              (set_nextStartTimeRef (w + duration buf)%Q
                 (set_nextStartTimeRef w (noted now message c))) |};
     trace := [CreateBufferSource ctx (nextHandle b);
               ConnectDestination (nextHandle b) ctx;
               SourceStart (nextHandle b) w] |}.
Proof.
  intros Hc Hctx w. subst w.
  destruct (Tablet_noted_frame now message c) as (_ & Fctx & Fnext & Fsrc).
  unfold onmessage. rewrite bind_run, Tablet_note_run. cbn [andThen prepend].
  rewrite bind_run, (Tablet_play_good now message buf ctx) by congruence.
  rewrite Fnext, Fsrc.
  destruct Hc as (_ & _ & _ & _ & ->). reflexivity.
Qed.

End TabletMessages.

Section Scheduling.
Import Web.

Lemma scheduledFrom_buffers w arrivals vs :
  scheduledFrom w arrivals vs -> map buffer vs = map decoded arrivals.
Proof.
  revert w vs. induction arrivals as [|a rest IH]; intros w [|v vs]; cbn;
    try tauto.
  intros (Hb & _ & H). f_equal; [exact Hb | exact (IH _ _ H)].
Qed.

Lemma scheduledFrom_after_clock w arrivals vs :
  scheduledFrom w arrivals vs ->
  Forall2 (fun v a => currentTime (clock a) <= scheduledStart v)%Q vs arrivals.
Proof.
  revert w vs. induction arrivals as [|a rest IH]; intros w [|v vs]; cbn;
    try tauto; [constructor|].
  intros (_ & Hs & H). constructor; [|exact (IH _ _ H)].
  rewrite Hs. apply Q.le_max_r.
Qed.

Lemma scheduledFrom_after_watermark w arrivals vs :
  scheduledFrom w arrivals vs ->
  Forall (fun v => w <= scheduledStart v)%Q (firstn 1 vs).
Proof.
  destruct arrivals as [|a rest], vs as [|v vs]; cbn; try tauto;
    [constructor|].
  intros (_ & Hs & _). constructor; [|constructor].
  rewrite Hs. apply Q.le_max_l.
Qed.

Lemma scheduledFrom_noOverlap w arrivals vs :
  scheduledFrom w arrivals vs -> noOverlap vs.
Proof.
  revert w vs. induction arrivals as [|a rest IH]; intros w [|v vs]; cbn;
    try tauto.
  intros (_ & _ & H). destruct vs as [|v' vs']; [exact I|].
  split; [|exact (IH _ _ H)].
  destruct rest as [|a' rest']; cbn in H; [tauto|].
  destruct H as (_ & Hs & _). rewrite Hs. apply Q.le_max_l.
Qed.

Lemma scheduledFrom_onTime w t arrivals vs :
  (w == t)%Q -> onTime t arrivals -> scheduledFrom w arrivals vs ->
  Forall2 Qeq (map scheduledStart vs)
    (backToBack t (map (fun a => duration (decoded a)) arrivals)).
Proof.
  revert w t vs. induction arrivals as [|a rest IH]; intros w t [|v vs] E;
    cbn; try tauto; [constructor|].
  intros (Hclk & Hrest) (Hb & Hs & H).
  assert (S : (scheduledStart v == t)%Q).
  { rewrite Hs, <- E. apply Q.max_l. now rewrite E. }
  constructor; [exact S|].
  apply (IH (scheduledStart v + duration (buffer v))%Q); [|exact Hrest|exact H].
  now rewrite S, Hb.
Qed.

Lemma scheduledFrom_backToBack w arrivals vs :
  noUnderrun w arrivals -> scheduledFrom w arrivals vs ->
  Forall2 Qeq (map scheduledStart vs)
    (backToBack
       (match arrivals with
        | [] => w
        | a :: _ => Qmax w (currentTime (clock a))
        end)
       (map (fun a => duration (decoded a)) arrivals)).
Proof.
  destruct arrivals as [|a rest], vs as [|v vs]; cbn; try tauto;
    [constructor|].
  intros Hrest (Hb & Hs & H).
  constructor; [now rewrite Hs|].
  apply (scheduledFrom_onTime (scheduledStart v + duration (buffer v))%Q);
    [|exact Hrest|exact H].
  now rewrite Hs, Hb.
Qed.

End Scheduling.

Section TabletSchedule.
Import Web Tablet.

Lemma Tablet_run_cons ev evs m : run (ev :: evs) m = run evs (step m ev).
Proof. reflexivity. Qed.

Lemma Tablet_schedule arrivals : forall b c ctx,
  audioContextOutRef c = Some ctx ->
  Forall (fun a => carries (chunk a) (decoded a)) arrivals ->
  let m' := run (map arrive arrivals) {| browser := b; cells := c |} in
  status (cells m') = status c /\
  exists vs,
    audioSourcesRef (cells m') = audioSourcesRef c ++ vs /\
    scheduledFrom (nextStartTimeRef c) arrivals vs.
Proof.
  induction arrivals as [|a rest IH]; intros b c ctx Hctx Hall; cbn zeta.
  - cbn. split; [reflexivity|]. exists []. now rewrite app_nil_r.
  - inversion Hall as [|? ? Ha Hrest]; subst.
    cbn [map]. rewrite Tablet_run_cons. unfold step. cbn [arrive handle].
    rewrite (Tablet_onmessage_good _ _ _ ctx _ _ Ha Hctx). cbn [final].
    destruct (Tablet_noted_frame (clock a) (chunk a) c) as (Fst & Fctx & _ & _).
    match goal with
    | |- context [run _ {| browser := ?b1; cells := ?c1 |}] =>
        destruct (IH b1 c1 ctx) as (Hst & vs & Hsrc & Hsched);
          [cbn; congruence | exact Hrest |]
    end.
    split; [rewrite Hst; cbn; exact Fst|].
    eexists (_ :: vs). split.
    + rewrite Hsrc. cbn. rewrite <- app_assoc. reflexivity.
    + cbn. cbn in Hsched. auto.
Qed.

End TabletSchedule.


Section PhoneMessages.
Import Web Phone.

Lemma Phone_onInterrupt_run b c :
  onInterrupt {| browser := b; cells := c |} =
  {| completion := Normal tt;
     final := {| browser := endVoices (audioSourcesRef c) b;
                 cells := set_nextStartTimeRef 0
                            (set_audioSourcesRef [] c) |};
     trace := map (fun v => SourceStop (source v)) (audioSourcesRef c) |}.
Proof.
  unfold onInterrupt. js_run. now rewrite app_nil_r.
Qed.

Lemma Phone_play_good now message buf ctx b c :
  carries message buf ->
  audioContextRef c = Some ctx ->
  mixerFits c = true ->
  let w := Qmax (nextStartTimeRef c) (currentTime now) in
  playInboundAudio now message {| browser := b; cells := c |} =
  {| completion := Normal tt;
     final :=
       {| browser := bumped b;
          cells :=
            set_audioSourcesRef
              (audioSourcesRef c
               ++ [{| source := nextHandle b; buffer := buf;
                      scheduledStart := w |}])
              (set_nextStartTimeRef (w + duration buf)%Q
                 (set_nextStartTimeRef w c)) |};
     trace := [CreateBufferSource ctx (nextHandle b);
               ConnectDestination (nextHandle b) ctx]
              ++ effectsIfSet (recordingMixerRef c)
                   (fun g => [ConnectMixer (nextHandle b) (gain g)])
              ++ [SourceStart (nextHandle b) w] |}.
Proof.
  intros (b64 & Hin & Ht & Hd & _) Hctx Hfit w. subst w.
  unfold mixerFits in Hfit. rewrite Hctx in Hfit.
  unfold playInboundAudio. rewrite bind_run, Hin. js_run. rewrite Hctx.
  cbn [when]. rewrite Ht. js_run. rewrite Hd. unfold fresh. js_run.
  destruct (recordingMixerRef c) as [g|]; js_run; rewrite ?Hfit; js_run;
    reflexivity.
Qed.

Lemma Phone_play_malformed now message e ctx b c :
  malformed message e ->
  audioContextRef c = Some ctx ->
  playInboundAudio now message {| browser := b; cells := c |} =
  {| completion := Abrupt e;
     final :=
       {| browser := b;
          cells := set_nextStartTimeRef
                     (Qmax (nextStartTimeRef c) (currentTime now)) c |};
     trace := [] |}.
Proof.
  intros (b64 & Hin & Ht & Hd) Hctx.
  unfold playInboundAudio. rewrite bind_run, Hin. js_run. rewrite Hctx.
  cbn [when]. rewrite Ht. js_run. rewrite Hd. js_run. reflexivity.
Qed.

(** With no audio context referenced, the scheduler does nothing at all,
    whatever the message carries. *)
Lemma Phone_play_no_context now message b c :
  audioContextRef c = None ->
  playInboundAudio now message {| browser := b; cells := c |} =
  match inlineAudio message with
  | inl e => {| completion := Abrupt e;
                final := {| browser := b; cells := c |}; trace := [] |}
  | inr _ => {| completion := Normal tt;
                final := {| browser := b; cells := c |}; trace := [] |}
  end.
Proof.
  intros Hctx. unfold playInboundAudio. rewrite bind_run.
  destruct (inlineAudio message) as [e|[s|]]; js_run; rewrite ?Hctx;
    reflexivity.
Qed.

Lemma Phone_onmessage_good now message buf ctx b c :
  carries message buf ->
  audioContextRef c = Some ctx ->
  mixerFits c = true ->
  let w := Qmax (nextStartTimeRef c) (currentTime now) in
  onmessage now message {| browser := b; cells := c |} =
  {| completion := Normal tt;
     final :=
       {| browser := bumped b;
          cells :=
            set_audioSourcesRef
              (audioSourcesRef c
               ++ [{| source := nextHandle b; buffer := buf;
                      scheduledStart := w |}])
              (set_nextStartTimeRef (w + duration buf)%Q
                 (set_nextStartTimeRef w c)) |};
     trace := [CreateBufferSource ctx (nextHandle b);
               ConnectDestination (nextHandle b) ctx]
              ++ effectsIfSet (recordingMixerRef c)
                   (fun g => [ConnectMixer (nextHandle b) (gain g)])
              ++ [SourceStart (nextHandle b) w] |}.
Proof.
  intros Hc Hctx Hfit w. subst w.
  unfold onmessage.
  rewrite bind_run, (Phone_play_good now message buf ctx) by assumption.
  destruct Hc as (_ & _ & _ & _ & ->). cbn [andThen prepend when ret].
  now rewrite app_nil_r.
Qed.

Lemma Phone_run_cons ev evs m : run (ev :: evs) m = run evs (step m ev).
Proof. reflexivity. Qed.

Lemma Phone_schedule arrivals : forall b c ctx,
  audioContextRef c = Some ctx ->
  mixerFits c = true ->
  Forall (fun a => carries (chunk a) (decoded a)) arrivals ->
  let m' := run (map arrive arrivals) {| browser := b; cells := c |} in
  status (cells m') = status c /\
  exists vs,
    audioSourcesRef (cells m') = audioSourcesRef c ++ vs /\
    scheduledFrom (nextStartTimeRef c) arrivals vs.
Proof.
  induction arrivals as [|a rest IH]; intros b c ctx Hctx Hfit Hall; cbn zeta.
  - cbn. split; [reflexivity|]. exists []. now rewrite app_nil_r.
  - inversion Hall as [|? ? Ha Hrest]; subst.
    cbn [map]. rewrite Phone_run_cons. unfold step. cbn [arrive handle].
    rewrite (Phone_onmessage_good _ _ _ ctx _ _ Ha Hctx Hfit). cbn [final].
    match goal with
    | |- context [run _ {| browser := ?b1; cells := ?c1 |}] =>
        destruct (IH b1 c1 ctx) as (Hst & vs & Hsrc & Hsched);
          [exact Hctx | exact Hfit | exact Hrest |]
    end.
    split; [rewrite Hst; reflexivity|].
    eexists (_ :: vs). split.
    + rewrite Hsrc. cbn. rewrite <- app_assoc. reflexivity.
    + cbn. cbn in Hsched. auto.
Qed.

End PhoneMessages.

(** ** Starting a session *)

Section Truthiness.
Import Web.
Lemma truthy_or_default s d :
  truthy d = true -> truthy (if truthy s then s else d) = true.
Proof. intros H. destruct (truthy s) eqn:E; [exact E | exact H]. Qed.
End Truthiness.

Section TabletStart.
Import Web Tablet.

Ltac start_cases env :=
  destruct env as [sup um dm ls]; cbn [acquires displayMediaSupported userMedia displayMedia liveSession succeeds];
  destruct sup; [destruct um as [n|e1]; [destruct dm as [k|e2]; [destruct ls as [[]|e3]|]|]|].

Lemma Tablet_start_fails env b c :
  acquires env = false ->
  let r := startSession env {| browser := b; cells := c |} in
  completion r = Normal tt /\
  status (cells (final r)) = disconnected /\
  isScreenSharing (cells (final r)) = false /\
  sessionRef (cells (final r)) = sessionRef c /\
  exists msg, errorMessage (cells (final r)) = Some msg /\ truthy msg = true.
Proof.
  intros Hf. cbn zeta. unfold startSession.
  destruct env as [sup um dm ls].
  cbn [acquires displayMediaSupported userMedia displayMedia liveSession] in Hf.
  unfold newAudioContext, fresh, await.
  destruct sup; [destruct um as [n|e1]; [destruct dm as [k|e2];
    [destruct ls as [[]|e3]; [discriminate Hf|] |] |] |];
    js_run; cbn [negb when displayMediaSupported userMedia displayMedia liveSession];
    js_run.
  - repeat split. eexists; split; [reflexivity|]. now apply truthy_or_default.
  - destruct (String.eqb (name e2) "NotAllowedError"); js_run;
      (repeat split; eexists; split; [reflexivity|]; reflexivity).
  - repeat split. eexists; split; [reflexivity|]. now apply truthy_or_default.
  - repeat split. eexists; split; [reflexivity|]. reflexivity.
Qed.

Lemma Tablet_start_succeeds env b c :
  acquires env = true ->
  let r := startSession env {| browser := b; cells := c |} in
  completion r = Normal tt /\
  status (cells (final r)) = connecting /\
  errorMessage (cells (final r)) = None /\
  exists s, sessionRef (cells (final r)) = Some s.
Proof.
  intros Hf. cbn zeta. unfold startSession.
  destruct env as [sup um dm ls].
  cbn [acquires displayMediaSupported userMedia displayMedia liveSession] in Hf.
  unfold newAudioContext, fresh, await.
  destruct sup; [destruct um as [n|e1]; [destruct dm as [k|e2];
    [destruct ls as [[]|e3]; [|discriminate Hf] |discriminate Hf]
    |discriminate Hf] |discriminate Hf].
  js_run. cbn [negb when displayMediaSupported userMedia displayMedia liveSession].
  js_run. repeat split. eexists; reflexivity.
Qed.

Lemma Tablet_start_frame env b c :
  transcriptions (cells (final (startSession env {| browser := b; cells := c |})))
  = transcriptions c.
Proof.
  unfold startSession.
  destruct env as [sup um dm ls].
  unfold newAudioContext, fresh, await.
  destruct sup; [destruct um as [n|e1]; [destruct dm as [k|e2];
    [destruct ls as [[]|e3] |] |] |];
    js_run; cbn [negb when displayMediaSupported userMedia displayMedia liveSession];
    js_run; try reflexivity.
  destruct (String.eqb (name e2) "NotAllowedError"); js_run; reflexivity.
Qed.

End TabletStart.

Section Outcomes.
Import Web.
Context {Cells : Type}.

Lemma final_andThen {A B} (o : Outcome Cells A) (f : A -> Js Cells B) :
  final (andThen o f) =
  match completion o with
  | Normal a => final (f a (final o))
  | Abrupt _ => final o
  end.
Proof.
  destruct o as [[a|e] m t]; cbn; [|reflexivity].
  destruct (f a m); reflexivity.
Qed.

Lemma sliceLast_length {A} n (l : list A) : (List.length (sliceLast n l) <= n)%nat.
Proof. unfold sliceLast. rewrite length_skipn. lia. Qed.

Lemma sliceLast_short {A} n (l : list A) :
  (List.length l <= n)%nat -> sliceLast n l = l.
Proof.
  intros H. unfold sliceLast. replace (List.length l - n)%nat with 0%nat by lia.
  reflexivity.
Qed.
End Outcomes.

Section TabletTranscript.
Import Web Tablet.

Lemma Tablet_play_frame now message b c :
  let r := playInboundAudio now message {| browser := b; cells := c |} in
  transcriptions (cells (final r)) = transcriptions c /\
  currentInputTranscriptionRef (cells (final r)) = currentInputTranscriptionRef c /\
  currentOutputTranscriptionRef (cells (final r)) = currentOutputTranscriptionRef c /\
  status (cells (final r)) = status c.
Proof.
  cbn zeta. unfold playInboundAudio. rewrite bind_run.
  destruct (inlineAudio message) as [e|[s|]]; js_run; try tauto.
  destruct (audioContextOutRef c) as [ctx|]; js_run; try tauto.
  destruct (truthy s); js_run; try tauto.
  destruct (decodePayload s 24000 1) as [e|buf]; unfold fresh; js_run; tauto.
Qed.

Lemma Tablet_onmessage_frame now message b c :
  let c' := cells (final (onmessage now message {| browser := b; cells := c |})) in
  transcriptions c' = transcriptions (noted now message c) /\
  currentInputTranscriptionRef c' = currentInputTranscriptionRef (noted now message c) /\
  currentOutputTranscriptionRef c' = currentOutputTranscriptionRef (noted now message c) /\
  status c' = status c.
Proof.
  cbn zeta. unfold onmessage. rewrite bind_run, Tablet_note_run.
  cbn [andThen]. 
  destruct (Tablet_play_frame now message b (noted now message c)) as (F1 & F2 & F3 & F4).
  destruct (Tablet_noted_frame now message c) as (Fst & _).
  rewrite bind_run.
  destruct (playInboundAudio now message _) as [[[]|e] [b1 c1] t] eqn:E;
    cbn [final cells] in F1, F2, F3, F4; cbn [andThen prepend app].
  - destruct (flag interrupted message); cbn [when].
    + rewrite Tablet_onInterrupt_run. cbn. rewrite F1, F2, F3, F4. tauto.
    + cbn. rewrite F1, F2, F3, F4. tauto.
  - cbn. rewrite F1, F2, F3, F4. tauto.
Qed.

Lemma Tablet_noted_bound now message c :
  (List.length (transcriptions c) <= 50)%nat ->
  (List.length (transcriptions (noted now message c)) <= 50)%nat.
Proof.
  intros H. unfold noted, flush, fragments.
  destruct (serverContent message) as [sc|]; [|exact H].
  destruct (outputTranscription sc), (inputTranscription sc),
    (turnComplete sc); cbn -[truthy sliceLast flushedEntries];
    repeat match goal with
           | |- context [truthy ?s || truthy ?t] =>
               destruct (truthy s || truthy t)
           end; cbn -[sliceLast flushedEntries];
    try exact H; apply sliceLast_length.
Qed.

Lemma Tablet_step_transcriptions ev b c :
  (List.length (transcriptions c) <= 50)%nat ->
  (List.length (transcriptions (cells (step {| browser := b; cells := c |} ev))) <= 50)%nat.
Proof.
  intros H. unfold step.
  destruct ev as [env| | |now message|e| |inputData|n]; cbn [handle].
  - now rewrite Tablet_start_frame.
  - now rewrite Tablet_stopSession_run.
  - unfold onopen, setInterval, fresh. js_run.
    destruct (audioContextInRef c); js_run; exact H.
  - destruct (Tablet_onmessage_frame now message b c) as (-> & _).
    now apply Tablet_noted_bound.
  - unfold onerror. js_run. now rewrite Tablet_stopSession_run.
  - unfold onclose. now rewrite Tablet_stopSession_run.
  - exact H.
  - exact H.
Qed.

Lemma Tablet_run_transcriptions evs : forall m,
  (List.length (transcriptions (cells m)) <= 50)%nat ->
  (List.length (transcriptions (cells (run evs m))) <= 50)%nat.
Proof.
  induction evs as [|ev evs IH]; intros m H; [exact H|].
  rewrite Tablet_run_cons. apply IH. destruct m as [b c].
  now apply Tablet_step_transcriptions.
Qed.

End TabletTranscript.

Section PhoneStart.
Import Web Phone.

Lemma Phone_start_fails env b c :
  acquires env = false ->
  let r := startSession env {| browser := b; cells := c |} in
  completion r = Normal tt /\
  status (cells (final r)) = disconnected /\
  sessionRef (cells (final r)) = sessionRef c /\
  exists msg, errorMessage (cells (final r)) = Some msg /\ truthy msg = true.
Proof.
  intros Hf. cbn zeta. unfold startSession.
  destruct env as [sus res um mix rec ls].
  cbn [acquires contextSuspended contextResume userMedia mixing mediaRecorder
       liveSession] in Hf.
  unfold newAudioContext, recorderStart, fresh, await.
  assert (T : forall e, exists msg,
             Some (if truthy (message e) then message e else "Access error"%string)
             = Some msg /\ truthy msg = true).
  { intros e. eexists; split; [reflexivity|]. now apply truthy_or_default. }
  destruct sus; [destruct res as [[]|e0]|];
    cbn [contextSuspended contextResume userMedia mixing mediaRecorder
         liveSession when]; js_run;
    try (repeat split; apply T);
    (destruct um as [n|e1]; js_run; [|repeat split; apply T]);
    (destruct rec as [[]|e2];
       [destruct ls as [[]|e3]; [discriminate Hf|]|]);
    destruct mix as [|e4|e4]; js_run; repeat split; apply T.
Qed.

End PhoneStart.

(** ** The order of teardown *)

Section Order.
Import Web.

Lemma steps_app t u : steps (t ++ u) = steps t ++ steps u.
Proof.
  induction t as [|e t IH]; [reflexivity|]. cbn. rewrite IH.
  destruct (stepOf e); reflexivity.
Qed.

Lemma nondecreasing_cons k l :
  Forall (le k) l -> nondecreasing l = true -> nondecreasing (k :: l) = true.
Proof.
  intros F N. destruct l as [|x l]; [reflexivity|].
  change (nondecreasing (k :: x :: l))
    with (Nat.leb k x && nondecreasing (x :: l))%bool.
  rewrite N. inversion F; subst.
  now rewrite (proj2 (Nat.leb_le k x)).
Qed.

Lemma orderedFrom_nil rank k : orderedFrom rank k [].
Proof. split; [reflexivity | constructor]. Qed.

Lemma orderedFrom_block rank s k t rest :
  Forall (fun e => stepOf e = Some s) t ->
  (k <= rank s)%nat ->
  orderedFrom rank (rank s) rest ->
  orderedFrom rank k (t ++ rest).
Proof.
  intros Ft Hk [N F]. unfold orderedFrom. rewrite steps_app, map_app.
  induction Ft as [|e t He Ft IH]; cbn [steps app map].
  - split; [exact N|]. eapply Forall_impl; [|exact F]. intros; lia.
  - rewrite He. cbn [app map]. destruct IH as [N' F']. split.
    + apply nondecreasing_cons; [|exact N'].
      clear - Ft F. induction Ft as [|e' t' He' Ft' IH']; cbn [steps app map].
      * exact F.
      * rewrite He'. cbn [app map]. constructor; [lia | exact IH'].
    + constructor; [exact Hk | exact F'].
Qed.

Lemma orderedFrom_inOrder rank k t : orderedFrom rank k t -> inOrder rank t = true.
Proof. now intros [N _]. Qed.

Lemma ifSet_one {A} (x : option A) (f : A -> Effect) s :
  (forall a, stepOf (f a) = Some s) ->
  Forall (fun e => stepOf e = Some s) (effectsIfSet x (fun a => [f a])).
Proof. intros H. destruct x; cbn; repeat constructor. apply H. Qed.

Lemma map_all {A} (l : list A) (f : A -> Effect) s :
  (forall a, stepOf (f a) = Some s) ->
  Forall (fun e => stepOf e = Some s) (map f l).
Proof. intros H. induction l; cbn; constructor; auto. Qed.

Lemma ifSet_tracks (x : option MediaStream) :
  Forall (fun e => stepOf e = Some ReleaseCapture) (effectsIfSet x (map TrackStop)).
Proof. destruct x; cbn; [now apply map_all | constructor]. Qed.

End Order.

Section TeardownOrder.
Import Web.

Lemma Tablet_stop_order (m : Tablet.State) :
  inOrder codeRank (trace (Tablet.stopSession m)) = true.
Proof.
  destruct m as [b c]. rewrite Tablet_stopSession_run. cbn [trace].
  apply (orderedFrom_inOrder _ 0).
  eapply (orderedFrom_block _ HaltFrameSampler); [now apply ifSet_one | cbn; lia |].
  eapply (orderedFrom_block _ DropChannel); [now apply ifSet_one | cbn; lia |].
  eapply (orderedFrom_block _ ReleaseCapture); [apply ifSet_tracks | cbn; lia |].
  eapply (orderedFrom_block _ ReleaseCapture); [apply ifSet_tracks | cbn; lia |].
  eapply (orderedFrom_block _ StopVoices); [now apply map_all | cbn; lia |].
  eapply (orderedFrom_block _ CloseContexts); [now apply ifSet_one | cbn; lia |].
  rewrite <- (app_nil_r (effectsIfSet _ _)).
  eapply (orderedFrom_block _ CloseContexts); [now apply ifSet_one | cbn; lia |].
  apply orderedFrom_nil.
Qed.

Lemma Phone_stop_order (m : Phone.State) :
  inOrder codeRank (trace (Phone.stopSession m)) = true.
Proof.
  destruct m as [b c]. rewrite Phone_stopSession_run. cbn [trace].
  apply (orderedFrom_inOrder _ 0).
  eapply (orderedFrom_block _ FinalizeRecording); [| cbn; lia |].
  { destruct (Phone.mediaRecorderRef c) as [r|]; cbn; [|constructor].
    destruct (member r (recording b)); repeat constructor. }
  eapply (orderedFrom_block _ HaltFrameSampler); [now apply ifSet_one | cbn; lia |].
  eapply (orderedFrom_block _ DropChannel); [now apply ifSet_one | cbn; lia |].
  eapply (orderedFrom_block _ ReleaseCapture); [apply ifSet_tracks | cbn; lia |].
  eapply (orderedFrom_block _ StopVoices); [now apply map_all | cbn; lia |].
  rewrite <- (app_nil_r (effectsIfSet _ _)).
  eapply (orderedFrom_block _ CloseContexts); [now apply ifSet_one | cbn; lia |].
  apply orderedFrom_nil.
Qed.

End TeardownOrder.

(* ================================================================== *)
(** * Part III: the specification's claims *)
(* ================================================================== *)

Section CodecClaims.
Import Web Scenario.

(** Claim C6.  For every byte buffer [b], zero bytes and the whole byte
    range included, decoding the transport text of [b] gives [b] back. *)
Theorem transport_text_roundtrip (b : list byte) :
  Codec.decode (Codec.encode b) = Some b.
Proof. apply decode_encode. Qed.

(** Claim C7.  The capture encoder sends, for every block of samples, the
    transport text of its PCM16 encoding; every sample is scaled by 32768
    and truncated toward zero into a signed 16-bit integer, with nothing
    added and no clamping: the result is the truncated product itself
    when that fits in 16 bits (in particular for samples in [-1, 1)), and
    otherwise the integer of the 16-bit range congruent to it modulo
    2^16, which for products in [32768, 65535] is negative and differs
    from the clamped value. *)
Theorem pcm16_truncates_and_wraps (inputData : list Codec.Float) i x :
  nth_error inputData i = Some x ->
  (forall m : Tablet.State,
     trace (Tablet.onaudioprocess inputData m) =
     [SendRealtimeInput
        {| data := Codec.encode (Codec.pcm_bytes (Codec.toPCM16 inputData));
           mimeType := "audio/pcm;rate=16000" |}]) /\
  (forall m : Phone.State,
     trace (Phone.onaudioprocess inputData m) =
     [SendRealtimeInput
        {| data := Codec.encode (Codec.pcm_bytes (Codec.toPCM16 inputData));
           mimeType := "audio/pcm;rate=44100" |}]) /\
  List.length (Codec.toPCM16 inputData) = List.length inputData /\
  exists v,
    nth_error (Codec.toPCM16 inputData) i = Some v /\
    -32768 <= v <= 32767 /\
    match x with
    | Codec.Finite q =>
        let t := Codec.truncate (q * 32768) in
        (0 <= q -> inject_Z t <= q * 32768 /\ q * 32768 < inject_Z (t + 1))%Q /\
        (q <= 0 -> q * 32768 <= inject_Z t /\ inject_Z (t - 1) < q * 32768)%Q /\
        (v - t) mod 65536 = 0 /\
        (-32768 <= t <= 32767 -> v = t) /\
        ((-1 <= q)%Q -> (q < 1)%Q -> v = t) /\
        (32768 <= t <= 65535 -> v = t - 65536 /\ v <> Codec.clamp16 t)
    | Codec.NaN | Codec.Infinity _ => v = 0
    end.
Proof.
  intros Hx. split; [reflexivity|]. split; [reflexivity|].
  split; [apply length_map|].
  exists (Codec.ToInt16 (Codec.scale x)). split.
  { unfold Codec.toPCM16. now rewrite nth_error_map, Hx. }
  split; [apply ToInt16_range|].
  destruct x as [q| |s]; cbn [Codec.scale]; try reflexivity.
  cbv zeta.
  destruct (truncate_toward_zero (q * 32768)) as [P N].
  split; [intros H; apply P; rewrite <- (Qmult_0_l 32768);
          apply Qmult_le_compat_r; [exact H | discriminate]|].
  split; [intros H; apply N; rewrite <- (Qmult_0_l 32768);
          apply Qmult_le_compat_r; [exact H | discriminate]|].
  split; [apply ToInt16_congruent|].
  split; [apply ToInt16_exact|].
  split; [intros Hlo Hhi; apply ToInt16_exact;
          now apply truncate_scale_in_range|].
  intros H. rewrite (ToInt16_wraps _ H). split; [reflexivity|].
  unfold Codec.clamp16. lia.
Qed.

Lemma pcm16_truncates_and_wraps_witness :
  nth_error [Codec.Finite 1; Codec.Finite (1 # 2)] 0 = Some (Codec.Finite 1) /\
  exists v,
    nth_error (Codec.toPCM16 [Codec.Finite 1; Codec.Finite (1 # 2)]) 0 = Some v /\
    v = -32768.
Proof.
  split; [reflexivity|].
  destruct (pcm16_truncates_and_wraps
              [Codec.Finite 1; Codec.Finite (1 # 2)] 0 (Codec.Finite 1) eq_refl)
    as (_ & _ & _ & v & Hv & _ & _ & _ & _ & _ & _ & Hw).
  exists v. split; [exact Hv|].
  apply Hw. vm_compute. split; discriminate.
Defined.

(** Claim C3.  For every in-flight voice set, empty, singleton or larger,
    whatever the progress of its voices, the interrupt handler calls stop
    on every voice in order, swallows every stop error, and completes
    normally with the in-flight set empty and the watermark at zero; in
    both components. *)
Theorem interrupt_clears_voices :
  (forall m : Tablet.State,
     let r := Tablet.onInterrupt m in
     completion r = Normal tt /\
     trace r = map (fun v => SourceStop (source v))
                   (Tablet.audioSourcesRef (cells m)) /\
     Tablet.audioSourcesRef (cells (final r)) = [] /\
     Tablet.nextStartTimeRef (cells (final r)) = 0%Q) /\
  (forall m : Phone.State,
     let r := Phone.onInterrupt m in
     completion r = Normal tt /\
     trace r = map (fun v => SourceStop (source v))
                   (Phone.audioSourcesRef (cells m)) /\
     Phone.audioSourcesRef (cells (final r)) = [] /\
     Phone.nextStartTimeRef (cells (final r)) = 0%Q).
Proof.
  split; intros [b c]; cbv zeta.
  - rewrite Tablet_onInterrupt_run. cbn. tauto.
  - rewrite Phone_onInterrupt_run. cbn. tauto.
Qed.

End CodecClaims.

Section LifecycleClaims.
Import Web Scenario.

(** Claim C1, as stated, fails: when the screen capture is refused the
    status ends in [disconnected], not [error], and the two audio contexts
    and the microphone track acquired before the refusal stay open. *)
Lemma start_failure_counterexample :
  Tablet.acquires screenDenied = false /\
  Tablet.status (cells tabletFailed) = disconnected /\
  Tablet.unreleased tabletFailed = [1; 2; 3]%positive /\
  ~ (Tablet.status (cells tabletFailed) = error /\
     Tablet.unreleased tabletFailed = []).
Proof.
  split; [reflexivity|]. split; [reflexivity|]. split; [reflexivity|].
  intros [H _]. vm_compute in H. discriminate H.
Qed.

(** Claim C1, amended.  For every invocation of start in which an
    acquisition fails, whatever the state it starts from, the callback
    completes without rethrowing, the status ends in [disconnected], a
    non-empty error message is stored for the caller and the channel
    handle reference is left as it was; in both components. *)
Theorem start_failure_surfaces_error :
  (forall env (m : Tablet.State),
     Tablet.acquires env = false ->
     let r := Tablet.startSession env m in
     completion r = Normal tt /\
     Tablet.status (cells (final r)) = disconnected /\
     Tablet.isScreenSharing (cells (final r)) = false /\
     Tablet.sessionRef (cells (final r)) = Tablet.sessionRef (cells m) /\
     exists msg, Tablet.errorMessage (cells (final r)) = Some msg /\
                 truthy msg = true) /\
  (forall env (m : Phone.State),
     Phone.acquires env = false ->
     let r := Phone.startSession env m in
     completion r = Normal tt /\
     Phone.status (cells (final r)) = disconnected /\
     Phone.sessionRef (cells (final r)) = Phone.sessionRef (cells m) /\
     exists msg, Phone.errorMessage (cells (final r)) = Some msg /\
                 truthy msg = true).
Proof.
  split; intros env [b c] H.
  - exact (Tablet_start_fails env b c H).
  - exact (Phone_start_fails env b c H).
Qed.

Lemma start_failure_surfaces_error_witness :
  Tablet.acquires screenDenied = false /\
  Tablet.status (cells (final (Tablet.startSession screenDenied Tablet.initial)))
  = disconnected.
Proof.
  split; [reflexivity|].
  exact (proj1 (proj2 (proj1 start_failure_surfaces_error screenDenied
                         Tablet.initial eq_refl))).
Defined.

(** Claim C4, as stated, fails: after a start that failed at the screen
    capture the status is [disconnected], yet stop is not a no-op there: it
    stops the microphone track and closes the contexts. *)
Lemma stop_while_disconnected_counterexample :
  Tablet.status (cells tabletFailed) = disconnected /\
  Tablet.step tabletFailed Tablet.Stop <> tabletFailed.
Proof.
  split; [reflexivity|]. intros H.
  apply (f_equal (fun m => Tablet.streamRef (cells m))) in H.
  vm_compute in H. discriminate H.
Qed.

(** Claim C4, amended.  Stop is idempotent: for every state, stopping
    twice in a row ends in the same state (every cell and every browser
    object) as stopping once, so that stop on a session it has already
    torn down is a no-op; and stop on a component that was never started
    is a no-op; in both components. *)
Theorem stop_idempotent :
  (forall m : Tablet.State,
     final (Tablet.stopSession (final (Tablet.stopSession m)))
     = final (Tablet.stopSession m)) /\
  (forall m : Phone.State,
     final (Phone.stopSession (final (Phone.stopSession m)))
     = final (Phone.stopSession m)) /\
  final (Tablet.stopSession Tablet.initial) = Tablet.initial /\
  final (Phone.stopSession Phone.initial) = Phone.initial.
Proof.
  split; [exact Tablet_stop_twice|]. split; [exact Phone_stop_twice|].
  split; reflexivity.
Qed.

(** The phone component nulls its context reference in [stopSession], so a
    stray inbound-audio callback after teardown does nothing. *)
Lemma Phone_stray_audio_noop (m : Phone.State) now message :
  let stopped := final (Phone.stopSession m) in
  let r := Phone.playInboundAudio now message stopped in
  trace r = [] /\ final r = stopped.
Proof.
  destruct m as [b c]. cbv zeta. rewrite Phone_stopSession_run. cbn [final].
  rewrite Phone_play_no_context by reflexivity.
  destruct (inlineAudio message); cbn; tauto.
Qed.

(** Claim C5, at the failing input: the tablet component closes its output
    context in [stopSession] but keeps the reference, so an inbound-audio
    callback after teardown passes the guard, builds a source node on the
    closed context, starts it and adds it to the in-flight set. *)
Theorem tablet_stray_audio_after_stop :
  let stopped := Tablet.run [Tablet.Stop] tabletLive in
  let r := Tablet.onmessage (at_ 0) (audioMessage silence) stopped in
  Tablet.status (cells stopped) = disconnected /\
  openContexts (browser stopped) = [] /\
  Tablet.audioContextOutRef (cells stopped) = Some 2%positive /\
  trace r = [CreateBufferSource 2 7; ConnectDestination 7 2;
             SourceStart 7 0]%positive /\
  map source (Tablet.audioSourcesRef (cells (final r))) = [7%positive].
Proof. vm_compute. repeat split. Qed.

(** Claim C8, as stated, fails: on a live session with voices in flight
    the capture tracks are stopped before the voices, not after, and no
    step halts the capture encoder. *)
Lemma teardown_order_counterexample :
  let m := Tablet.run (map Tablet.arrive burst) tabletLive in
  steps (trace (Tablet.stopSession m)) =
    [HaltFrameSampler; DropChannel; ReleaseCapture; ReleaseCapture;
     StopVoices; StopVoices; StopVoices; CloseContexts; CloseContexts] /\
  inOrder specRank (trace (Tablet.stopSession m)) = false.
Proof. vm_compute. split; reflexivity. Qed.

(** Claim C8, amended.  For every state, stop completes normally and
    performs, in this order: (phone only: stop the recorder if it is
    recording;) clear the frame timer; drop the channel handle; stop the
    tracks of every capture stream; call stop on every in-flight voice,
    swallowing stop errors, and clear the set; close the audio contexts;
    set the status to [disconnected].  Each step runs exactly when its
    reference is set, whatever the voices' stop calls did. *)
Theorem teardown_order :
  (forall m : Tablet.State,
     let r := Tablet.stopSession m in
     let c := cells m in
     completion r = Normal tt /\
     inOrder codeRank (trace r) = true /\
     trace r =
       effectsIfSet (Tablet.frameIntervalRef c) (fun h => [ClearInterval h])
       ++ effectsIfSet (Tablet.sessionRef c) (fun s => [DropSession s])
       ++ effectsIfSet (Tablet.streamRef c) (map TrackStop)
       ++ effectsIfSet (Tablet.screenStreamRef c) (map TrackStop)
       ++ map (fun v => SourceStop (source v)) (Tablet.audioSourcesRef c)
       ++ effectsIfSet (Tablet.audioContextInRef c) (fun h => [ContextClose h])
       ++ effectsIfSet (Tablet.audioContextOutRef c) (fun h => [ContextClose h]) /\
     Tablet.frameIntervalRef (cells (final r)) = None /\
     Tablet.sessionRef (cells (final r)) = None /\
     Tablet.streamRef (cells (final r)) = None /\
     Tablet.screenStreamRef (cells (final r)) = None /\
     Tablet.audioSourcesRef (cells (final r)) = [] /\
     Tablet.status (cells (final r)) = disconnected) /\
  (forall m : Phone.State,
     let r := Phone.stopSession m in
     let c := cells m in
     completion r = Normal tt /\
     inOrder codeRank (trace r) = true /\
     trace r =
       effectsIfSet (Phone.mediaRecorderRef c)
         (fun h => if member h (recording (browser m))
                   then [RecorderStop h] else [])
       ++ effectsIfSet (Phone.frameIntervalRef c) (fun h => [ClearInterval h])
       ++ effectsIfSet (Phone.sessionRef c) (fun s => [DropSession s])
       ++ effectsIfSet (Phone.mediaStreamRef c) (map TrackStop)
       ++ map (fun v => SourceStop (source v)) (Phone.audioSourcesRef c)
       ++ effectsIfSet (Phone.audioContextRef c) (fun h => [ContextClose h]) /\
     Phone.frameIntervalRef (cells (final r)) = None /\
     Phone.sessionRef (cells (final r)) = None /\
     Phone.mediaStreamRef (cells (final r)) = None /\
     Phone.audioSourcesRef (cells (final r)) = [] /\
     Phone.audioContextRef (cells (final r)) = None /\
     Phone.status (cells (final r)) = disconnected).
Proof.
  split; intros m; cbv zeta.
  - split; [|split; [apply Tablet_stop_order|]];
      destruct m as [b c]; rewrite Tablet_stopSession_run; cbn; tauto.
  - split; [|split; [apply Phone_stop_order|]];
      destruct m as [b c]; rewrite Phone_stopSession_run; cbn; tauto.
Qed.

End LifecycleClaims.

Section SchedulerClaims.
Import Web Scenario.

(** Claim C2, as stated, fails: of two chunks of one frame each, the
    second arriving when the device clock reads 1 s, the second voice starts
    at 1 s and not at the end of the first voice, 1/24000 s. *)
Lemma late_chunk_counterexample :
  Forall (fun a => carries (chunk a) (decoded a)) late /\
  map scheduledStart
    (Tablet.audioSourcesRef
       (cells (Tablet.run (map Tablet.arrive late) tabletLive)))
  = [0; 1]%Q /\
  backToBack (anchor 0 late) (map (fun a => duration (decoded a)) late)
  = [Qmax 0 0; Qmax 0 0 + (1 # 24000)]%Q /\
  ~ Forall2 Qeq [0; 1]%Q [Qmax 0 0; Qmax 0 0 + (1 # 24000)]%Q.
Proof.
  split.
  { repeat constructor; exists silence; repeat split; reflexivity. }
  split; [reflexivity|]. split; [reflexivity|].
  intros H. inversion H as [|? ? ? ? _ H']; subst.
  inversion H' as [|? ? ? ? E _]; subst.
  vm_compute in E. discriminate E.
Qed.

(** Claim C2, amended.  For every sequence of N inbound audio chunks
    processed with no interruption, from any state with an output context,
    N voices are added to the in-flight set in arrival order, each with the
    buffer of its chunk; each starts at the later of the watermark and the
    device clock read at its arrival, hence never before that clock and
    never before the end of the voice before it (no overlap).  When no
    chunk after the first arrives after the device clock has passed the
    watermark, the start times are t, t+d1, t+d1+d2, ... with t the
    watermark re-anchored at the first chunk; a chunk that arrives later
    than that starts at the device clock, after a gap.  (In the phone
    component the recording mixer, if any, must belong to the current
    context.) *)
Theorem schedule_back_to_back (arrivals : list Arrival) :
  Forall (fun a => carries (chunk a) (decoded a)) arrivals ->
  (forall b c ctx,
     Tablet.audioContextOutRef c = Some ctx ->
     let m' := Tablet.run (map Tablet.arrive arrivals)
                 {| browser := b; cells := c |} in
     Tablet.status (cells m') = Tablet.status c /\
     exists vs,
       Tablet.audioSourcesRef (cells m') = Tablet.audioSourcesRef c ++ vs /\
       map buffer vs = map decoded arrivals /\
       Forall2 (fun v a => currentTime (clock a) <= scheduledStart v)%Q
         vs arrivals /\
       noOverlap vs /\
       (noUnderrun (Tablet.nextStartTimeRef c) arrivals ->
        Forall2 Qeq (map scheduledStart vs)
          (backToBack (anchor (Tablet.nextStartTimeRef c) arrivals)
             (map (fun a => duration (decoded a)) arrivals)))) /\
  (forall b c ctx,
     Phone.audioContextRef c = Some ctx ->
     Phone.mixerFits c = true ->
     let m' := Phone.run (map Phone.arrive arrivals)
                 {| browser := b; cells := c |} in
     Phone.status (cells m') = Phone.status c /\
     exists vs,
       Phone.audioSourcesRef (cells m') = Phone.audioSourcesRef c ++ vs /\
       map buffer vs = map decoded arrivals /\
       Forall2 (fun v a => currentTime (clock a) <= scheduledStart v)%Q
         vs arrivals /\
       noOverlap vs /\
       (noUnderrun (Phone.nextStartTimeRef c) arrivals ->
        Forall2 Qeq (map scheduledStart vs)
          (backToBack (anchor (Phone.nextStartTimeRef c) arrivals)
             (map (fun a => duration (decoded a)) arrivals)))).
Proof.
  intros Hall. split.
  - intros b c ctx Hctx. cbv zeta.
    destruct (Tablet_schedule arrivals b c ctx Hctx Hall) as (Hst & vs & Hs & Hv).
    split; [exact Hst|]. exists vs. split; [exact Hs|].
    split; [exact (scheduledFrom_buffers _ _ _ Hv)|].
    split; [exact (scheduledFrom_after_clock _ _ _ Hv)|].
    split; [exact (scheduledFrom_noOverlap _ _ _ Hv)|].
    intros Hu. exact (scheduledFrom_backToBack _ _ _ Hu Hv).
  - intros b c ctx Hctx Hfit. cbv zeta.
    destruct (Phone_schedule arrivals b c ctx Hctx Hfit Hall)
      as (Hst & vs & Hs & Hv).
    split; [exact Hst|]. exists vs. split; [exact Hs|].
    split; [exact (scheduledFrom_buffers _ _ _ Hv)|].
    split; [exact (scheduledFrom_after_clock _ _ _ Hv)|].
    split; [exact (scheduledFrom_noOverlap _ _ _ Hv)|].
    intros Hu. exact (scheduledFrom_backToBack _ _ _ Hu Hv).
Qed.

Lemma burst_carries : Forall (fun a => carries (chunk a) (decoded a)) burst.
Proof. repeat constructor; exists silence; repeat split; reflexivity. Qed.

Lemma burst_on_time : noUnderrun 0 burst.
Proof. cbn. repeat split; discriminate. Qed.

Lemma schedule_back_to_back_witness :
  Forall (fun a => carries (chunk a) (decoded a)) burst /\
  noUnderrun 0 burst /\
  exists vs,
    Tablet.audioSourcesRef
      (cells (Tablet.run (map Tablet.arrive burst)
                {| browser := browser tabletLive; cells := cells tabletLive |}))
    = Tablet.audioSourcesRef (cells tabletLive) ++ vs /\
    Forall2 Qeq (map scheduledStart vs)
      (backToBack (anchor 0 burst)
         (map (fun a => duration (decoded a)) burst)).
Proof.
  split; [exact burst_carries|]. split; [exact burst_on_time|].
  destruct (proj1 (schedule_back_to_back burst burst_carries)
              (browser tabletLive) (cells tabletLive) 2%positive eq_refl)
    as (_ & vs & Hs & _ & _ & _ & Hb).
  exists vs. split; [exact Hs|]. exact (Hb burst_on_time).
Defined.

(** A payload whose byte length is not a multiple of 2 does not decode. *)
Lemma odd_length_malformed message base64Audio bytes :
  inlineAudio message = inr (Some base64Audio) ->
  truthy base64Audio = true ->
  Codec.decode base64Audio = Some bytes ->
  (List.length bytes mod 2 <> 0)%nat ->
  malformed message DecodeError.
Proof.
  intros Hin Ht Hd Ho. exists base64Audio. repeat split; try assumption.
  unfold decodePayload. rewrite Hd. unfold decodeAudioData.
  change (1 * 2)%nat with 2%nat.
  destruct (Nat.eqb_spec (List.length bytes mod 2) 0) as [E|E];
    [contradiction | reflexivity].
Qed.

(** Claim C9.  For every inbound message whose audio payload does not
    decode (for instance one whose byte length is odd), delivered to a
    connected session, the callback ends with the decoder's exception as
    a rejected promise and nothing else: no browser call is made, no
    source node is created or started, the in-flight set is unchanged, the
    watermark is only re-anchored to the device clock (no duration is
    added) and the status stays [connected]; in both components. *)
Theorem malformed_chunk_dropped now message e :
  malformed message e ->
  (forall b c ctx,
     Tablet.audioContextOutRef c = Some ctx ->
     Tablet.status c = connected ->
     let r := Tablet.onmessage now message {| browser := b; cells := c |} in
     completion r = Abrupt e /\
     trace r = [] /\
     browser (final r) = b /\
     Tablet.status (cells (final r)) = connected /\
     Tablet.audioSourcesRef (cells (final r)) = Tablet.audioSourcesRef c /\
     Tablet.nextStartTimeRef (cells (final r))
     = Qmax (Tablet.nextStartTimeRef c) (currentTime now)) /\
  (forall b c ctx,
     Phone.audioContextRef c = Some ctx ->
     Phone.status c = connected ->
     let r := Phone.onmessage now message {| browser := b; cells := c |} in
     completion r = Abrupt e /\
     trace r = [] /\
     browser (final r) = b /\
     Phone.status (cells (final r)) = connected /\
     Phone.audioSourcesRef (cells (final r)) = Phone.audioSourcesRef c /\
     Phone.nextStartTimeRef (cells (final r))
     = Qmax (Phone.nextStartTimeRef c) (currentTime now)).
Proof.
  intros Hm. split; intros b c ctx Hctx Hst; cbv zeta.
  - destruct (Tablet_noted_frame now message c) as (Fst & Fctx & Fnext & Fsrc).
    unfold Tablet.onmessage. rewrite bind_run, Tablet_note_run.
    cbn [andThen prepend].
    rewrite bind_run, (Tablet_play_malformed now message e ctx) by congruence.
    cbn. rewrite Fst, Fnext, Fsrc. tauto.
  - unfold Phone.onmessage.
    rewrite bind_run, (Phone_play_malformed now message e ctx) by assumption.
    cbn. tauto.
Qed.

Lemma odd_payload_malformed : malformed (audioMessage oddPayload) DecodeError.
Proof.
  apply (odd_length_malformed _ oddPayload [x00]);
    try reflexivity. discriminate.
Qed.

Lemma malformed_chunk_dropped_witness :
  malformed (audioMessage oddPayload) DecodeError /\
  Tablet.audioContextOutRef (cells tabletLive) = Some 2%positive /\
  Tablet.status (cells tabletLive) = connected /\
  Tablet.status
    (cells (final (Tablet.onmessage (at_ 0) (audioMessage oddPayload)
                     {| browser := browser tabletLive;
                        cells := cells tabletLive |})))
  = connected.
Proof.
  split; [exact odd_payload_malformed|]. split; [reflexivity|].
  split; [reflexivity|].
  exact (proj1 (proj2 (proj2 (proj2
    (proj1 (malformed_chunk_dropped (at_ 0) (audioMessage oddPayload)
              DecodeError odd_payload_malformed)
       (browser tabletLive) (cells tabletLive) 2%positive
       eq_refl eq_refl))))).
Defined.

(** Claim C10.  The visible transcription list never exceeds 50 entries,
    whatever happens to the component; a message with [turnComplete]
    appends the accumulated user fragment and then the accumulated model
    fragment (this message's fragment included), each only if not empty,
    keeps the last 50 entries and empties both accumulators; with both
    accumulators empty the list is left unchanged. *)
Theorem transcriptions_bounded now message sc b c :
  serverContent message = Some sc ->
  turnComplete sc = true ->
  (forall evs,
     (List.length (Tablet.transcriptions (cells (Tablet.run evs Tablet.initial)))
      <= 50)%nat) /\
  let uTrans := Tablet.currentInputTranscriptionRef (Tablet.fragments sc c) in
  let mTrans := Tablet.currentOutputTranscriptionRef (Tablet.fragments sc c) in
  let c' := cells (final (Tablet.onmessage now message
                            {| browser := b; cells := c |})) in
  Tablet.transcriptions c' =
    (if truthy uTrans || truthy mTrans
     then sliceLast 50
            (Tablet.transcriptions c ++ Tablet.flushedEntries now uTrans mTrans)
     else Tablet.transcriptions c) /\
  Tablet.currentInputTranscriptionRef c' = ""%string /\
  Tablet.currentOutputTranscriptionRef c' = ""%string /\
  ((List.length (Tablet.transcriptions c) <= 50)%nat ->
   (List.length (Tablet.transcriptions c') <= 50)%nat).
Proof.
  intros Hsc Htc. split.
  { intros evs. apply Tablet_run_transcriptions. cbn. lia. }
  cbv zeta.
  destruct (Tablet_onmessage_frame now message b c) as (-> & -> & -> & _).
  split; [|split; [|split]].
  - unfold Tablet.noted. rewrite Hsc, Htc. unfold Tablet.flush.
    assert (T : Tablet.transcriptions (Tablet.fragments sc c)
                = Tablet.transcriptions c).
    { unfold Tablet.fragments.
      destruct (outputTranscription sc), (inputTranscription sc); reflexivity. }
    destruct (truthy _ || truthy _)%bool; cbn -[sliceLast Tablet.flushedEntries];
      now rewrite T.
  - unfold Tablet.noted. rewrite Hsc, Htc. reflexivity.
  - unfold Tablet.noted. rewrite Hsc, Htc. reflexivity.
  - apply Tablet_noted_bound.
Qed.

Lemma transcriptions_bounded_witness :
  serverContent (userTurn "hi") = Some
    {| outputTranscription := None;
       inputTranscription := Some {| transcriptionText := Some "hi"%string |};
       turnComplete := true; modelTurn := None; interrupted := false |} /\
  Tablet.transcriptions
    (cells (final (Tablet.onmessage (at_ 0) (userTurn "hi")
                     {| browser := browser tabletLive;
                        cells := cells tabletLive |})))
  = [{| role := user; text := "hi"; timestamp := 0 |}].
Proof.
  split; [reflexivity|].
  rewrite (proj1 (proj2 (transcriptions_bounded (at_ 0) (userTurn "hi") _
                           (browser tabletLive) (cells tabletLive)
                           eq_refl eq_refl))).
  reflexivity.
Defined.

End SchedulerClaims.

(* ================================================================== *)
(** * Part IV: the session engine at large *)
(* ================================================================== *)

(** Properties of the code around the specification's claims: the whole
    life of a session, its edges and its failures, the transcript, the
    capture encoder, the frame sampler, the recorder and the
    visualizer. *)

Section Grants.
Import Web.

Lemma grantTracks_fields n : forall b,
  List.length (fst (grantTracks n b)) = n /\
  liveTracks (snd (grantTracks n b)) = liveTracks b ++ fst (grantTracks n b) /\
  openContexts (snd (grantTracks n b)) = openContexts b /\
  activeTimers (snd (grantTracks n b)) = activeTimers b /\
  recording (snd (grantTracks n b)) = recording b /\
  endedSources (snd (grantTracks n b)) = endedSources b.
Proof.
  induction n as [|n IH]; intros b.
  - cbn. rewrite app_nil_r. tauto.
  - cbn [grantTracks fst snd]. cbv zeta.
    destruct (IH {| nextHandle := Pos.succ (nextHandle b);
                    openContexts := openContexts b;
                    liveTracks := liveTracks b ++ [nextHandle b];
                    activeTimers := activeTimers b;
                    recording := recording b;
                    endedSources := endedSources b |})
      as (L & T & O & A & R & E).
    cbn [fst snd List.length]. rewrite L, T, O, A, R, E. cbn.
    rewrite <- app_assoc. tauto.
Qed.

Lemma grantTracks_fresh n : forall b,
  (nextHandle b <= nextHandle (snd (grantTracks n b)))%positive /\
  forall h, In h (fst (grantTracks n b)) ->
            (nextHandle b <= h < nextHandle (snd (grantTracks n b)))%positive.
Proof.
  induction n as [|n IH]; intros b.
  - cbn. split; [lia | tauto].
  - cbn [grantTracks fst snd]. cbv zeta.
    destruct (IH {| nextHandle := Pos.succ (nextHandle b);
                    openContexts := openContexts b;
                    liveTracks := liveTracks b ++ [nextHandle b];
                    activeTimers := activeTimers b;
                    recording := recording b;
                    endedSources := endedSources b |}) as [L R].
    cbn [nextHandle] in L, R. split; [lia|].
    intros h [<-|H]; [lia|]. specialize (R h H). lia.
Qed.

Lemma In_without h x l : In h (without x l) <-> In h l /\ h <> x.
Proof.
  unfold without. rewrite filter_In, negb_true_iff, Pos.eqb_neq. tauto.
Qed.

Lemma liveTracks_endTracks ts : forall b h,
  In h (liveTracks (endTracks ts b)) <-> In h (liveTracks b) /\ ~ In h ts.
Proof.
  induction ts as [|t ts IH]; intros b h; cbn [endTracks].
  - cbn. tauto.
  - rewrite IH. cbn [liveTracks]. rewrite In_without. cbn. intuition congruence.
Qed.

End Grants.

Section StartSuccess.
Import Web Scenario.

Lemma Tablet_start_fields env b c n k :
  Tablet.displayMediaSupported env = true ->
  Tablet.userMedia env = Fulfilled n ->
  Tablet.displayMedia env = Fulfilled k ->
  Tablet.liveSession env = Fulfilled tt ->
  let r := Tablet.startSession env {| browser := b; cells := c |} in
  let cin := nextHandle b in
  let cout := Pos.succ (nextHandle b) in
  completion r = Normal tt /\
  trace r = [NewAudioContext cin 16000; NewAudioContext cout 24000;
             GetUserMedia; GetDisplayMedia; LiveConnect] /\
  Tablet.status (cells (final r)) = connecting /\
  Tablet.errorMessage (cells (final r)) = None /\
  Tablet.isScreenSharing (cells (final r)) = true /\
  Tablet.audioContextInRef (cells (final r)) = Some cin /\
  Tablet.audioContextOutRef (cells (final r)) = Some cout /\
  Tablet.frameIntervalRef (cells (final r)) = Tablet.frameIntervalRef c /\
  Tablet.nextStartTimeRef (cells (final r)) = Tablet.nextStartTimeRef c /\
  Tablet.audioSourcesRef (cells (final r)) = Tablet.audioSourcesRef c /\
  exists mic screen session,
    Tablet.streamRef (cells (final r)) = Some mic /\
    Tablet.screenStreamRef (cells (final r)) = Some screen /\
    Tablet.sessionRef (cells (final r)) = Some session /\
    List.length mic = n /\ List.length screen = k /\
    openContexts (browser (final r)) = openContexts b ++ [cin; cout] /\
    liveTracks (browser (final r)) = liveTracks b ++ mic ++ screen /\
    activeTimers (browser (final r)) = activeTimers b.
Proof.
  intros Hs Hu Hd Hl. cbv zeta. unfold Tablet.startSession.
  rewrite Hs, Hu, Hd, Hl. unfold newAudioContext, fresh, Tablet.await.
  js_run.
  repeat (split; [reflexivity|]).
  match goal with
  | |- context [grantTracks k (snd (grantTracks n ?b2))] =>
      destruct (grantTracks_fields n b2) as (Ln & Tn & On & An & _);
      destruct (grantTracks_fields k (snd (grantTracks n b2)))
        as (Lk & Tk & Ok & Ak & _);
      exists (fst (grantTracks n b2)),
             (fst (grantTracks k (snd (grantTracks n b2))))
  end.
  eexists. repeat (split; [reflexivity|]).
  split; [exact Ln|]. split; [exact Lk|].
  rewrite Ok, On, Tk, Tn, Ak, An. cbn. rewrite <- !app_assoc. repeat split.
Qed.



End StartSuccess.

Section TabletLifetime.
Import Web Lifetime Scenario Walkthrough.

Lemma tabletSameResources_refl m : tabletSameResources m m.
Proof. unfold tabletSameResources. tauto. Qed.

Lemma tabletSameResources_trans m1 m2 m3 :
  tabletSameResources m1 m2 -> tabletSameResources m2 m3 ->
  tabletSameResources m1 m3.
Proof.
  unfold tabletSameResources. intros H1 H2.
  repeat match goal with H : _ /\ _ |- _ => destruct H end.
  repeat split; congruence.
Qed.

Lemma Tablet_noted_resources now message b c :
  tabletSameResources {| browser := b; cells := c |}
    {| browser := b; cells := Tablet.noted now message c |}.
Proof.
  unfold tabletSameResources, Tablet.noted, Tablet.flush, Tablet.fragments.
  destruct (serverContent message) as [sc|]; [|cbn; tauto].
  destruct (outputTranscription sc), (inputTranscription sc),
    (turnComplete sc); cbn -[truthy sliceLast];
    repeat match goal with
           | |- context [truthy ?s] => destruct (truthy s)
           end; cbn; tauto.
Qed.

Lemma Tablet_play_resources now message b c :
  tabletSameResources {| browser := b; cells := c |}
    (final (Tablet.playInboundAudio now message {| browser := b; cells := c |})).
Proof.
  unfold tabletSameResources, Tablet.playInboundAudio. rewrite bind_run.
  destruct (inlineAudio message) as [e|[s|]]; js_run; try tauto.
  destruct (Tablet.audioContextOutRef c) as [ctx|] eqn:E; js_run;
    rewrite ?E; try tauto.
  destruct (truthy s); js_run; rewrite ?E; try tauto.
  destruct (decodePayload s 24000 1) as [e|buf]; unfold fresh; js_run;
    rewrite ?E; tauto.
Qed.

Lemma Tablet_interrupt_resources b c :
  tabletSameResources {| browser := b; cells := c |}
    (final (Tablet.onInterrupt {| browser := b; cells := c |})).
Proof.
  rewrite Tablet_onInterrupt_run. unfold tabletSameResources. cbn.
  destruct (endVoices_fields (Tablet.audioSourcesRef c) b)
    as (_ & -> & -> & -> & _). tauto.
Qed.

Lemma Tablet_onmessage_resources now message m :
  tabletSameResources m (final (Tablet.onmessage now message m)).
Proof.
  destruct m as [b c]. unfold Tablet.onmessage.
  rewrite bind_run, Tablet_note_run. cbn [andThen].
  pose proof (Tablet_noted_resources now message b c) as N.
  pose proof (Tablet_play_resources now message b (Tablet.noted now message c)) as P.
  rewrite bind_run.
  destruct (Tablet.playInboundAudio now message _) as [[[]|e] [b1 c1] t] eqn:E;
    cbn [final] in P; cbn [andThen prepend].
  - destruct (flag interrupted message); cbn [when].
    + pose proof (Tablet_interrupt_resources b1 c1) as I.
      destruct (Tablet.onInterrupt _) as [cI mI tI]. cbn [final] in *.
      eapply tabletSameResources_trans; [exact N|].
      eapply tabletSameResources_trans; [exact P | exact I].
    + cbn. eapply tabletSameResources_trans; [exact N | exact P].
  - cbn. eapply tabletSameResources_trans; [exact N | exact P].
Qed.

Lemma Tablet_quiet_resources ev m :
  tabletQuiet ev = true -> tabletSameResources m (Tablet.step m ev).
Proof.
  unfold Tablet.step.
  destruct ev as [env| | |now message|e| |inputData|n]; try discriminate;
    intros _; cbn [Tablet.handle].
  - apply Tablet_onmessage_resources.
  - destruct m. cbn. apply tabletSameResources_refl.
  - destruct m as [b c]. unfold tabletSameResources. cbn. tauto.
Qed.

Lemma Tablet_quiet_run evs : forall m,
  forallb tabletQuiet evs = true -> tabletSameResources m (Tablet.run evs m).
Proof.
  induction evs as [|ev evs IH]; intros m H.
  - apply tabletSameResources_refl.
  - cbn in H. apply andb_true_iff in H. destruct H as [H1 H2].
    rewrite Tablet_run_cons.
    eapply tabletSameResources_trans;
      [apply (Tablet_quiet_resources ev m H1) | apply IH, H2].
Qed.

Lemma Tablet_run_app evs1 evs2 m :
  Tablet.run (evs1 ++ evs2) m = Tablet.run evs2 (Tablet.run evs1 m).
Proof. unfold Tablet.run. apply fold_left_app. Qed.

Lemma Tablet_onopen_run b c ctx :
  Tablet.audioContextInRef c = Some ctx ->
  Tablet.onopen {| browser := b; cells := c |} =
  {| completion := Normal tt;
     final :=
       {| browser :=
            {| nextHandle := Pos.succ (nextHandle b);
               openContexts := openContexts b;
               liveTracks := liveTracks b;
               activeTimers := activeTimers b ++ [nextHandle b];
               recording := recording b;
               endedSources := endedSources b |};
          cells := Tablet.set_frameIntervalRef (Some (nextHandle b))
                     (Tablet.set_status connected c) |};
     trace := [CreateMediaStreamSource ctx; CreateScriptProcessor ctx;
               SetInterval (nextHandle b)] |}.
Proof.
  intros H. unfold Tablet.onopen, setInterval, fresh. js_run. rewrite H.
  js_run. reflexivity.
Qed.

Lemma Tablet_ending_step ev b c :
  tabletEnds ev = true ->
  exists c0,
    Tablet.step {| browser := b; cells := c |} ev
    = final (Tablet.stopSession {| browser := b; cells := c0 |}) /\
    Tablet.audioContextInRef c0 = Tablet.audioContextInRef c /\
    Tablet.audioContextOutRef c0 = Tablet.audioContextOutRef c /\
    Tablet.streamRef c0 = Tablet.streamRef c /\
    Tablet.screenStreamRef c0 = Tablet.screenStreamRef c /\
    Tablet.frameIntervalRef c0 = Tablet.frameIntervalRef c.
Proof.
  destruct ev as [env| | |now message|e| |inputData|n]; try discriminate;
    intros _; unfold Tablet.step; cbn [Tablet.handle].
  - exists c. repeat split.
  - exists (Tablet.set_errorMessage
              (Some "The connection was lost. Re-enabling sharing might help."%string)
              c).
    split.
    + unfold Tablet.onerror, Tablet.setError. js_run.
      destruct (Tablet.stopSession _). reflexivity.
    + cbn. repeat split.
  - exists c. repeat split.
Qed.

(** Property X2.  A whole tablet session ([src/App.tsx]: [startSession],
    [onopen], [onmessage], [onaudioprocess], the [ended] listener,
    [stopSession], [onerror], [onclose]): from any state, after a start
    in which every request is granted, the opening of the channel, any
    number of inbound messages, capture buffers and ended voices, and an
    end of the session (the user's stop, a transport error or the
    channel closing), every audio context, track and timer that is still
    open was already open before the start; the status is
    [disconnected], no voice is left and the stream, timer and channel
    references are empty. *)
Theorem Tablet_session_releases env evs ev (m : Tablet.State) :
  Tablet.acquires env = true ->
  forallb tabletQuiet evs = true ->
  tabletEnds ev = true ->
  let m' := Tablet.run (Tablet.Start env :: Tablet.Open :: evs ++ [ev]) m in
  (forall h, In h (openContexts (browser m')) -> In h (openContexts (browser m))) /\
  (forall h, In h (liveTracks (browser m')) -> In h (liveTracks (browser m))) /\
  (forall h, In h (activeTimers (browser m')) -> In h (activeTimers (browser m))) /\
  Tablet.status (cells m') = disconnected /\
  Tablet.audioSourcesRef (cells m') = [] /\
  Tablet.streamRef (cells m') = None /\
  Tablet.screenStreamRef (cells m') = None /\
  Tablet.frameIntervalRef (cells m') = None /\
  Tablet.sessionRef (cells m') = None.
Proof.
  intros Ha Hq He. cbv zeta. destruct m as [b c].
  assert (E : exists n k,
             Tablet.displayMediaSupported env = true /\
             Tablet.userMedia env = Fulfilled n /\
             Tablet.displayMedia env = Fulfilled k /\
             Tablet.liveSession env = Fulfilled tt).
  { destruct env as [sup [n|e1] [k|e2] [[]|e3]]; cbn in Ha;
      try (destruct sup; discriminate Ha).
    destruct sup; [|discriminate Ha]. exists n, k. cbn. tauto. }
  destruct E as (n & k & Hs & Hu & Hd & Hl). clear Ha.
  rewrite !Tablet_run_cons, Tablet_run_app.
  change (Tablet.step {| browser := b; cells := c |} (Tablet.Start env))
    with (final (Tablet.startSession env {| browser := b; cells := c |})).
  destruct (Tablet_start_fields env b c n k Hs Hu Hd Hl)
    as (_ & _ & _ & _ & _ & Hin & Hout & _ & _ & _ & mic & screen & s &
        Hmic & Hscr & Hses & _ & _ & Hoc & Hlt & Hat).
  destruct (final (Tablet.startSession _ _)) as [b1 c1]. cbn [browser cells] in *.
  change (Tablet.step {| browser := b1; cells := c1 |} Tablet.Open)
    with (final (Tablet.onopen {| browser := b1; cells := c1 |})).
  rewrite (Tablet_onopen_run b1 c1 _ Hin). cbn [final].
  match goal with
  | |- context [Tablet.run evs ?m2] =>
      pose proof (Tablet_quiet_run evs m2 Hq) as R;
      destruct (Tablet.run evs m2) as [b3 c3]
  end.
  destruct R as (Roc & Rlt & Rat & Rin & Rout & Rmic & Rscr & Rfi & Rses & _).
  cbn [browser cells] in *.
  cbn [Tablet.run fold_left].
  destruct (Tablet_ending_step ev b3 c3 He)
    as (c0 & -> & Qin & Qout & Qmic & Qscr & Qfi).
  rewrite Tablet_stopSession_run. cbn [final browser cells].
  rewrite Qin, Qout, Qmic, Qscr, Qfi, Rin, Rout, Rmic, Rscr, Rfi.
  cbn -[closed cleared endTracks endVoices].
  rewrite Hin, Hout, Hmic, Hscr. cbn [ifSet].
  split; [|split; [|split]]; [| | |tauto].
  - intros h. cbn [closed openContexts].
    destruct (endVoices_fields (Tablet.audioSourcesRef c0)
                (endTracks screen (endTracks mic (cleared (nextHandle b1) b3))))
      as (_ & -> & _).
    destruct (endTracks_fields screen (endTracks mic (cleared (nextHandle b1) b3)))
      as (_ & -> & _).
    destruct (endTracks_fields mic (cleared (nextHandle b1) b3)) as (_ & -> & _).
    cbn [cleared openContexts]. rewrite Roc. cbn [openContexts]. rewrite Hoc.
    rewrite !In_without, in_app_iff. cbn. intuition congruence.
  - intros h. cbn [closed liveTracks].
    destruct (endVoices_fields (Tablet.audioSourcesRef c0)
                (endTracks screen (endTracks mic (cleared (nextHandle b1) b3))))
      as (_ & _ & -> & _).
    rewrite !liveTracks_endTracks. cbn [cleared liveTracks]. rewrite Rlt.
    cbn [liveTracks]. rewrite Hlt, !in_app_iff. tauto.
  - intros h. cbn [closed activeTimers].
    destruct (endVoices_fields (Tablet.audioSourcesRef c0)
                (endTracks screen (endTracks mic (cleared (nextHandle b1) b3))))
      as (_ & _ & _ & -> & _).
    destruct (endTracks_fields screen (endTracks mic (cleared (nextHandle b1) b3)))
      as (_ & _ & -> & _).
    destruct (endTracks_fields mic (cleared (nextHandle b1) b3)) as (_ & _ & -> & _).
    cbn [cleared activeTimers]. rewrite Rat. cbn [activeTimers]. rewrite Hat.
    rewrite In_without, in_app_iff. cbn. intuition congruence.
Qed.

Lemma Tablet_session_releases_witness :
  Tablet.acquires granted = true /\
  forallb tabletQuiet (map Tablet.arrive burst) = true /\
  tabletEnds (Tablet.Failure channelDown) = true /\
  Tablet.status
    (cells (Tablet.run (Tablet.Start granted :: Tablet.Open
                        :: map Tablet.arrive burst
                           ++ [Tablet.Failure channelDown])
              Tablet.initial))
  = disconnected.
Proof.
  split; [reflexivity|]. split; [reflexivity|]. split; [reflexivity|].
  exact (proj1 (proj2 (proj2 (proj2
    (Tablet_session_releases granted (map Tablet.arrive burst)
       (Tablet.Failure channelDown) Tablet.initial
       eq_refl eq_refl eq_refl))))).
Defined.

End TabletLifetime.

Section PhoneLifetime.
Import Web PhoneControls Scenario.

Lemma phoneSameResources_refl m : phoneSameResources m m.
Proof. unfold phoneSameResources. tauto. Qed.

Lemma phoneSameResources_trans m1 m2 m3 :
  phoneSameResources m1 m2 -> phoneSameResources m2 m3 ->
  phoneSameResources m1 m3.
Proof.
  unfold phoneSameResources. intros H1 H2.
  repeat match goal with H : _ /\ _ |- _ => destruct H end.
  repeat split; congruence.
Qed.

Lemma Phone_play_resources now message b c :
  phoneSameResources {| browser := b; cells := c |}
    (final (Phone.playInboundAudio now message {| browser := b; cells := c |})).
Proof.
  unfold phoneSameResources, Phone.playInboundAudio. rewrite bind_run.
  destruct (inlineAudio message) as [e|[s|]]; js_run; try tauto.
  destruct (Phone.audioContextRef c) as [ctx|] eqn:E; js_run;
    rewrite ?E; try tauto.
  destruct (truthy s); js_run; rewrite ?E; try tauto.
  destruct (decodePayload s 24000 1) as [e|buf]; unfold fresh; js_run;
    rewrite ?E; try tauto.
  destruct (Phone.recordingMixerRef c) as [g|]; js_run; rewrite ?E; try tauto.
  destruct (Pos.eqb (Phone.owner g) ctx); js_run; rewrite ?E; tauto.
Qed.

Lemma Phone_interrupt_resources b c :
  phoneSameResources {| browser := b; cells := c |}
    (final (Phone.onInterrupt {| browser := b; cells := c |})).
Proof.
  rewrite Phone_onInterrupt_run. unfold phoneSameResources. cbn.
  destruct (endVoices_fields (Phone.audioSourcesRef c) b)
    as (_ & -> & -> & -> & ->). tauto.
Qed.

Lemma Phone_onmessage_resources now message m :
  phoneSameResources m (final (Phone.onmessage now message m)).
Proof.
  destruct m as [b c]. unfold Phone.onmessage.
  pose proof (Phone_play_resources now message b c) as P.
  rewrite bind_run.
  destruct (Phone.playInboundAudio now message _) as [[[]|e] [b1 c1] t] eqn:E;
    cbn [final] in P; cbn [andThen prepend].
  - destruct (flag interrupted message); cbn [when].
    + pose proof (Phone_interrupt_resources b1 c1) as I.
      destruct (Phone.onInterrupt _) as [cI mI tI]. cbn [final] in *.
      eapply phoneSameResources_trans; [exact P | exact I].
    + cbn. exact P.
  - cbn. exact P.
Qed.

Lemma Phone_quiet_resources ev m :
  phoneQuiet ev = true -> phoneSameResources m (Phone.step m ev).
Proof.
  unfold Phone.step.
  destruct ev as [env| |ctx|now message|e| |inputData|n]; try discriminate;
    intros _; cbn [Phone.handle].
  - apply Phone_onmessage_resources.
  - destruct m. cbn. apply phoneSameResources_refl.
  - destruct m as [b c]. unfold phoneSameResources. cbn. tauto.
Qed.

Lemma Phone_quiet_run evs : forall m,
  forallb phoneQuiet evs = true -> phoneSameResources m (Phone.run evs m).
Proof.
  induction evs as [|ev evs IH]; intros m H.
  - apply phoneSameResources_refl.
  - cbn in H. apply andb_true_iff in H. destruct H as [H1 H2].
    rewrite Phone_run_cons.
    eapply phoneSameResources_trans;
      [apply (Phone_quiet_resources ev m H1) | apply IH, H2].
Qed.

Lemma Phone_onopen_run ctx b c :
  Phone.onopen ctx {| browser := b; cells := c |} =
  {| completion := Normal tt;
     final :=
       {| browser :=
            {| nextHandle := Pos.succ (nextHandle b);
               openContexts := openContexts b;
               liveTracks := liveTracks b;
               activeTimers := activeTimers b ++ [nextHandle b];
               recording := recording b;
               endedSources := endedSources b |};
          cells := Phone.set_frameIntervalRef (Some (nextHandle b))
                     (Phone.set_status connected c) |};
     trace := [CreateMediaStreamSource ctx; CreateScriptProcessor ctx;
               CreateGain ctx; SetInterval (nextHandle b)] |}.
Proof.
  unfold Phone.onopen, setInterval, fresh. js_run. reflexivity.
Qed.

Lemma Phone_start_media env b c n :
  (Phone.contextSuspended env = true -> Phone.contextResume env = Fulfilled tt) ->
  Phone.userMedia env = Fulfilled n ->
  Phone.mediaRecorder env = Fulfilled tt ->
  let r := Phone.startSession env {| browser := b; cells := c |} in
  let ctx := nextHandle b in
  completion r = Normal tt /\
  Phone.showHistory (cells (final r)) = false /\
  Phone.isFullRecordingSupported (cells (final r)) = mixed (Phone.mixing env) /\
  Phone.audioContextRef (cells (final r)) = Some ctx /\
  Phone.frameIntervalRef (cells (final r)) = Phone.frameIntervalRef c /\
  Phone.nextStartTimeRef (cells (final r)) = Phone.nextStartTimeRef c /\
  Phone.audioSourcesRef (cells (final r)) = Phone.audioSourcesRef c /\
  match Phone.mixing env with
  | Phone.NoDestination _ =>
      Phone.recordingMixerRef (cells (final r)) = Phone.recordingMixerRef c
  | _ =>
      exists g, Phone.recordingMixerRef (cells (final r))
                = Some {| Phone.gain := g; Phone.owner := ctx |}
  end /\
  match Phone.liveSession env with
  | Fulfilled _ =>
      Phone.status (cells (final r)) = connecting /\
      Phone.errorMessage (cells (final r)) = None /\
      exists session, Phone.sessionRef (cells (final r)) = Some session
  | Rejected e =>
      Phone.status (cells (final r)) = disconnected /\
      Phone.errorMessage (cells (final r))
      = Some (if truthy (message e) then message e else "Access error"%string) /\
      Phone.sessionRef (cells (final r)) = Phone.sessionRef c
  end /\
  exists stream recorder,
    Phone.mediaStreamRef (cells (final r)) = Some stream /\
    Phone.mediaRecorderRef (cells (final r)) = Some recorder /\
    List.length stream = n /\
    openContexts (browser (final r)) = openContexts b ++ [ctx] /\
    liveTracks (browser (final r)) = liveTracks b ++ stream /\
    recording (browser (final r)) = recording b ++ [recorder] /\
    activeTimers (browser (final r)) = activeTimers b /\
    (ctx < nextHandle (browser (final r)))%positive /\
    (forall t, In t stream ->
               (ctx < t < nextHandle (browser (final r)))%positive) /\
    (ctx < recorder < nextHandle (browser (final r)))%positive.
Proof.
  intros Hr Hu Hm. cbv zeta. unfold Phone.startSession.
  rewrite Hu, Hm.
  unfold newAudioContext, recorderStart, fresh, Phone.await.
  destruct (Phone.liveSession env) as [[]|e3] eqn:L;
  (destruct (Phone.contextSuspended env) eqn:S;
    [rewrite (Hr eq_refl)|]; cbn [when]; js_run;
    (destruct (Phone.mixing env) as [|e|e] eqn:M; js_run)).
  all: repeat (split; [reflexivity|]).
  all: try (split; [eexists; reflexivity|]).
  all: try (split; [split; [reflexivity|]; split; [reflexivity|];
                    eexists; reflexivity|]).
  all: try (split; [repeat split|]).
  all: match goal with
       | |- context [grantTracks ?k ?b1] =>
           destruct (grantTracks_fields k b1) as (Ln & Tn & On & An & Rn & _);
           destruct (grantTracks_fresh k b1) as (Fn & Gn)
       end.
  all: do 2 eexists; repeat (split; [reflexivity|]);
       (split; [match goal with H : Datatypes.length _ = _ |- _ => exact H end|]).
  all: match goal with
       | Ho : openContexts _ = _, Ht : liveTracks _ = _,
         Ha : activeTimers _ = _, Hr' : recording _ = _ |- _ =>
           rewrite Ho, Ht, Ha, Hr'
       end; cbn -[grantTracks] in *.
  all: repeat (split; [reflexivity|]).
  all: split; [lia|]; split; [|lia].
  all: intros t Ht; specialize (Gn t Ht); lia.
Qed.

Lemma Phone_start_fields env b c n :
  (Phone.contextSuspended env = true -> Phone.contextResume env = Fulfilled tt) ->
  Phone.userMedia env = Fulfilled n ->
  Phone.mediaRecorder env = Fulfilled tt ->
  Phone.liveSession env = Fulfilled tt ->
  let r := Phone.startSession env {| browser := b; cells := c |} in
  let ctx := nextHandle b in
  completion r = Normal tt /\
  Phone.status (cells (final r)) = connecting /\
  Phone.errorMessage (cells (final r)) = None /\
  Phone.showHistory (cells (final r)) = false /\
  Phone.isFullRecordingSupported (cells (final r)) = mixed (Phone.mixing env) /\
  Phone.audioContextRef (cells (final r)) = Some ctx /\
  Phone.frameIntervalRef (cells (final r)) = Phone.frameIntervalRef c /\
  Phone.nextStartTimeRef (cells (final r)) = Phone.nextStartTimeRef c /\
  Phone.audioSourcesRef (cells (final r)) = Phone.audioSourcesRef c /\
  match Phone.mixing env with
  | Phone.NoDestination _ =>
      Phone.recordingMixerRef (cells (final r)) = Phone.recordingMixerRef c
  | _ =>
      exists g, Phone.recordingMixerRef (cells (final r))
                = Some {| Phone.gain := g; Phone.owner := ctx |}
  end /\
  exists stream recorder session,
    Phone.mediaStreamRef (cells (final r)) = Some stream /\
    Phone.mediaRecorderRef (cells (final r)) = Some recorder /\
    Phone.sessionRef (cells (final r)) = Some session /\
    List.length stream = n /\
    openContexts (browser (final r)) = openContexts b ++ [ctx] /\
    liveTracks (browser (final r)) = liveTracks b ++ stream /\
    recording (browser (final r)) = recording b ++ [recorder] /\
    activeTimers (browser (final r)) = activeTimers b.
Proof.
  intros Hr Hu Hm Hl. cbv zeta.
  pose proof (Phone_start_media env b c n Hr Hu Hm) as F. cbv zeta in F.
  rewrite Hl in F.
  destruct F as (F1 & F2 & F3 & F4 & F5 & F6 & F7 & F8 &
                 (S1 & S2 & session & S3) &
                 stream & recorder & G1 & G2 & G3 & G4 & G5 & G6 & G7 & _).
  repeat (split; [assumption|]).
  exists stream, recorder, session. tauto.
Qed.



End PhoneLifetime.

Section PhoneToggle.
Import Web PhoneControls Scenario.

Lemma Phone_run_app evs1 evs2 m :
  Phone.run (evs1 ++ evs2) m = Phone.run evs2 (Phone.run evs1 m).
Proof. unfold Phone.run. apply fold_left_app. Qed.

Lemma handleToggle_idle env b c :
  Phone.status c = disconnected \/ Phone.status c = error ->
  handleToggle env {| browser := b; cells := c |}
  = Phone.startSession env {| browser := b; cells := c |}.
Proof.
  intros H. unfold handleToggle. rewrite bind_run. cbn [read andThen prepend cells].
  destruct H as [-> | ->]; destruct (Phone.startSession _ _); reflexivity.
Qed.

Lemma handleToggle_busy env b c :
  Phone.status c = connecting \/ Phone.status c = connected ->
  handleToggle env {| browser := b; cells := c |}
  = Phone.stopSession {| browser := b; cells := c |}.
Proof.
  intros H. unfold handleToggle. rewrite bind_run. cbn [read andThen prepend cells].
  destruct H as [-> | ->]; destruct (Phone.stopSession _); reflexivity.
Qed.

Lemma recording_without r l h : In h (without r l) <-> In h l /\ h <> r.
Proof. apply In_without. Qed.

Lemma In_finalized r b h :
  In h (recording (finalized r b)) -> In h (recording b) /\ h <> r.
Proof.
  unfold finalized. destruct (member r (recording b)) eqn:M.
  - cbn. apply In_without.
  - intros H. split; [exact H|]. intros ->.
    assert (T : member r (recording b) = true).
    { apply existsb_exists. exists r. split; [exact H | apply Pos.eqb_refl]. }
    congruence.
Qed.

(** Property X4.  The one button of the phone component
    ([src/unnamed/part_000], [handleToggle]): pressed while the status
    is [disconnected] or [error] it starts a session; once the channel
    has opened and whatever media has flowed, pressing it again stops
    the session.  After the second press every audio context, track,
    timer and running recorder that is left was already there before the
    first press; the status is [disconnected], no voice is left and the
    context, stream, timer and channel references are empty. *)
Theorem Phone_toggle_session env env' evs (m : Phone.State) :
  Phone.status (cells m) = disconnected \/ Phone.status (cells m) = error ->
  Phone.acquires env = true ->
  forallb phoneQuiet evs = true ->
  let m1 := final (handleToggle env m) in
  let m2 := Phone.run (Phone.Open (nextHandle (browser m)) :: evs) m1 in
  let m' := final (handleToggle env' m2) in
  Phone.status (cells m1) = connecting /\
  Phone.status (cells m2) = connected /\
  Phone.status (cells m') = disconnected /\
  (forall h, In h (openContexts (browser m')) -> In h (openContexts (browser m))) /\
  (forall h, In h (liveTracks (browser m')) -> In h (liveTracks (browser m))) /\
  (forall h, In h (activeTimers (browser m')) -> In h (activeTimers (browser m))) /\
  (forall h, In h (recording (browser m')) -> In h (recording (browser m))) /\
  Phone.audioSourcesRef (cells m') = [] /\
  Phone.audioContextRef (cells m') = None /\
  Phone.mediaStreamRef (cells m') = None /\
  Phone.frameIntervalRef (cells m') = None /\
  Phone.sessionRef (cells m') = None.
Proof.
  intros Hst Ha Hq. cbv zeta. destruct m as [b c]. cbn [browser cells] in *.
  assert (E : exists n,
             (Phone.contextSuspended env = true ->
              Phone.contextResume env = Fulfilled tt) /\
             Phone.userMedia env = Fulfilled n /\
             Phone.mediaRecorder env = Fulfilled tt /\
             Phone.liveSession env = Fulfilled tt).
  { destruct env as [sus [[]|e0] [n|e1] mix [[]|e2] [[]|e3]]; cbn in Ha;
      try (destruct sus; discriminate Ha); exists n; cbn;
      repeat split; try reflexivity; intros ->; discriminate Ha. }
  destruct E as (n & Hr & Hu & Hm & Hl). clear Ha.
  rewrite (handleToggle_idle env b c Hst).
  destruct (Phone_start_fields env b c n Hr Hu Hm Hl)
    as (_ & Hs1 & _ & _ & _ & Hctx & _ & _ & _ & _ & stream & rec & ses &
        Hstream & Hrec & Hses & _ & Hoc & Hlt & Hrc & Hat).
  destruct (final (Phone.startSession _ _)) as [b1 c1]. cbn [browser cells] in *.
  split; [exact Hs1|].
  rewrite Phone_run_cons.
  change (Phone.step {| browser := b1; cells := c1 |} (Phone.Open (nextHandle b)))
    with (final (Phone.onopen (nextHandle b) {| browser := b1; cells := c1 |})).
  rewrite Phone_onopen_run. cbn [final].
  match goal with
  | |- context [Phone.run evs ?m2] =>
      pose proof (Phone_quiet_run evs m2 Hq) as R;
      destruct (Phone.run evs m2) as [b3 c3]
  end.
  destruct R as (Roc & Rlt & Rat & Rrc & Rctx & Rstr & Rfi & Rses & Rrec & Rst).
  cbn [browser cells] in *.
  split; [exact Rst|].
  rewrite (handleToggle_busy env' b3 c3) by (right; exact Rst).
  rewrite Phone_stopSession_run. cbn [final browser cells].
  rewrite Rctx, Rstr, Rfi, Rrec. cbn -[closed cleared endTracks endVoices finalized].
  rewrite Hctx, Hstream, Hrec. cbn [ifSet].
  split; [reflexivity|].
  set (B0 := cleared (nextHandle b1) (finalized rec b3)).
  destruct (endVoices_fields (Phone.audioSourcesRef c3) (endTracks stream B0))
    as (_ & Voc & Vlt & Vat & Vrc).
  destruct (endTracks_fields stream B0) as (_ & Toc & Tat & Trc & _).
  split; [|split; [|split; [|split]]]; [| | | |tauto].
  - intros h. cbn [closed openContexts]. rewrite Voc, Toc. subst B0.
    cbn [cleared openContexts].
    replace (openContexts (finalized rec b3)) with (openContexts b3)
      by (unfold finalized; destruct (member rec (recording b3)); reflexivity).
    rewrite Roc. cbn [openContexts]. rewrite Hoc, In_without, in_app_iff.
    cbn. intuition congruence.
  - intros h. cbn [closed liveTracks]. rewrite Vlt, liveTracks_endTracks.
    subst B0. cbn [cleared liveTracks].
    replace (liveTracks (finalized rec b3)) with (liveTracks b3)
      by (unfold finalized; destruct (member rec (recording b3)); reflexivity).
    rewrite Rlt. cbn [liveTracks]. rewrite Hlt, in_app_iff. tauto.
  - intros h. cbn [closed activeTimers]. rewrite Vat, Tat. subst B0.
    cbn [cleared activeTimers].
    replace (activeTimers (finalized rec b3)) with (activeTimers b3)
      by (unfold finalized; destruct (member rec (recording b3)); reflexivity).
    rewrite Rat. cbn [activeTimers]. rewrite In_without, in_app_iff, Hat.
    cbn. intuition congruence.
  - intros h. cbn [closed recording]. rewrite Vrc, Trc. subst B0.
    cbn [cleared recording]. intros H. apply In_finalized in H.
    rewrite Rrc in H. cbn [recording] in H. rewrite Hrc, in_app_iff in H.
    cbn in H. intuition congruence.
Qed.

Lemma Phone_toggle_session_witness :
  Phone.status (cells Phone.initial) = disconnected /\
  Phone.acquires camera = true /\
  forallb phoneQuiet (map Phone.arrive burst) = true /\
  Phone.status
    (cells (final (handleToggle camera
       (Phone.run (Phone.Open (nextHandle (browser Phone.initial))
                   :: map Phone.arrive burst)
          (final (handleToggle camera Phone.initial))))))
  = disconnected.
Proof.
  split; [reflexivity|]. split; [reflexivity|]. split; [reflexivity|].
  exact (proj1 (proj2 (proj2
    (Phone_toggle_session camera camera (map Phone.arrive burst) Phone.initial
       (or_introl eq_refl) eq_refl eq_refl)))).
Defined.

End PhoneToggle.

Section PlaybackFacts.
Import Web Playback Scenario Walkthrough.

Lemma Tablet_play_bears now message buf ctx b c :
  bears message buf ->
  Tablet.audioContextOutRef c = Some ctx ->
  let w := Qmax (Tablet.nextStartTimeRef c) (currentTime now) in
  Tablet.playInboundAudio now message {| browser := b; cells := c |} =
  {| completion := Normal tt;
     final :=
       {| browser := bumped b;
          cells :=
            Tablet.set_audioSourcesRef
              (Tablet.audioSourcesRef c
               ++ [{| source := nextHandle b; buffer := buf;
                      scheduledStart := w |}])
              (Tablet.set_nextStartTimeRef (w + duration buf)%Q
                 (Tablet.set_nextStartTimeRef w c)) |};
     trace := [CreateBufferSource ctx (nextHandle b);
               ConnectDestination (nextHandle b) ctx;
               SourceStart (nextHandle b) w] |}.
Proof.
  intros (b64 & Hin & Ht & Hd) Hctx w. subst w.
  unfold Tablet.playInboundAudio. rewrite bind_run, Hin. js_run. rewrite Hctx.
  cbn [when]. rewrite Ht. js_run. rewrite Hd. unfold fresh. js_run. reflexivity.
Qed.

Lemma Phone_play_bears now message buf ctx b c :
  bears message buf ->
  Phone.audioContextRef c = Some ctx ->
  Phone.mixerFits c = true ->
  let w := Qmax (Phone.nextStartTimeRef c) (currentTime now) in
  Phone.playInboundAudio now message {| browser := b; cells := c |} =
  {| completion := Normal tt;
     final :=
       {| browser := bumped b;
          cells :=
            Phone.set_audioSourcesRef
              (Phone.audioSourcesRef c
               ++ [{| source := nextHandle b; buffer := buf;
                      scheduledStart := w |}])
              (Phone.set_nextStartTimeRef (w + duration buf)%Q
                 (Phone.set_nextStartTimeRef w c)) |};
     trace := [CreateBufferSource ctx (nextHandle b);
               ConnectDestination (nextHandle b) ctx]
              ++ effectsIfSet (Phone.recordingMixerRef c)
                   (fun g => [ConnectMixer (nextHandle b) (Phone.gain g)])
              ++ [SourceStart (nextHandle b) w] |}.
Proof.
  intros (b64 & Hin & Ht & Hd) Hctx Hfit w. subst w.
  unfold Phone.mixerFits in Hfit. rewrite Hctx in Hfit.
  unfold Phone.playInboundAudio. rewrite bind_run, Hin. js_run. rewrite Hctx.
  cbn [when]. rewrite Ht. js_run. rewrite Hd. unfold fresh. js_run.
  destruct (Phone.recordingMixerRef c) as [g|]; js_run; rewrite ?Hfit; js_run;
    reflexivity.
Qed.

(** Property X5.  A message that carries an audio chunk together with the
    [interrupted] flag ([onmessage] of both components): the chunk is
    decoded, connected and started first, and then stopped in the same
    callback, after the voices that were already playing; the callback
    returns normally with no voice left and the watermark at 0.  The
    chunk that comes with an interruption is therefore never heard. *)
Theorem chunk_with_interrupt now message buf :
  bears message buf ->
  flag interrupted message = true ->
  (forall b c ctx,
     Tablet.audioContextOutRef c = Some ctx ->
     let r := Tablet.onmessage now message {| browser := b; cells := c |} in
     let w := Qmax (Tablet.nextStartTimeRef c) (currentTime now) in
     completion r = Normal tt /\
     trace r =
       [CreateBufferSource ctx (nextHandle b);
        ConnectDestination (nextHandle b) ctx;
        SourceStart (nextHandle b) w]
       ++ map (fun v => SourceStop (source v)) (Tablet.audioSourcesRef c)
       ++ [SourceStop (nextHandle b)] /\
     Tablet.audioSourcesRef (cells (final r)) = [] /\
     Tablet.nextStartTimeRef (cells (final r)) = 0%Q) /\
  (forall b c ctx,
     Phone.audioContextRef c = Some ctx ->
     Phone.mixerFits c = true ->
     let r := Phone.onmessage now message {| browser := b; cells := c |} in
     let w := Qmax (Phone.nextStartTimeRef c) (currentTime now) in
     completion r = Normal tt /\
     trace r =
       [CreateBufferSource ctx (nextHandle b);
        ConnectDestination (nextHandle b) ctx]
       ++ effectsIfSet (Phone.recordingMixerRef c)
            (fun g => [ConnectMixer (nextHandle b) (Phone.gain g)])
       ++ [SourceStart (nextHandle b) w]
       ++ map (fun v => SourceStop (source v)) (Phone.audioSourcesRef c)
       ++ [SourceStop (nextHandle b)] /\
     Phone.audioSourcesRef (cells (final r)) = [] /\
     Phone.nextStartTimeRef (cells (final r)) = 0%Q).
Proof.
  intros Hb Hf. split.
  - intros b c ctx Hctx. cbv zeta.
    destruct (Tablet_noted_frame now message c) as (_ & Fctx & Fnext & Fsrc).
    unfold Tablet.onmessage. rewrite bind_run, Tablet_note_run.
    cbn [andThen prepend].
    rewrite bind_run, (Tablet_play_bears now message buf ctx) by congruence.
    rewrite Hf. cbn [andThen prepend when]. rewrite Tablet_onInterrupt_run.
    cbn -[Qmax]. rewrite Fnext, Fsrc, map_app. cbn -[Qmax]. tauto.
  - intros b c ctx Hctx Hfit. cbv zeta.
    unfold Phone.onmessage.
    rewrite bind_run, (Phone_play_bears now message buf ctx) by assumption.
    rewrite Hf. cbn [andThen prepend when]. rewrite Phone_onInterrupt_run.
    cbn -[Qmax]. rewrite map_app, <- !app_assoc. cbn -[Qmax]. tauto.
Qed.

Lemma chunk_with_interrupt_witness :
  bears interruptedAudio silentBuffer /\
  flag interrupted interruptedAudio = true /\
  Tablet.audioSourcesRef
    (cells (final (Tablet.onmessage (at_ 0) interruptedAudio
                     {| browser := browser tabletLive;
                        cells := cells tabletLive |})))
  = [].
Proof.
  assert (B : bears interruptedAudio silentBuffer).
  { exists silence. repeat split; reflexivity. }
  split; [exact B|]. split; [reflexivity|].
  exact (proj1 (proj2 (proj2
    (proj1 (chunk_with_interrupt (at_ 0) interruptedAudio silentBuffer B eq_refl)
       (browser tabletLive) (cells tabletLive) 2%positive eq_refl)))).
Defined.

(** Property X6.  After an interruption the schedule starts afresh
    ([onmessage] of both components): whatever the watermark and the
    voices were, the first well-formed chunk that arrives after the
    interrupt handler has run is the only voice, and it starts at the
    reading of the device clock at its arrival, not at the old
    watermark. *)
Theorem interrupt_reanchors a :
  carries (chunk a) (decoded a) ->
  (0 <= currentTime (clock a))%Q ->
  (forall b c ctx,
     Tablet.audioContextOutRef c = Some ctx ->
     let m1 := final (Tablet.onInterrupt {| browser := b; cells := c |}) in
     let m2 := Tablet.step m1 (Tablet.arrive a) in
     exists v,
       Tablet.audioSourcesRef (cells m2) = [v] /\
       buffer v = decoded a /\
       (scheduledStart v == currentTime (clock a))%Q) /\
  (forall b c ctx,
     Phone.audioContextRef c = Some ctx ->
     Phone.mixerFits c = true ->
     let m1 := final (Phone.onInterrupt {| browser := b; cells := c |}) in
     let m2 := Phone.step m1 (Phone.arrive a) in
     exists v,
       Phone.audioSourcesRef (cells m2) = [v] /\
       buffer v = decoded a /\
       (scheduledStart v == currentTime (clock a))%Q).
Proof.
  intros Hc Ht. split.
  - intros b c ctx Hctx. cbv zeta. rewrite Tablet_onInterrupt_run. cbn [final].
    unfold Tablet.step. cbn [Tablet.arrive Tablet.handle].
    rewrite (Tablet_onmessage_good _ _ _ ctx _ _ Hc) by exact Hctx.
    cbn -[Qmax]. eexists. split; [reflexivity|]. split; [reflexivity|].
    cbn -[Qmax]. apply Q.max_r. exact Ht.
  - intros b c ctx Hctx Hfit. cbv zeta. rewrite Phone_onInterrupt_run.
    cbn [final]. unfold Phone.step. cbn [Phone.arrive Phone.handle].
    rewrite (Phone_onmessage_good _ _ _ ctx _ _ Hc) by assumption.
    cbn -[Qmax]. eexists. split; [reflexivity|]. split; [reflexivity|].
    cbn -[Qmax]. apply Q.max_r. exact Ht.
Qed.

Lemma interrupt_reanchors_witness :
  carries (chunk firstChunk) (decoded firstChunk) /\
  (0 <= currentTime (clock firstChunk))%Q /\
  exists v,
    Tablet.audioSourcesRef
      (cells (Tablet.step
                (final (Tablet.onInterrupt
                          {| browser := browser tabletLive;
                             cells := cells tabletLive |}))
                (Tablet.arrive firstChunk)))
    = [v] /\
    buffer v = silentBuffer.
Proof.
  assert (C : carries (chunk firstChunk) (decoded firstChunk)).
  { exists silence. repeat split; reflexivity. }
  assert (T : (0 <= currentTime (clock firstChunk))%Q) by apply Qle_refl.
  split; [exact C|]. split; [exact T|].
  destruct (proj1 (interrupt_reanchors firstChunk C T)
              (browser tabletLive) (cells tabletLive) 2%positive eq_refl)
    as (v & Hv & Hb & _).
  exists v. exact (conj Hv Hb).
Defined.

Lemma member_cons h x l : member h (x :: l) = (Pos.eqb h x || member h l)%bool.
Proof. reflexivity. Qed.

Lemma stillPlaying_nil vs : stillPlaying [] vs = vs.
Proof.
  unfold stillPlaying. induction vs as [|v vs IH]; [reflexivity|].
  cbn in *. now f_equal.
Qed.

Lemma stillPlaying_cons h hs vs :
  stillPlaying hs (filter (fun v => negb (Pos.eqb (source v) h)) vs)
  = stillPlaying (h :: hs) vs.
Proof.
  unfold stillPlaying. induction vs as [|v vs IH]; [reflexivity|].
  cbn [filter]. rewrite member_cons.
  destruct (Pos.eqb (source v) h); cbn [negb orb filter]; rewrite IH;
    reflexivity.
Qed.

Lemma stillPlaying_all hs vs :
  forallb (fun v => member (source v) hs) vs = true -> stillPlaying hs vs = [].
Proof.
  unfold stillPlaying. induction vs as [|v vs IH]; [reflexivity|].
  cbn. intros H. apply andb_true_iff in H. destruct H as [-> H].
  cbn. exact (IH H).
Qed.

Lemma Tablet_ended_run hs : forall m : Tablet.State,
  Tablet.audioSourcesRef (cells (Tablet.run (map Tablet.Ended hs) m))
  = stillPlaying hs (Tablet.audioSourcesRef (cells m)) /\
  Tablet.nextStartTimeRef (cells (Tablet.run (map Tablet.Ended hs) m))
  = Tablet.nextStartTimeRef (cells m).
Proof.
  induction hs as [|h hs IH]; intros [b c].
  - cbn. now rewrite stillPlaying_nil.
  - cbn [map]. rewrite Tablet_run_cons.
    destruct (IH (Tablet.step {| browser := b; cells := c |} (Tablet.Ended h)))
      as [-> ->].
    cbn. split; [|reflexivity]. apply stillPlaying_cons.
Qed.

Lemma Phone_ended_run hs : forall m : Phone.State,
  Phone.audioSourcesRef (cells (Phone.run (map Phone.Ended hs) m))
  = stillPlaying hs (Phone.audioSourcesRef (cells m)) /\
  Phone.nextStartTimeRef (cells (Phone.run (map Phone.Ended hs) m))
  = Phone.nextStartTimeRef (cells m).
Proof.
  induction hs as [|h hs IH]; intros [b c].
  - cbn. now rewrite stillPlaying_nil.
  - cbn [map]. rewrite Phone_run_cons.
    destruct (IH (Phone.step {| browser := b; cells := c |} (Phone.Ended h)))
      as [-> ->].
    cbn. split; [|reflexivity]. apply stillPlaying_cons.
Qed.

(** Property X7.  The [ended] listeners ([src/App.tsx], lines 211-213;
    [src/unnamed/part_000], line 238): after the voices [hs] have ended,
    in any order and however often, the set of active voices holds
    exactly the voices that are not among them, in their old order; once
    every scheduled voice has ended the set is empty.  The watermark is
    left where it was: a drained queue does not reset it. *)
Theorem ended_events_drain hs :
  (forall m : Tablet.State,
     let m' := Tablet.run (map Tablet.Ended hs) m in
     Tablet.audioSourcesRef (cells m')
     = stillPlaying hs (Tablet.audioSourcesRef (cells m)) /\
     Tablet.nextStartTimeRef (cells m') = Tablet.nextStartTimeRef (cells m) /\
     (forallb (fun v => member (source v) hs)
        (Tablet.audioSourcesRef (cells m)) = true ->
      Tablet.audioSourcesRef (cells m') = [])) /\
  (forall m : Phone.State,
     let m' := Phone.run (map Phone.Ended hs) m in
     Phone.audioSourcesRef (cells m')
     = stillPlaying hs (Phone.audioSourcesRef (cells m)) /\
     Phone.nextStartTimeRef (cells m') = Phone.nextStartTimeRef (cells m) /\
     (forallb (fun v => member (source v) hs)
        (Phone.audioSourcesRef (cells m)) = true ->
      Phone.audioSourcesRef (cells m') = [])).
Proof.
  split; intros m; cbv zeta.
  - destruct (Tablet_ended_run hs m) as [-> ->].
    split; [reflexivity|]. split; [reflexivity|]. apply stillPlaying_all.
  - destruct (Phone_ended_run hs m) as [-> ->].
    split; [reflexivity|]. split; [reflexivity|]. apply stillPlaying_all.
Qed.

Lemma ended_events_drain_witness :
  let playing := Tablet.run (map Tablet.arrive burst) tabletLive in
  let hs := map source (Tablet.audioSourcesRef (cells playing)) in
  List.length hs = 3%nat /\
  Tablet.audioSourcesRef (cells (Tablet.run (map Tablet.Ended hs) playing)) = [].
Proof.
  cbv zeta. split; [reflexivity|].
  apply (proj2 (proj2 (proj1 (ended_events_drain _) _))). reflexivity.
Defined.

End PlaybackFacts.

Section Restart.
Import Web Playback PhoneControls Scenario Walkthrough.

(** Property X8.  The playback watermark of the tablet component survives a
    restart ([src/App.tsx]: [stopSession] and [startSession] never
    assign [nextStartTimeRef]; only the interrupt handler resets it).
    After a stop, a granted start and the opening of the channel the
    watermark is what it was, and the first well-formed chunk of the new
    session starts at the larger of that old watermark and the reading
    of the new device clock. *)
Theorem watermark_survives_restart env a (m : Tablet.State) :
  Tablet.acquires env = true ->
  carries (chunk a) (decoded a) ->
  let m' := Tablet.run [Tablet.Stop; Tablet.Start env; Tablet.Open;
                        Tablet.arrive a] m in
  Tablet.nextStartTimeRef
    (cells (Tablet.run [Tablet.Stop; Tablet.Start env; Tablet.Open] m))
  = Tablet.nextStartTimeRef (cells m) /\
  exists v,
    Tablet.audioSourcesRef (cells m') = [v] /\
    scheduledStart v
    = Qmax (Tablet.nextStartTimeRef (cells m)) (currentTime (clock a)).
Proof.
  intros Ha Hc. cbv zeta. destruct m as [b c].
  assert (E : exists n k,
             Tablet.displayMediaSupported env = true /\
             Tablet.userMedia env = Fulfilled n /\
             Tablet.displayMedia env = Fulfilled k /\
             Tablet.liveSession env = Fulfilled tt).
  { destruct env as [sup [n|e1] [k|e2] [[]|e3]]; cbn in Ha;
      try (destruct sup; discriminate Ha).
    destruct sup; [|discriminate Ha]. exists n, k. cbn. tauto. }
  destruct E as (n & k & Hs & Hu & Hd & Hl). clear Ha.
  rewrite !Tablet_run_cons.
  change (Tablet.step {| browser := b; cells := c |} Tablet.Stop)
    with (final (Tablet.stopSession {| browser := b; cells := c |})).
  rewrite Tablet_stopSession_run. cbn [final].
  match goal with
  | |- context [Tablet.step {| browser := ?b0; cells := ?c0 |} (Tablet.Start env)] =>
      change (Tablet.step {| browser := b0; cells := c0 |} (Tablet.Start env))
        with (final (Tablet.startSession env {| browser := b0; cells := c0 |}));
      destruct (Tablet_start_fields env b0 c0 n k Hs Hu Hd Hl)
        as (_ & _ & _ & _ & _ & Hin & Hout & _ & Hnx & Hsrc & _)
  end.
  destruct (final (Tablet.startSession _ _)) as [b1 c1]. cbn [browser cells] in *.
  change (Tablet.step {| browser := b1; cells := c1 |} Tablet.Open)
    with (final (Tablet.onopen {| browser := b1; cells := c1 |})).
  rewrite (Tablet_onopen_run b1 c1 _ Hin). cbn [final].
  split; [cbn; exact Hnx|].
  cbn [Tablet.run fold_left]. unfold Tablet.step. cbn [Tablet.arrive Tablet.handle].
  rewrite (Tablet_onmessage_good _ _ _ _ _ _ Hc) by (cbn; exact Hout).
  cbn -[Qmax]. rewrite Hsrc, Hnx. cbn -[Qmax]. eexists. split; reflexivity.
Qed.

Lemma watermark_survives_restart_witness :
  Tablet.acquires granted = true /\
  carries (chunk firstChunk) (decoded firstChunk) /\
  Tablet.nextStartTimeRef
    (cells (Tablet.run [Tablet.Stop; Tablet.Start granted; Tablet.Open]
              tabletLive))
  = Tablet.nextStartTimeRef (cells tabletLive).
Proof.
  assert (C : carries (chunk firstChunk) (decoded firstChunk)).
  { exists silence. repeat split; reflexivity. }
  split; [reflexivity|]. split; [exact C|].
  exact (proj1 (watermark_survives_restart granted firstChunk tabletLive
                  eq_refl C)).
Defined.

(** Property X9.  A transport error ([onerror] of both components) logs the
    error, stores the component's fixed message and runs the whole
    teardown: the browser is left as [stopSession] leaves it and the
    stream, timer and channel references are empty.  The status ends in
    [disconnected], never in [error], and the message is still there
    after the teardown; [onclose] tears down without touching the
    message. *)
Theorem transport_error_tears_down (e : JsError) :
  (forall m : Tablet.State,
     let r := Tablet.onerror e m in
     completion r = Normal tt /\
     trace r = ConsoleError "Gemini Live Error:" :: trace (Tablet.stopSession m) /\
     browser (final r) = browser (final (Tablet.stopSession m)) /\
     Tablet.status (cells (final r)) = disconnected /\
     Tablet.errorMessage (cells (final r))
     = Some "The connection was lost. Re-enabling sharing might help."%string /\
     Tablet.sessionRef (cells (final r)) = None /\
     Tablet.streamRef (cells (final r)) = None /\
     Tablet.screenStreamRef (cells (final r)) = None /\
     Tablet.frameIntervalRef (cells (final r)) = None /\
     Tablet.audioSourcesRef (cells (final r)) = [] /\
     Tablet.errorMessage (cells (final (Tablet.onclose m)))
     = Tablet.errorMessage (cells m)) /\
  (forall m : Phone.State,
     let r := Phone.onerror e m in
     completion r = Normal tt /\
     trace r = ConsoleError "Session error:" :: trace (Phone.stopSession m) /\
     browser (final r) = browser (final (Phone.stopSession m)) /\
     Phone.status (cells (final r)) = disconnected /\
     Phone.errorMessage (cells (final r)) = Some "Connection lost."%string /\
     Phone.sessionRef (cells (final r)) = None /\
     Phone.mediaStreamRef (cells (final r)) = None /\
     Phone.frameIntervalRef (cells (final r)) = None /\
     Phone.audioContextRef (cells (final r)) = None /\
     Phone.audioSourcesRef (cells (final r)) = [] /\
     Phone.errorMessage (cells (final (Phone.onclose m)))
     = Phone.errorMessage (cells m)).
Proof.
  split; intros [b c]; cbv zeta.
  - unfold Tablet.onerror, Tablet.onclose, Tablet.setError. js_run.
    rewrite !Tablet_stopSession_run. cbn. tauto.
  - unfold Phone.onerror, Phone.onclose, Phone.setError. js_run.
    rewrite !Phone_stopSession_run. cbn. tauto.
Qed.

(** Property X10.  [onopen] has no guard ([src/App.tsx], lines 120-177;
    [src/unnamed/part_000], lines 172-218): when the channel opens after
    the session has been torn down, the callback still returns normally,
    sets the status to [connected], builds the capture bridge and starts
    a new frame timer, which it stores in the timer reference. *)
Theorem late_open_reactivates :
  (forall (m : Tablet.State) ctx,
     Tablet.audioContextInRef (cells m) = Some ctx ->
     let stopped := final (Tablet.stopSession m) in
     let r := Tablet.onopen stopped in
     completion r = Normal tt /\
     Tablet.status (cells (final r)) = connected /\
     Tablet.frameIntervalRef (cells (final r)) = Some (nextHandle (browser m)) /\
     In (nextHandle (browser m)) (activeTimers (browser (final r))) /\
     trace r = [CreateMediaStreamSource ctx; CreateScriptProcessor ctx;
                SetInterval (nextHandle (browser m))]) /\
  (forall (m : Phone.State) ctx,
     let stopped := final (Phone.stopSession m) in
     let r := Phone.onopen ctx stopped in
     completion r = Normal tt /\
     Phone.status (cells (final r)) = connected /\
     Phone.frameIntervalRef (cells (final r)) = Some (nextHandle (browser m)) /\
     In (nextHandle (browser m)) (activeTimers (browser (final r))) /\
     trace r = [CreateMediaStreamSource ctx; CreateScriptProcessor ctx;
                CreateGain ctx; SetInterval (nextHandle (browser m))]).
Proof.
  split.
  - intros [b c] ctx Hin. cbn [cells browser] in *. cbv zeta.
    rewrite Tablet_stopSession_run. cbn [final].
    rewrite (Tablet_onopen_run _ _ ctx) by exact Hin.
    set (B := ifSet (Tablet.audioContextOutRef c) closed _).
    assert (N : nextHandle B = nextHandle b).
    { subst B.
      destruct (Tablet.audioContextOutRef c), (Tablet.audioContextInRef c),
        (Tablet.screenStreamRef c), (Tablet.streamRef c),
        (Tablet.frameIntervalRef c);
        cbn [ifSet closed cleared nextHandle];
        repeat first [ rewrite (proj1 (endVoices_fields _ _))
                     | rewrite (proj1 (endTracks_fields _ _)) ];
        reflexivity. }
    cbn. rewrite N. repeat split. apply in_or_app. right. now left.
  - intros [b c] ctx. cbn [cells browser] in *. cbv zeta.
    rewrite Phone_stopSession_run. cbn [final].
    rewrite Phone_onopen_run.
    set (B := ifSet (Phone.audioContextRef c) closed _).
    assert (N : nextHandle B = nextHandle b).
    { subst B.
      destruct (Phone.audioContextRef c), (Phone.mediaStreamRef c),
        (Phone.frameIntervalRef c), (Phone.mediaRecorderRef c) as [r|];
        cbn [ifSet closed cleared nextHandle];
        repeat first [ rewrite (proj1 (endVoices_fields _ _))
                     | rewrite (proj1 (endTracks_fields _ _)) ];
        cbn [ifSet closed cleared nextHandle]; unfold finalized;
        try destruct (member r (recording b)); reflexivity. }
    cbn. rewrite N. repeat split. apply in_or_app. right. now left.
Qed.

Lemma late_open_reactivates_witness :
  Tablet.audioContextInRef (cells tabletLive) = Some 1%positive /\
  Tablet.status (cells (final (Tablet.stopSession tabletLive))) = disconnected /\
  Tablet.status
    (cells (final (Tablet.onopen (final (Tablet.stopSession tabletLive)))))
  = connected.
Proof.
  split; [reflexivity|]. split; [reflexivity|].
  exact (proj1 (proj2
    (proj1 late_open_reactivates tabletLive 1%positive eq_refl))).
Defined.

End Restart.

Section TranscriptFacts.
Import Web Transcript Scenario Walkthrough.

Lemma string_append_assoc (a b c : string) :
  String.append (String.append a b) c = String.append a (String.append b c).
Proof. induction a as [|x a IH]; cbn; [reflexivity | now rewrite IH]. Qed.

Lemma string_append_nil (a : string) : String.append a EmptyString = a.
Proof. induction a as [|x a IH]; cbn; [reflexivity | now rewrite IH]. Qed.

Lemma fragments_accumulate fs : forall m : Tablet.State,
  let m' := Tablet.run (map deliver fs) m in
  Tablet.transcriptions (cells m') = Tablet.transcriptions (cells m) /\
  Tablet.currentInputTranscriptionRef (cells m')
  = String.append (Tablet.currentInputTranscriptionRef (cells m)) (said user fs) /\
  Tablet.currentOutputTranscriptionRef (cells m')
  = String.append (Tablet.currentOutputTranscriptionRef (cells m)) (said model fs).
Proof.
  induction fs as [|f fs IH]; intros [b c]; cbv zeta.
  - cbn. now rewrite !string_append_nil.
  - destruct f as [clk r t]. cbn [map]. rewrite Tablet_run_cons.
    set (f := {| heardAt := clk; speaker := r; words := t |}).
    destruct (IH (Tablet.step {| browser := b; cells := c |} (deliver f)))
      as (-> & -> & ->).
    unfold Tablet.step, deliver. cbn [Tablet.handle].
    destruct (Tablet_onmessage_frame (heardAt f)
                (fragmentMessage (speaker f) (words f)) b c) as (-> & -> & -> & _).
    subst f. destruct r; cbn; rewrite ?string_append_assoc; tauto.
Qed.

(** Property X11.  A whole turn of the transcript ([src/App.tsx], lines
    179-199): after any sequence of fragments, of either speaker and
    interleaved in any way, followed by the end of the turn, both
    accumulators are empty again, and the history has gained the user's
    fragments joined in arrival order and then the model's, each as one
    entry (an empty side gives no entry), cut to the 50 newest; a turn
    in which nothing was said leaves the history as it was. *)
Theorem turn_is_flushed fs now (m : Tablet.State) :
  let m' := Tablet.run (map deliver fs ++ [Tablet.Message now turnEnd]) m in
  let uTrans := String.append (Tablet.currentInputTranscriptionRef (cells m))
                  (said user fs) in
  let mTrans := String.append (Tablet.currentOutputTranscriptionRef (cells m))
                  (said model fs) in
  Tablet.transcriptions (cells m') =
    (if truthy uTrans || truthy mTrans
     then sliceLast 50
            (Tablet.transcriptions (cells m)
             ++ Tablet.flushedEntries now uTrans mTrans)
     else Tablet.transcriptions (cells m)) /\
  Tablet.currentInputTranscriptionRef (cells m') = ""%string /\
  Tablet.currentOutputTranscriptionRef (cells m') = ""%string.
Proof.
  cbv zeta. rewrite Tablet_run_app.
  destruct (fragments_accumulate fs m) as (Ht & Hu & Hm).
  destruct (Tablet.run (map deliver fs) m) as [b1 c1]. cbn [cells] in *.
  cbn [Tablet.run fold_left]. unfold Tablet.step. cbn [Tablet.handle].
  destruct (Tablet_onmessage_frame now turnEnd b1 c1) as (-> & -> & -> & _).
  cbn -[sliceLast truthy Tablet.flushedEntries].
  rewrite <- Hu, <- Hm, <- Ht.
  destruct (truthy _ || truthy _)%bool; cbn -[sliceLast Tablet.flushedEntries];
    tauto.
Qed.

(** Property X12.  The two fragment branches of [onmessage] are an
    [if]/[else if] ([src/App.tsx], lines 179-183): of a message that
    carries a fragment of each speaker only the model's is appended; the
    user's fragment is dropped, and the history is untouched. *)
Theorem output_fragment_takes_precedence now message sc tOut tIn b c :
  serverContent message = Some sc ->
  outputTranscription sc = Some tOut ->
  inputTranscription sc = Some tIn ->
  turnComplete sc = false ->
  let c' := cells (final (Tablet.onmessage now message
                            {| browser := b; cells := c |})) in
  Tablet.currentOutputTranscriptionRef c'
  = concatText (Tablet.currentOutputTranscriptionRef c) (transcriptionText tOut) /\
  Tablet.currentInputTranscriptionRef c' = Tablet.currentInputTranscriptionRef c /\
  Tablet.transcriptions c' = Tablet.transcriptions c.
Proof.
  intros Hsc Ho Hi Ht. cbv zeta.
  destruct (Tablet_onmessage_frame now message b c) as (-> & -> & -> & _).
  unfold Tablet.noted, Tablet.fragments. rewrite Hsc, Ht, Ho. cbn. tauto.
Qed.

Lemma output_fragment_takes_precedence_witness :
  inputTranscription crossTalk = Some {| transcriptionText := Some "x = 2"%string |} /\
  Tablet.currentInputTranscriptionRef
    (cells (final (Tablet.onmessage (at_ 0) {| serverContent := Some crossTalk |}
                     {| browser := browser tabletLive;
                        cells := cells tabletLive |})))
  = Tablet.currentInputTranscriptionRef (cells tabletLive).
Proof.
  split; [reflexivity|].
  exact (proj1 (proj2
    (output_fragment_takes_precedence (at_ 0)
       {| serverContent := Some crossTalk |} crossTalk _ _
       (browser tabletLive) (cells tabletLive)
       eq_refl eq_refl eq_refl eq_refl))).
Defined.

Lemma flushedEntries_length now u mo :
  (List.length (Tablet.flushedEntries now u mo) <= 2)%nat.
Proof.
  unfold Tablet.flushedEntries. destruct (truthy u), (truthy mo); cbn; lia.
Qed.

(** Property X13.  What the end of a turn keeps ([src/App.tsx], lines
    185-198, [.slice(-50)]): the new history is a suffix of the old one
    followed by all the entries of the turn; what is dropped is dropped
    from the oldest end, and nothing is dropped while the old history
    and the new entries together are at most 50. *)
Theorem flush_keeps_newest now message sc b c :
  serverContent message = Some sc ->
  turnComplete sc = true ->
  let uTrans := Tablet.currentInputTranscriptionRef (Tablet.fragments sc c) in
  let mTrans := Tablet.currentOutputTranscriptionRef (Tablet.fragments sc c) in
  let c' := cells (final (Tablet.onmessage now message
                            {| browser := b; cells := c |})) in
  let new := if (truthy uTrans || truthy mTrans)%bool
             then Tablet.flushedEntries now uTrans mTrans else [] in
  exists dropped kept,
    Tablet.transcriptions c = dropped ++ kept /\
    Tablet.transcriptions c' = kept ++ new /\
    ((List.length (Tablet.transcriptions c) + List.length new <= 50)%nat ->
     dropped = []).
Proof.
  intros Hsc Htc. cbv zeta.
  destruct (Tablet_onmessage_frame now message b c) as (-> & _).
  unfold Tablet.noted. rewrite Hsc, Htc. unfold Tablet.flush.
  assert (T : Tablet.transcriptions (Tablet.fragments sc c)
              = Tablet.transcriptions c).
  { unfold Tablet.fragments.
    destruct (outputTranscription sc), (inputTranscription sc); reflexivity. }
  set (u := Tablet.currentInputTranscriptionRef (Tablet.fragments sc c)).
  set (mo := Tablet.currentOutputTranscriptionRef (Tablet.fragments sc c)).
  destruct (truthy u || truthy mo)%bool; cbn -[sliceLast Tablet.flushedEntries].
  - rewrite T. set (prev := Tablet.transcriptions c).
    set (new := Tablet.flushedEntries now u mo).
    pose proof (flushedEntries_length now u mo) as L. fold new in L.
    set (d := (List.length prev + List.length new - 50)%nat).
    exists (firstn d prev), (skipn d prev).
    split; [symmetry; apply firstn_skipn|]. split.
    + unfold sliceLast. rewrite length_app. fold d. rewrite skipn_app.
      replace (d - List.length prev)%nat with 0%nat by (unfold d; lia).
      reflexivity.
    + intros H. replace d with 0%nat by (unfold d; lia). reflexivity.
  - rewrite T. exists [], (Tablet.transcriptions c).
    rewrite app_nil_r. tauto.
Qed.

Lemma flush_keeps_newest_witness :
  turnComplete
    {| outputTranscription := None;
       inputTranscription := Some {| transcriptionText := Some "hi"%string |};
       turnComplete := true; modelTurn := None; interrupted := false |} = true /\
  exists kept,
    Tablet.transcriptions
      (cells (final (Tablet.onmessage (at_ 0) (userTurn "hi")
                       {| browser := browser tabletLive;
                          cells := cells tabletLive |})))
    = kept ++ [{| role := user; text := "hi"; timestamp := 0 |}].
Proof.
  split; [reflexivity|].
  destruct (flush_keeps_newest (at_ 0) (userTurn "hi") _
              (browser tabletLive) (cells tabletLive) eq_refl eq_refl)
    as (dropped & kept & _ & H & _).
  exists kept. exact H.
Defined.

End TranscriptFacts.

Section CaptureEncoder.
Import Web.

Lemma byte_of_Z_value z : Z.of_N (Byte.to_N (Codec.byte_of_Z z)) = z mod 256.
Proof.
  unfold Codec.byte_of_Z, Codec.byte_of_N.
  pose proof (Z.mod_pos_bound z 256 ltac:(lia)) as B.
  assert (E : (Z.to_N (z mod 256) mod 256 = Z.to_N (z mod 256))%N).
  { apply N.mod_small. lia. }
  rewrite E.
  destruct (Byte.of_N (Z.to_N (z mod 256))) as [x|] eqn:O.
  - apply Byte.to_of_N in O. rewrite O. lia.
  - apply Byte.of_N_None_iff in O. lia.
Qed.

Lemma pcm_bytes_nth int16 : forall i v,
  nth_error int16 i = Some v ->
  nth_error (Codec.pcm_bytes int16) (2 * i) = Some (Codec.byte_of_Z v) /\
  nth_error (Codec.pcm_bytes int16) (2 * i + 1) = Some (Codec.byte_of_Z (v / 256)).
Proof.
  induction int16 as [|x l IH]; intros [|i] v H; try discriminate.
  - cbn in H. injection H as ->. cbn. tauto.
  - cbn in H. destruct (IH i v H) as [A B].
    replace (2 * S i)%nat with (S (S (2 * i))) by lia.
    replace (S (S (2 * i)) + 1)%nat with (S (S (2 * i + 1))) by lia.
    cbn [Codec.pcm_bytes flat_map Codec.int16_bytes app nth_error].
    exact (conj A B).
Qed.

Lemma pcm_bytes_length int16 :
  List.length (Codec.pcm_bytes int16) = (2 * List.length int16)%nat.
Proof.
  induction int16 as [|x l IH]; [reflexivity|].
  cbn [Codec.pcm_bytes flat_map Codec.int16_bytes app List.length].
  unfold Codec.pcm_bytes in IH. rewrite IH. lia.
Qed.

(** Property X14.  The capture encoder ([onaudioprocess] of both
    components): a buffer of captured samples is sent as exactly one
    message whose data is the transport text of its 16-bit samples and
    whose type is [audio/pcm;rate=16000] on the tablet and
    [audio/pcm;rate=44100] on the phone; the component's state is
    untouched.  The bytes are two per sample, and sample [i] is bytes
    [2i] and [2i+1], low byte first, of its 16-bit two's-complement
    value. *)
Theorem capture_encoder_chunk (inputData : list Codec.Float) i v :
  nth_error (Codec.toPCM16 inputData) i = Some v ->
  let bytes := Codec.pcm_bytes (Codec.toPCM16 inputData) in
  (forall m : Tablet.State,
     let r := Tablet.onaudioprocess inputData m in
     completion r = Normal tt /\ final r = m /\
     trace r = [SendRealtimeInput {| data := Codec.encode bytes;
                                     mimeType := "audio/pcm;rate=16000" |}]) /\
  (forall m : Phone.State,
     let r := Phone.onaudioprocess inputData m in
     completion r = Normal tt /\ final r = m /\
     trace r = [SendRealtimeInput {| data := Codec.encode bytes;
                                     mimeType := "audio/pcm;rate=44100" |}]) /\
  List.length bytes = (2 * List.length inputData)%nat /\
  exists lo hi,
    nth_error bytes (2 * i) = Some lo /\
    nth_error bytes (2 * i + 1) = Some hi /\
    Z.of_N (Byte.to_N lo) + 256 * Z.of_N (Byte.to_N hi) = v mod 65536.
Proof.
  intros Hv. cbv zeta.
  split; [intros m; repeat split|]. split; [intros m; repeat split|].
  split.
  - rewrite pcm_bytes_length. unfold Codec.toPCM16. now rewrite length_map.
  - destruct (pcm_bytes_nth _ i v Hv) as [A B].
    exists (Codec.byte_of_Z v), (Codec.byte_of_Z (v / 256)).
    split; [exact A|]. split; [exact B|].
    rewrite !byte_of_Z_value. Z.to_euclidean_division_equations. lia.
Qed.

Lemma capture_encoder_chunk_witness :
  nth_error (Codec.toPCM16 [Codec.Finite (-(1 # 2))]) 0 = Some (-16384) /\
  List.length (Codec.pcm_bytes (Codec.toPCM16 [Codec.Finite (-(1 # 2))])) = 2%nat.
Proof.
  split; [reflexivity|].
  exact (proj1 (proj2 (proj2
    (capture_encoder_chunk [Codec.Finite (-(1 # 2))] 0 (-16384) eq_refl)))).
Defined.

End CaptureEncoder.

Section FrameSamplerFacts.
Import Web FrameSampler Walkthrough.
Local Open Scope string_scope.

Lemma split_commaFree s : commaFree s = true -> split comma s = [s].
Proof.
  induction s as [|c s IH]; [reflexivity|]. cbn. intros H.
  apply andb_true_iff in H. destruct H as [Hc Hs].
  apply negb_true_iff in Hc. rewrite Hc, (IH Hs). reflexivity.
Qed.

Lemma split_prefix p rest :
  commaFree p = true ->
  split comma (String.append p (String comma rest)) = p :: split comma rest.
Proof.
  induction p as [|c p IH]; cbn [String.append split]; intros H.
  - now rewrite Ascii.eqb_refl.
  - cbn in H. apply andb_true_iff in H. destruct H as [Hc Hp].
    apply negb_true_iff in Hc. rewrite Hc, (IH Hp). reflexivity.
Qed.

(** Property X15.  The frame sampler (the timer callbacks, [src/App.tsx]
    lines 152-176 and [src/unnamed/part_000] lines 199-217): of a data
    URL [prefix,payload] the chunk sent carries exactly [payload], typed
    [image/jpeg]; and it is sent only if the canvas gave a drawing
    context and the video is ready: on the tablet a video width other
    than zero, on the phone a video element in ready state 4. *)
Theorem frame_tick_sends_payload (t : Tick) prefix payload :
  commaFree prefix = true ->
  commaFree payload = true ->
  dataURL t = Some (String.append prefix (String comma payload)) ->
  (tabletTick t =
     if context2d t && negb (N.eqb (videoWidth t) 0)
     then Some {| imageData := Some payload; imageType := "image/jpeg" |}
     else None) /\
  (phoneTick t =
     if context2d t && video t && N.eqb (readyState t) 4
     then Some {| imageData := Some payload; imageType := "image/jpeg" |}
     else None).
Proof.
  intros Hp Hq Hd. unfold tabletTick, phoneTick, imageChunk. rewrite Hd.
  rewrite (split_prefix _ _ Hp), (split_commaFree _ Hq). cbn [nth_error].
  split.
  - destruct (context2d t), (N.eqb (videoWidth t) 0); reflexivity.
  - destruct (context2d t), (video t), (N.eqb (readyState t) 4); reflexivity.
Qed.

Lemma frame_tick_sends_payload_witness :
  commaFree "data:image/jpeg;base64" = true /\
  commaFree "/9j/4AAQ" = true /\
  tabletTick jpegTick
  = Some {| imageData := Some "/9j/4AAQ"; imageType := "image/jpeg" |} /\
  phoneTick jpegTick
  = Some {| imageData := Some "/9j/4AAQ"; imageType := "image/jpeg" |}.
Proof.
  split; [reflexivity|]. split; [reflexivity|].
  exact (frame_tick_sends_payload jpegTick "data:image/jpeg;base64" "/9j/4AAQ"
           eq_refl eq_refl eq_refl).
Defined.

End FrameSamplerFacts.

Section RecordingFacts.
Import Web Recording.
Local Open Scope string_scope.
Local Open Scope list_scope.

(** Property X16.  The container of a recording ([src/unnamed/part_000],
    lines 146-165 and [downloadSession]): the recorder is created
    without options exactly when the platform supports none of the three
    candidate types; when the recorder stops, one session is put at the
    head of the history, stamped with the time of the stop, and its blob
    is typed [video/mp4] if the platform supports [video/mp4] and
    [video/webm] otherwise, also when nothing is supported; the file
    name of its download ends in [.mp4] or [.webm] accordingly. *)
Theorem recording_type_and_extension (isTypeSupported : string -> bool)
    (toISOString : Z -> string) idNow now objectURL (s : Store) :
  let st := supportedType isTypeSupported in
  let s' := onstop st idNow now objectURL s in
  let mp4 := isTypeSupported "video/mp4" in
  (recorderOptions st = None <->
   isTypeSupported "video/mp4" = false /\
   isTypeSupported "video/webm;codecs=vp9,opus" = false /\
   isTypeSupported "video/webm" = false) /\
  exists session,
    history s' = session :: history s /\
    type (blob session) = (if mp4 then "video/mp4" else "video/webm") /\
    timestamp session = now /\
    downloadName toISOString session
    = String.append "socratic-session-"
        (String.append (toISOString now) (if mp4 then ".mp4" else ".webm")).
Proof.
  cbv zeta. unfold supportedType, types. cbn [find].
  destruct (isTypeSupported "video/mp4") eqn:A;
    [|destruct (isTypeSupported "video/webm;codecs=vp9,opus") eqn:B;
      [|destruct (isTypeSupported "video/webm") eqn:C]].
  all: split; [cbn; split; [intros H; try discriminate H; tauto
                           | intros (H1 & H2 & H3); congruence]|].
  all: eexists; split; [reflexivity|]; repeat split.
Qed.

Lemma chunks_collected datas : forall s,
  chunksRef (fold_left (fun s d => ondataavailable d s) datas s)
  = chunksRef s ++ filter (fun d => Nat.ltb 0 (List.length d)) datas /\
  history (fold_left (fun s d => ondataavailable d s) datas s) = history s.
Proof.
  induction datas as [|d datas IH]; intros s; cbn [fold_left filter].
  - now rewrite app_nil_r.
  - destruct (IH (ondataavailable d s)) as [-> ->].
    unfold ondataavailable. destruct (Nat.ltb 0 (List.length d)); cbn.
    + rewrite <- app_assoc. tauto.
    + tauto.
Qed.

Lemma concat_nonempty (datas : list (list byte)) :
  List.concat (filter (fun d => Nat.ltb 0 (List.length d)) datas)
  = List.concat datas.
Proof.
  induction datas as [|d datas IH]; [reflexivity|].
  destruct d as [|x d]; simpl; [exact IH|]. now rewrite IH.
Qed.

(** Property X17.  The data of a recording ([src/unnamed/part_000], lines
    151-165): from the start of the recorder, which empties the chunk
    list, through any sequence of data events to its stop, the chunks
    kept are never empty, and the blob of the session put at the head of
    the history is the concatenation of the data of all events, in
    order; its size is the sum of their sizes.  Chunks left from an
    earlier recording are not in it. *)
Theorem recording_collects_chunks st idNow now objectURL datas (s : Store) :
  let s1 := fold_left (fun s d => ondataavailable d s) datas (reset s) in
  let s' := onstop st idNow now objectURL s1 in
  Forall (fun d => d <> []) (chunksRef s1) /\
  exists session,
    history s' = session :: history s /\
    List.concat (parts (blob session)) = List.concat datas /\
    size (blob session) = list_sum (map (@List.length byte) datas).
Proof.
  cbv zeta. destruct (chunks_collected datas (reset s)) as [Hc Hh].
  cbn [reset chunksRef app history] in Hc, Hh. split.
  - rewrite Hc. apply Forall_forall. intros d Hd. apply filter_In in Hd.
    destruct Hd as [_ Hd]. destruct d; [discriminate Hd | discriminate].
  - eexists. cbn [onstop history]. split; [now rewrite Hh|].
    unfold size. cbn [blob parts]. rewrite Hc, concat_nonempty.
    split; [reflexivity|].
    clear. induction datas as [|d datas IH]; [reflexivity|].
    cbn [List.concat map list_sum]. rewrite length_app. now rewrite IH.
Qed.

End RecordingFacts.

Section StaleMixer.
Import Web Playback PhoneControls Scenario Walkthrough.

Lemma Phone_play_misfit now message buf ctx g b c :
  bears message buf ->
  Phone.audioContextRef c = Some ctx ->
  Phone.recordingMixerRef c = Some g ->
  Pos.eqb (Phone.owner g) ctx = false ->
  Phone.playInboundAudio now message {| browser := b; cells := c |} =
  {| completion := Abrupt Phone.InvalidAccessError;
     final :=
       {| browser := bumped b;
          cells := Phone.set_nextStartTimeRef
                     (Qmax (Phone.nextStartTimeRef c) (currentTime now)) c |};
     trace := [CreateBufferSource ctx (nextHandle b);
               ConnectDestination (nextHandle b) ctx;
               ConnectMixer (nextHandle b) (Phone.gain g)] |}.
Proof.
  intros (b64 & Hin & Ht & Hd) Hctx Hmix Hown.
  unfold Phone.playInboundAudio. rewrite bind_run, Hin. js_run. rewrite Hctx.
  cbn [when]. rewrite Ht. js_run. rewrite Hd. unfold fresh. js_run.
  rewrite Hmix. js_run. rewrite Hown. js_run. reflexivity.
Qed.

Lemma Phone_onmessage_misfit now message buf ctx g b c :
  bears message buf ->
  Phone.audioContextRef c = Some ctx ->
  Phone.recordingMixerRef c = Some g ->
  Pos.eqb (Phone.owner g) ctx = false ->
  Phone.onmessage now message {| browser := b; cells := c |} =
  {| completion := Abrupt Phone.InvalidAccessError;
     final :=
       {| browser := bumped b;
          cells := Phone.set_nextStartTimeRef
                     (Qmax (Phone.nextStartTimeRef c) (currentTime now)) c |};
     trace := [CreateBufferSource ctx (nextHandle b);
               ConnectDestination (nextHandle b) ctx;
               ConnectMixer (nextHandle b) (Phone.gain g)] |}.
Proof.
  intros Hb Hctx Hmix Hown. unfold Phone.onmessage.
  rewrite bind_run, (Phone_play_misfit now message buf ctx g) by assumption.
  reflexivity.
Qed.

Lemma Phone_misfit_run ctx g arrivals : forall m : Phone.State,
  Forall (fun a => bears (chunk a) (decoded a)) arrivals ->
  Phone.audioContextRef (cells m) = Some ctx ->
  Phone.recordingMixerRef (cells m) = Some g ->
  Pos.eqb (Phone.owner g) ctx = false ->
  let m' := Phone.run (map Phone.arrive arrivals) m in
  Phone.audioContextRef (cells m') = Some ctx /\
  Phone.recordingMixerRef (cells m') = Some g /\
  Phone.audioSourcesRef (cells m') = Phone.audioSourcesRef (cells m).
Proof.
  induction arrivals as [|a arrivals IH]; intros [b c] Hall Hctx Hmix Hown;
    cbv zeta; cbn [cells] in *.
  - cbn. tauto.
  - inversion Hall as [|? ? Ha Hrest]; subst. cbn [map].
    rewrite Phone_run_cons.
    change (Phone.step {| browser := b; cells := c |} (Phone.arrive a))
      with (final (Phone.onmessage (clock a) (chunk a)
                     {| browser := b; cells := c |})).
    rewrite (Phone_onmessage_misfit _ _ (decoded a) ctx g) by assumption.
    cbn [final].
    destruct (IH {| browser := bumped b;
                    cells := Phone.set_nextStartTimeRef
                               (Qmax (Phone.nextStartTimeRef c)
                                  (currentTime (clock a))) c |}
                Hrest Hctx Hmix Hown) as (-> & -> & ->).
    cbn. tauto.
Qed.

Lemma Phone_acquires_inv env :
  Phone.acquires env = true ->
  exists n,
    (Phone.contextSuspended env = true ->
     Phone.contextResume env = Fulfilled tt) /\
    Phone.userMedia env = Fulfilled n /\
    Phone.mediaRecorder env = Fulfilled tt /\
    Phone.liveSession env = Fulfilled tt.
Proof.
  intros Ha.
  destruct env as [sus [[]|e0] [n|e1] mix [[]|e2] [[]|e3]]; cbn in Ha;
    try (destruct sus; discriminate Ha); exists n; cbn;
    repeat split; try reflexivity; intros ->; discriminate Ha.
Qed.

(** Property X18.  The recording mixer outlives its context
    ([src/unnamed/part_000]: [stopSession] closes the context but leaves
    [recordingMixerRef], and a start whose destination node cannot be
    created does not replace it).  In a session started that way while
    the reference still holds a mixer of an earlier context, every
    well-formed inbound chunk fails at the connection to the mixer:
    [onmessage] ends abruptly with an [InvalidAccessError], the voice is
    never started and never joins the set of voices, however many chunks
    arrive.  The session is connected, yet the model is not heard. *)
Theorem stale_mixer_blocks_playback env e g arrivals (m : Phone.State) :
  Phone.acquires env = true ->
  Phone.mixing env = Phone.NoDestination e ->
  Phone.recordingMixerRef (cells m) = Some g ->
  Phone.owner g <> nextHandle (browser m) ->
  Forall (fun a => bears (chunk a) (decoded a)) arrivals ->
  let ctx := nextHandle (browser m) in
  let live := Phone.run [Phone.Start env; Phone.Open ctx] m in
  let m' := Phone.run (map Phone.arrive arrivals) live in
  Phone.status (cells live) = connected /\
  Phone.isFullRecordingSupported (cells live) = false /\
  Phone.audioSourcesRef (cells m') = Phone.audioSourcesRef (cells m) /\
  forall now message buf,
    bears message buf ->
    let r := Phone.onmessage now message m' in
    completion r = Abrupt Phone.InvalidAccessError /\
    (forall h t, ~ In (SourceStart h t) (trace r)) /\
    Phone.audioSourcesRef (cells (final r)) = Phone.audioSourcesRef (cells m).
Proof.
  intros Ha Hmixing Hmix Hown Hall. cbv zeta. destruct m as [b c].
  cbn [browser cells] in *.
  destruct (Phone_acquires_inv env Ha) as (n & Hr & Hu & Hm & Hl).
  rewrite !Phone_run_cons.
  change (Phone.step {| browser := b; cells := c |} (Phone.Start env))
    with (final (Phone.startSession env {| browser := b; cells := c |})).
  pose proof (Phone_start_fields env b c n Hr Hu Hm Hl) as F. cbv zeta in F.
  rewrite Hmixing in F.
  destruct F as (_ & _ & _ & _ & Hfull & Hctx & _ & _ & Hsrc & Hg & _).
  destruct (final (Phone.startSession _ _)) as [b1 c1]. cbn [browser cells] in *.
  change (Phone.step {| browser := b1; cells := c1 |} (Phone.Open (nextHandle b)))
    with (final (Phone.onopen (nextHandle b) {| browser := b1; cells := c1 |})).
  rewrite Phone_onopen_run. cbn [final Phone.run fold_left].
  set (live := {| browser := _; cells := _ |}).
  assert (Lctx : Phone.audioContextRef (cells live) = Some (nextHandle b))
    by exact Hctx.
  assert (Lmix : Phone.recordingMixerRef (cells live) = Some g)
    by (cbn; congruence).
  assert (Lown : Pos.eqb (Phone.owner g) (nextHandle b) = false)
    by (apply Pos.eqb_neq; exact Hown).
  destruct (Phone_misfit_run (nextHandle b) g arrivals live Hall Lctx Lmix Lown)
    as (Mctx & Mmix & Msrc).
  fold (Phone.run (map Phone.arrive arrivals) live).
  split; [reflexivity|]. split; [exact Hfull|].
  split; [rewrite Msrc; cbn; exact Hsrc|].
  intros now message buf Hb.
  destruct (Phone.run (map Phone.arrive arrivals) live) as [b2 c2].
  cbn [cells] in *.
  rewrite (Phone_onmessage_misfit now message buf (nextHandle b) g)
    by assumption.
  cbn [completion trace final cells].
  split; [reflexivity|]. split.
  - intros h t [H|[H|[H|[]]]]; discriminate H.
  - cbn. rewrite Msrc. cbn. exact Hsrc.
Qed.

Lemma stale_mixer_blocks_playback_witness :
  Phone.acquires cameraUnmixed = true /\
  Phone.recordingMixerRef (cells phoneStopped)
  = Some {| Phone.gain := 4%positive; Phone.owner := 1%positive |} /\
  Phone.status
    (cells (Phone.run [Phone.Start cameraUnmixed;
                       Phone.Open (nextHandle (browser phoneStopped))]
              phoneStopped))
  = connected /\
  Phone.audioSourcesRef
    (cells (Phone.run (map Phone.arrive burst)
              (Phone.run [Phone.Start cameraUnmixed;
                          Phone.Open (nextHandle (browser phoneStopped))]
                 phoneStopped)))
  = Phone.audioSourcesRef (cells phoneStopped).
Proof.
  assert (B : Forall (fun a => bears (chunk a) (decoded a)) burst).
  { repeat constructor; exists silence; repeat split; reflexivity. }
  assert (O : 1%positive <> nextHandle (browser phoneStopped)).
  { intros H. vm_compute in H. discriminate H. }
  split; [reflexivity|]. split; [reflexivity|].
  pose proof (stale_mixer_blocks_playback cameraUnmixed NotSupportedError
                {| Phone.gain := 4%positive; Phone.owner := 1%positive |}
                burst phoneStopped
                eq_refl eq_refl eq_refl O B) as H.
  cbv zeta in H. destruct H as (H1 & _ & H2 & _). exact (conj H1 H2).
Defined.

End StaleMixer.

Section FailedConnect.
Import Web PhoneControls Scenario Walkthrough.

Lemma In_finalized_iff r b h :
  In h (recording (finalized r b)) <-> In h (recording b) /\ h <> r.
Proof.
  unfold finalized. destruct (member r (recording b)) eqn:M.
  - cbn. apply In_without.
  - split; [|tauto]. intros H. split; [exact H|]. intros ->.
    assert (T : member r (recording b) = true).
    { apply existsb_exists. exists r. split; [exact H | apply Pos.eqb_refl]. }
    congruence.
Qed.

Lemma Phone_session_keeps env env' evs b c :
  Phone.status c = disconnected \/ Phone.status c = error ->
  Phone.acquires env = true ->
  forallb phoneQuiet evs = true ->
  let m := {| browser := b; cells := c |} in
  let m' := final (handleToggle env'
                     (Phone.run (Phone.Open (nextHandle b) :: evs)
                        (final (handleToggle env m)))) in
  Phone.status (cells m') = disconnected /\
  forall h, (h < nextHandle b)%positive ->
    (In h (openContexts b) -> In h (openContexts (browser m'))) /\
    (In h (liveTracks b) -> In h (liveTracks (browser m'))) /\
    (In h (activeTimers b) -> In h (activeTimers (browser m'))) /\
    (In h (recording b) -> In h (recording (browser m'))).
Proof.
  intros Hst Ha Hq. cbv zeta.
  destruct (Phone_acquires_inv env Ha) as (n & Hr & Hu & Hm & Hl).
  rewrite (handleToggle_idle env b c Hst).
  pose proof (Phone_start_media env b c n Hr Hu Hm) as F. cbv zeta in F.
  rewrite Hl in F.
  destruct F as (_ & _ & _ & Hctx & _ & _ & _ & _ & (Hs1 & _) &
                 stream & rec & Hstream & Hrec & _ & Hoc & Hlt & Hrc & Hat &
                 Bn & Bs & Br).
  destruct (final (Phone.startSession _ _)) as [b1 c1]. cbn [browser cells] in *.
  rewrite Phone_run_cons.
  change (Phone.step {| browser := b1; cells := c1 |} (Phone.Open (nextHandle b)))
    with (final (Phone.onopen (nextHandle b) {| browser := b1; cells := c1 |})).
  rewrite Phone_onopen_run. cbn [final].
  match goal with
  | |- context [Phone.run evs ?m2] =>
      pose proof (Phone_quiet_run evs m2 Hq) as R;
      destruct (Phone.run evs m2) as [b3 c3]
  end.
  destruct R as (Roc & Rlt & Rat & Rrc & Rctx & Rstr & Rfi & Rses & Rrec & Rst).
  cbn [browser cells] in *.
  rewrite (handleToggle_busy env' b3 c3) by (right; exact Rst).
  rewrite Phone_stopSession_run. cbn [final browser cells].
  rewrite Rctx, Rstr, Rfi, Rrec. cbn -[closed cleared endTracks endVoices finalized].
  rewrite Hctx, Hstream, Hrec. cbn [ifSet].
  split; [reflexivity|].
  set (B0 := cleared (nextHandle b1) (finalized rec b3)).
  destruct (endVoices_fields (Phone.audioSourcesRef c3) (endTracks stream B0))
    as (_ & Voc & Vlt & Vat & Vrc).
  destruct (endTracks_fields stream B0) as (_ & Toc & Tat & Trc & _).
  intros h Hh. split; [|split; [|split]].
  - cbn [closed openContexts]. rewrite Voc, Toc. subst B0.
    cbn [cleared openContexts].
    replace (openContexts (finalized rec b3)) with (openContexts b3)
      by (unfold finalized; destruct (member rec (recording b3)); reflexivity).
    rewrite Roc. cbn [openContexts]. rewrite Hoc, In_without, in_app_iff.
    intros H. split; [now left | lia].
  - cbn [closed liveTracks]. rewrite Vlt, liveTracks_endTracks.
    subst B0. cbn [cleared liveTracks].
    replace (liveTracks (finalized rec b3)) with (liveTracks b3)
      by (unfold finalized; destruct (member rec (recording b3)); reflexivity).
    rewrite Rlt. cbn [liveTracks]. rewrite Hlt, in_app_iff.
    intros H. split; [now left|]. intros T. specialize (Bs h T). lia.
  - cbn [closed activeTimers]. rewrite Vat, Tat. subst B0.
    cbn [cleared activeTimers].
    replace (activeTimers (finalized rec b3)) with (activeTimers b3)
      by (unfold finalized; destruct (member rec (recording b3)); reflexivity).
    rewrite Rat. cbn [activeTimers]. rewrite In_without, in_app_iff, Hat.
    intros H. split; [now left | lia].
  - cbn [closed recording]. rewrite Vrc, Trc. subst B0.
    cbn [cleared recording]. rewrite In_finalized_iff, Rrc. cbn [recording].
    rewrite Hrc, in_app_iff. intros H. split; [now left | lia].
Qed.

(** Property X19.  A start that fails at the channel is not undone by the
    button ([src/unnamed/part_000], [startSession] and [handleToggle]).
    When the camera and the recorder were granted and only the channel
    is refused, the status is back at [disconnected] with the error
    message (or [Access error]) stored, while the context is open, the
    tracks are live and the recorder is recording.  The next press
    therefore starts a new session instead of stopping; and when that
    session has opened, run and been stopped by a third press, the
    context, the tracks and the recorder of the failed attempt are still
    open, live and recording. *)
Theorem failed_connect_outlives_retry env env' env'' e n evs (m : Phone.State) :
  Phone.status (cells m) = disconnected \/ Phone.status (cells m) = error ->
  (Phone.contextSuspended env = true -> Phone.contextResume env = Fulfilled tt) ->
  Phone.userMedia env = Fulfilled n ->
  Phone.mediaRecorder env = Fulfilled tt ->
  Phone.liveSession env = Rejected e ->
  Phone.acquires env' = true ->
  forallb phoneQuiet evs = true ->
  let ctx := nextHandle (browser m) in
  let m1 := final (handleToggle env m) in
  let m2 := Phone.run (Phone.Open (nextHandle (browser m1)) :: evs)
              (final (handleToggle env' m1)) in
  let m3 := final (handleToggle env'' m2) in
  Phone.status (cells m1) = disconnected /\
  Phone.errorMessage (cells m1)
  = Some (if truthy (message e) then message e else "Access error"%string) /\
  Phone.status (cells m3) = disconnected /\
  exists stream recorder,
    Phone.audioContextRef (cells m1) = Some ctx /\
    Phone.mediaStreamRef (cells m1) = Some stream /\
    Phone.mediaRecorderRef (cells m1) = Some recorder /\
    List.length stream = n /\
    In ctx (openContexts (browser m3)) /\
    (forall t, In t stream -> In t (liveTracks (browser m3))) /\
    In recorder (recording (browser m3)).
Proof.
  intros Hst Hr Hu Hm Hl Ha Hq. cbv zeta. destruct m as [b c].
  cbn [browser cells] in *.
  rewrite (handleToggle_idle env b c Hst).
  pose proof (Phone_start_media env b c n Hr Hu Hm) as F. cbv zeta in F.
  rewrite Hl in F.
  destruct F as (_ & _ & _ & Hctx & _ & _ & _ & _ & (Hs1 & He1 & _) &
                 stream & rec & Hstream & Hrec & Hlen & Hoc & Hlt & Hrc & _ &
                 Bn & Bs & Br).
  destruct (final (Phone.startSession _ _)) as [b1 c1]. cbn [browser cells] in *.
  destruct (Phone_session_keeps env' env'' evs b1 c1 (or_introl Hs1) Ha Hq)
    as (Hs3 & K).
  cbv zeta in Hs3, K.
  split; [exact Hs1|]. split; [exact He1|]. split; [exact Hs3|].
  exists stream, rec. repeat (split; [assumption|]).
  split; [|split].
  - apply (K (nextHandle b) Bn). rewrite Hoc. apply in_or_app. right. now left.
  - intros t Ht. apply (K t); [apply (Bs t Ht)|].
    rewrite Hlt. apply in_or_app. now right.
  - apply (K rec); [apply Br|]. rewrite Hrc. apply in_or_app. right. now left.
Qed.

Lemma failed_connect_outlives_retry_witness :
  Phone.liveSession cameraUnconnected = Rejected channelDown /\
  Phone.acquires camera = true /\
  let m1 := final (handleToggle cameraUnconnected Phone.initial) in
  let m3 := final (handleToggle camera
                     (Phone.run [Phone.Open (nextHandle (browser m1))]
                        (final (handleToggle camera m1)))) in
  Phone.status (cells m1) = disconnected /\
  Phone.status (cells m3) = disconnected /\
  In 1%positive (openContexts (browser m3)).
Proof.
  split; [reflexivity|]. split; [reflexivity|].
  pose proof (failed_connect_outlives_retry cameraUnconnected camera camera
                channelDown 2 [] Phone.initial (or_introl eq_refl)
                (fun _ => eq_refl) eq_refl eq_refl eq_refl eq_refl eq_refl)
    as H.
  cbv zeta in H.
  destruct H as (H1 & _ & H3 & stream & rec & _ & _ & _ & _ & Hc & _).
  exact (conj H1 (conj H3 Hc)).
Defined.

End FailedConnect.

Section TabletRetry.
Import Web Lifetime Scenario Walkthrough.


Lemma grantTracks_spec n b :
  exists stream b',
    grantTracks n b = (stream, b') /\
    List.length stream = n /\
    liveTracks b' = liveTracks b ++ stream /\
    openContexts b' = openContexts b /\
    activeTimers b' = activeTimers b /\
    recording b' = recording b /\
    (nextHandle b <= nextHandle b')%positive /\
    forall h, In h stream -> (nextHandle b <= h < nextHandle b')%positive.
Proof.
  destruct (grantTracks_fields n b) as (L & T & O & A & R & _).
  destruct (grantTracks_fresh n b) as (F & G).
  destruct (grantTracks n b) as [stream b']. cbn [fst snd] in *.
  exists stream, b'. tauto.
Qed.

Ltac name_tracks :=
  repeat match goal with
         | |- context [grantTracks ?k ?b1] =>
             let stream := fresh "stream" in
             let b' := fresh "b'" in
             let E := fresh "E" in
             destruct (grantTracks_spec k b1)
               as (stream & b' & E & ? & ? & ? & ? & ? & ? & ?);
             rewrite E; cbn [fst snd]
         end.

Lemma Tablet_start_media env b c n :
  Tablet.displayMediaSupported env = true ->
  Tablet.userMedia env = Fulfilled n ->
  let r := Tablet.startSession env {| browser := b; cells := c |} in
  let cin := nextHandle b in
  let cout := Pos.succ (nextHandle b) in
  completion r = Normal tt /\
  Tablet.status (cells (final r))
  = (if Tablet.acquires env then connecting else disconnected) /\
  Tablet.audioContextInRef (cells (final r)) = Some cin /\
  Tablet.audioContextOutRef (cells (final r)) = Some cout /\
  Tablet.frameIntervalRef (cells (final r)) = Tablet.frameIntervalRef c /\
  exists mic screen,
    Tablet.streamRef (cells (final r)) = Some mic /\
    List.length mic = n /\
    match Tablet.displayMedia env with
    | Fulfilled k =>
        Tablet.screenStreamRef (cells (final r)) = Some screen /\
        List.length screen = k
    | Rejected _ =>
        Tablet.screenStreamRef (cells (final r)) = Tablet.screenStreamRef c /\
        screen = []
    end /\
    openContexts (browser (final r)) = openContexts b ++ [cin; cout] /\
    liveTracks (browser (final r)) = liveTracks b ++ mic ++ screen /\
    activeTimers (browser (final r)) = activeTimers b /\
    (cout < nextHandle (browser (final r)))%positive /\
    (forall t, In t (mic ++ screen) ->
               (cout < t < nextHandle (browser (final r)))%positive).
Proof.
  intros Hs Hu. cbv zeta. unfold Tablet.startSession, Tablet.acquires.
  rewrite Hs, Hu. unfold newAudioContext, fresh, Tablet.await.
  destruct (Tablet.displayMedia env) as [k|e2] eqn:D;
    [destruct (Tablet.liveSession env) as [[]|e3] eqn:L|];
    js_run;
    try (destruct (String.eqb (name e2) "NotAllowedError"); js_run).
  all: repeat (split; [reflexivity|]).
  all: name_tracks.
  all: cbn [nextHandle openContexts liveTracks activeTimers] in *.
  all: match goal with
       | E1 : grantTracks _ _ = (?mic, ?b1),
         E2 : grantTracks _ ?b1 = (?screen, _) |- _ => exists mic, screen
       | E1 : grantTracks _ _ = (?mic, _) |- _ => exists mic, (@nil Handle)
       end.
  all: rewrite ?app_nil_r.
  all: repeat match goal with
              | H : ?f ?x = _ |- context [?f ?x] => rewrite H
              end.
  all: rewrite <- ?app_assoc; cbn [app].
  all: repeat (split; [solve [repeat split; first [reflexivity | assumption]]|]).
  all: split; [lia|].
  all: intros t Ht; try apply in_app_or in Ht; try destruct Ht as [Ht|Ht];
       repeat match goal with
              | G : forall h, In h ?s -> _, Ht : In ?t ?s |- _ =>
                  specialize (G t Ht)
              end; lia.
Qed.


Lemma Tablet_acquires_inv env :
  Tablet.acquires env = true ->
  exists n k,
    Tablet.displayMediaSupported env = true /\
    Tablet.userMedia env = Fulfilled n /\
    Tablet.displayMedia env = Fulfilled k /\
    Tablet.liveSession env = Fulfilled tt.
Proof.
  intros Ha.
  destruct env as [sup [n|e1] [k|e2] [[]|e3]]; cbn in Ha;
    try (destruct sup; discriminate Ha).
  destruct sup; [|discriminate Ha]. exists n, k. cbn. tauto.
Qed.

Lemma Tablet_session_keeps env evs ev b c :
  Tablet.acquires env = true ->
  forallb tabletQuiet evs = true ->
  tabletEnds ev = true ->
  let m' := Tablet.run (Tablet.Start env :: Tablet.Open :: evs ++ [ev])
              {| browser := b; cells := c |} in
  Tablet.status (cells m') = disconnected /\
  forall h, (h < nextHandle b)%positive ->
    (In h (openContexts b) -> In h (openContexts (browser m'))) /\
    (In h (liveTracks b) -> In h (liveTracks (browser m'))) /\
    (In h (activeTimers b) -> In h (activeTimers (browser m'))).
Proof.
  intros Ha Hq He. cbv zeta.
  destruct (Tablet_acquires_inv env Ha) as (n & k & Hs & Hu & Hd & Hl).
  rewrite !Tablet_run_cons, Tablet_run_app.
  change (Tablet.step {| browser := b; cells := c |} (Tablet.Start env))
    with (final (Tablet.startSession env {| browser := b; cells := c |})).
  pose proof (Tablet_start_media env b c n Hs Hu) as F. cbv zeta in F.
  rewrite Hd in F.
  destruct F as (_ & _ & Hin & Hout & _ & mic & screen & Hmic & _ &
                 (Hscr & _) & Hoc & Hlt & Hat & Bn & Bt).
  destruct (final (Tablet.startSession _ _)) as [b1 c1]. cbn [browser cells] in *.
  change (Tablet.step {| browser := b1; cells := c1 |} Tablet.Open)
    with (final (Tablet.onopen {| browser := b1; cells := c1 |})).
  rewrite (Tablet_onopen_run b1 c1 _ Hin). cbn [final].
  match goal with
  | |- context [Tablet.run evs ?m2] =>
      pose proof (Tablet_quiet_run evs m2 Hq) as R;
      destruct (Tablet.run evs m2) as [b3 c3]
  end.
  destruct R as (Roc & Rlt & Rat & Rin & Rout & Rmic & Rscr & Rfi & Rses & _).
  cbn [browser cells] in *.
  cbn [Tablet.run fold_left].
  destruct (Tablet_ending_step ev b3 c3 He)
    as (c0 & -> & Qin & Qout & Qmic & Qscr & Qfi).
  rewrite Tablet_stopSession_run. cbn [final browser cells].
  rewrite Qin, Qout, Qmic, Qscr, Qfi, Rin, Rout, Rmic, Rscr, Rfi.
  cbn -[closed cleared endTracks endVoices].
  rewrite Hin, Hout, Hmic, Hscr. cbn [ifSet].
  split; [reflexivity|].
  set (B0 := endTracks screen (endTracks mic (cleared (nextHandle b1) b3))).
  destruct (endVoices_fields (Tablet.audioSourcesRef c0) B0)
    as (_ & Voc & Vlt & Vat & _).
  intros h Hh. split; [|split].
  - cbn [closed openContexts]. rewrite Voc. subst B0.
    destruct (endTracks_fields screen (endTracks mic (cleared (nextHandle b1) b3)))
      as (_ & -> & _).
    destruct (endTracks_fields mic (cleared (nextHandle b1) b3)) as (_ & -> & _).
    cbn [cleared openContexts]. rewrite Roc. cbn [openContexts]. rewrite Hoc.
    rewrite !In_without, in_app_iff. intros H.
    split; [split; [now left | lia] | lia].
  - cbn [closed liveTracks]. rewrite Vlt. subst B0.
    rewrite !liveTracks_endTracks. cbn [cleared liveTracks]. rewrite Rlt.
    cbn [liveTracks]. rewrite Hlt, !in_app_iff. intros H.
    split; [split; [now left|]|].
    + intros T. assert (X : In h (mic ++ screen)) by (apply in_or_app; now left).
      specialize (Bt h X). lia.
    + intros T. assert (X : In h (mic ++ screen)) by (apply in_or_app; now right).
      specialize (Bt h X). lia.
  - cbn [closed activeTimers]. rewrite Vat. subst B0.
    destruct (endTracks_fields screen (endTracks mic (cleared (nextHandle b1) b3)))
      as (_ & _ & -> & _).
    destruct (endTracks_fields mic (cleared (nextHandle b1) b3)) as (_ & _ & -> & _).
    cbn [cleared activeTimers]. rewrite Rat. cbn [activeTimers]. rewrite Hat.
    rewrite In_without, in_app_iff. intros H. split; [now left | lia].
Qed.

(** Property X20.  A failed start of the tablet component is not undone by
    the next one ([src/App.tsx], [startSession] and [stopSession]).
    When the microphone was granted and a later request is refused, the
    status is back at [disconnected] while both audio contexts are open
    and the microphone tracks are live; the next start replaces the
    references without releasing them, and when that session has opened,
    run and ended, the two contexts and the microphone tracks of the
    failed attempt are still open and live. *)
Theorem failed_start_outlives_retry env env' n evs ev (m : Tablet.State) :
  Tablet.displayMediaSupported env = true ->
  Tablet.userMedia env = Fulfilled n ->
  Tablet.acquires env = false ->
  Tablet.acquires env' = true ->
  forallb tabletQuiet evs = true ->
  tabletEnds ev = true ->
  let cin := nextHandle (browser m) in
  let cout := Pos.succ (nextHandle (browser m)) in
  let m1 := Tablet.step m (Tablet.Start env) in
  let m' := Tablet.run (Tablet.Start env' :: Tablet.Open :: evs ++ [ev]) m1 in
  Tablet.status (cells m1) = disconnected /\
  Tablet.status (cells m') = disconnected /\
  exists mic,
    Tablet.streamRef (cells m1) = Some mic /\
    List.length mic = n /\
    In cin (openContexts (browser m')) /\
    In cout (openContexts (browser m')) /\
    forall t, In t mic -> In t (liveTracks (browser m')).
Proof.
  intros Hs Hu Hf Ha Hq He. cbv zeta. destruct m as [b c].
  cbn [browser cells].
  change (Tablet.step {| browser := b; cells := c |} (Tablet.Start env))
    with (final (Tablet.startSession env {| browser := b; cells := c |})).
  pose proof (Tablet_start_media env b c n Hs Hu) as F. cbv zeta in F.
  rewrite Hf in F.
  destruct F as (_ & Hst & _ & _ & _ & mic & screen & Hmic & Hlen & _ &
                 Hoc & Hlt & _ & Bn & Bt).
  destruct (final (Tablet.startSession _ _)) as [b1 c1]. cbn [browser cells] in *.
  destruct (Tablet_session_keeps env' evs ev b1 c1 Ha Hq He) as (Hs' & K).
  cbv zeta in Hs', K.
  split; [exact Hst|]. split; [exact Hs'|].
  exists mic. split; [exact Hmic|]. split; [exact Hlen|].
  split; [|split].
  - apply (K (nextHandle b)); [lia|]. rewrite Hoc. apply in_or_app. right.
    now left.
  - apply (K (Pos.succ (nextHandle b)) Bn). rewrite Hoc. apply in_or_app.
    right. right. now left.
  - intros t Ht.
    assert (X : In t (mic ++ screen)) by (apply in_or_app; now left).
    apply (K t); [apply (Bt t X)|]. rewrite Hlt, app_assoc.
    apply in_or_app. left. apply in_or_app. now right.
Qed.

Lemma failed_start_outlives_retry_witness :
  Tablet.userMedia screenDenied = Fulfilled 1%nat /\
  Tablet.acquires screenDenied = false /\
  Tablet.acquires granted = true /\
  Tablet.status
    (cells (Tablet.run [Tablet.Start granted; Tablet.Open; Tablet.Stop]
              (Tablet.step Tablet.initial (Tablet.Start screenDenied))))
  = disconnected /\
  In 1%positive
    (openContexts
       (browser (Tablet.run [Tablet.Start granted; Tablet.Open; Tablet.Stop]
                   (Tablet.step Tablet.initial (Tablet.Start screenDenied))))).
Proof.
  split; [reflexivity|]. split; [reflexivity|]. split; [reflexivity|].
  pose proof (failed_start_outlives_retry screenDenied granted 1 []
                Tablet.Stop Tablet.initial
                eq_refl eq_refl eq_refl eq_refl eq_refl eq_refl) as H.
  cbv zeta in H. destruct H as (_ & H2 & mic & _ & _ & H3 & _).
  exact (conj H2 H3).
Defined.

End TabletRetry.

Section MissingParts.
Import Web Scenario Walkthrough.

(** Property X21.  A model turn without [parts] ([onmessage] of both
    components: [message.serverContent?.modelTurn?.parts[0]] has no [?.]
    before the index): the callback ends abruptly with a [TypeError] and
    makes no browser call; the voices and the watermark are untouched,
    and an [interrupted] flag in the same message is not acted on.  On
    the tablet the transcript part of the message, which runs first, has
    taken effect; on the phone nothing has changed at all. *)
Theorem missing_parts_raises now message sc :
  serverContent message = Some sc ->
  modelTurn sc = Some None ->
  (forall b c,
     let r := Tablet.onmessage now message {| browser := b; cells := c |} in
     (exists e, completion r = Abrupt e /\ name e = "TypeError"%string) /\
     trace r = [] /\
     browser (final r) = b /\
     cells (final r) = Tablet.noted now message c /\
     Tablet.audioSourcesRef (cells (final r)) = Tablet.audioSourcesRef c /\
     Tablet.nextStartTimeRef (cells (final r)) = Tablet.nextStartTimeRef c) /\
  (forall b c,
     let r := Phone.onmessage now message {| browser := b; cells := c |} in
     (exists e, completion r = Abrupt e /\ name e = "TypeError"%string) /\
     trace r = [] /\
     final r = {| browser := b; cells := c |}).
Proof.
  intros Hsc Hmt.
  assert (I : inlineAudio message
              = inl (TypeError "Cannot read properties of undefined (reading '0')")).
  { unfold inlineAudio. now rewrite Hsc, Hmt. }
  split; intros b c; cbv zeta.
  - destruct (Tablet_noted_frame now message c) as (_ & _ & Fnext & Fsrc).
    unfold Tablet.onmessage. rewrite bind_run, Tablet_note_run.
    cbn [andThen prepend]. unfold Tablet.playInboundAudio.
    rewrite !bind_run, I. cbn.
    split; [eexists; split; reflexivity|]. repeat split; assumption.
  - unfold Phone.onmessage, Phone.playInboundAudio.
    rewrite !bind_run, I. cbn.
    split; [eexists; split; reflexivity|]. repeat split.
Qed.

Lemma missing_parts_raises_witness :
  flag interrupted partlessTurn = true /\
  trace (Tablet.onmessage (at_ 0) partlessTurn
           {| browser := browser tabletLive; cells := cells tabletLive |})
  = [] /\
  final (Phone.onmessage (at_ 0) partlessTurn
           {| browser := browser phoneLive; cells := cells phoneLive |})
  = {| browser := browser phoneLive; cells := cells phoneLive |}.
Proof.
  split; [reflexivity|].
  pose proof (missing_parts_raises (at_ 0) partlessTurn _ eq_refl eq_refl)
    as [T P].
  split.
  - exact (proj1 (proj2 (T (browser tabletLive) (cells tabletLive)))).
  - exact (proj2 (proj2 (P (browser phoneLive) (cells phoneLive)))).
Defined.

End MissingParts.

Section VisualizerFacts.
Import Visualizer.
Local Open Scope Q_scope.





End VisualizerFacts.

Section AnimationFacts.
Import Web Animation.

Lemma without_self id : without id [id] = [].
Proof. unfold without. cbn. now rewrite Pos.eqb_refl. Qed.

Lemma runCleanup_tracked s :
  tracked s ->
  requested (runCleanup s) = [] /\ frames (runCleanup s) = frames s /\
  cleanup (runCleanup s) = false.
Proof.
  unfold runCleanup, cancelPending.
  intros [E | (id & E & R & C)].
  - destruct (cleanup s) eqn:C; [|tauto].
    destruct (animationRef s); cbn; rewrite ?E; tauto.
  - rewrite C, R. cbn. rewrite E, without_self. tauto.
Qed.

Lemma loopStep_tracked s ev : tracked s -> tracked (loopStep s ev).
Proof.
  intros T. destruct ev as [a d|id|]; cbn [loopStep].
  - destruct (runCleanup_tracked s T) as (E & _ & _).
    unfold effect, cancelPending.
    destruct a; cbn [negb].
    + destruct d; cbn [negb].
      * right. exists (nextRequest (runCleanup s)). cbn. rewrite E. tauto.
      * left. exact E.
    + left. destruct (animationRef (runCleanup s)); cbn; rewrite E; reflexivity.
  - destruct (member id (requested s)) eqn:M; [|exact T].
    destruct T as [E | (id' & E & R & C)].
    + rewrite E in M. discriminate M.
    + rewrite E in M. cbn in M. rewrite orb_false_r in M.
      apply Pos.eqb_eq in M. subst id'.
      right. exists (nextRequest s). cbn. rewrite E, without_self. tauto.
  - left. apply (runCleanup_tracked s T).
Qed.

Lemma loopRun_tracked evs : forall s, tracked s -> tracked (loopRun evs s).
Proof.
  induction evs as [|ev evs IH]; intros s T; [exact T|].
  apply IH, loopStep_tracked, T.
Qed.

Lemma loopStep_stops s ev :
  tracked s -> stops ev = true ->
  requested (loopStep s ev) = [] /\ frames (loopStep s ev) = frames s.
Proof.
  intros T S. destruct ev as [[|] d|id|]; try discriminate S; cbn [loopStep].
  - destruct (runCleanup_tracked s T) as (E & F & _).
    unfold effect, cancelPending. cbn [negb].
    destruct (animationRef (runCleanup s)); cbn; rewrite E; tauto.
  - destruct (runCleanup_tracked s T) as (E & F & _). tauto.
Qed.

Lemma frames_idle ids : forall s,
  requested s = [] -> loopRun (map Frame ids) s = s.
Proof.
  induction ids as [|id ids IH]; intros s E; [reflexivity|].
  cbn. rewrite E. cbn. apply IH, E.
Qed.

(** Property X23.  The animation loop of the visualizer
    ([src/components/Visualizer.tsx], the [useEffect] and its cleanup):
    after any sequence of commits, frame callbacks and an unmount, at
    most one animation frame is requested, and it is the one
    [animationRef] names; and once the component is committed inactive
    or unmounted, no frame is requested any more and no frame callback,
    whichever the browser still tries, draws again. *)
Theorem animation_loop_stops evs ev ids :
  stops ev = true ->
  let s := loopRun evs mounted in
  let s' := loopRun (ev :: map Frame ids) s in
  (List.length (requested s) <= 1)%nat /\
  (forall id, In id (requested s) -> animationRef s = Some id) /\
  requested s' = [] /\
  frames s' = frames s.
Proof.
  intros S. cbv zeta.
  assert (T : tracked (loopRun evs mounted)).
  { apply loopRun_tracked. now left. }
  destruct (loopStep_stops _ ev T S) as (E & F).
  split; [|split].
  - destruct T as [-> | (id & -> & _)]; cbn; lia.
  - intros id H. destruct T as [E' | (id' & E' & R & _)]; rewrite E' in H.
    + destruct H.
    + destruct H as [<-|[]]. exact R.
  - cbn [loopRun fold_left].
    change (fold_left loopStep (map Frame ids) ?x)
      with (loopRun (map Frame ids) x).
    rewrite (frames_idle ids _ E). tauto.
Qed.

Lemma animation_loop_stops_witness :
  stops (Commit false true) = true /\
  frames (loopRun [Commit true true; Frame 1%positive] mounted) = 2%nat /\
  frames (loopRun (Commit false true :: map Frame [2%positive; 3%positive])
            (loopRun [Commit true true; Frame 1%positive] mounted))
  = frames (loopRun [Commit true true; Frame 1%positive] mounted).
Proof.
  split; [reflexivity|]. split; [reflexivity|].
  exact (proj2 (proj2 (proj2
    (animation_loop_stops [Commit true true; Frame 1%positive]
       (Commit false true)
       [2%positive; 3%positive] eq_refl)))).
Defined.

End AnimationFacts.
